(** * DFS web crawler and indexer: a shallow embedding

    The Python sources embedded here are [utils.py], [stop_words.py],
    [indexer.py], [webcrawler.py] and the text extractor of
    [html_parser.py].

    Conventions of the embedding.
    - A Python [str] is a [string]; its characters are read as code
      points below 256, so [str.lower], [str.strip] and friends are
      given on that range.
    - A Python [int] is a [Z].
    - A Python [dict] is an association list in insertion order: the
      order is what [.items()] yields and what ends up in the saved
      files.
    - A Python [float] is an abstract type with the operations the
      sources use (class [PyFloat]); the facts about it that a proof
      needs are collected in [PyFloatLaws], and an interpretation over
      the reals shows they can be met.
    - Exceptions are values of [exn].  A method that may raise runs in
      the monad [M], which also logs the arithmetic it performs; the
      [try] block of [load_index], which assigns to the index as it
      reads, runs in the monad [T], which keeps the index as it stands
      when the exception is raised.
    - [porterstemmer.py] and [url_manager.py] are not among the sources:
      the stemmer is a parameter (class [Stemmer]) and the frontier is
      taken from the specification. *)

From Stdlib Require Import Bool Arith NArith ZArith List Ascii String Lia.
From Stdlib Require Import DecimalString DecimalN.
From Stdlib Require Import Reals Lra.
Import ListNotations.

Local Open Scope string_scope.
Local Open Scope Z_scope.

(* ------------------------------------------------------------------ *)
(** ** Characters and strings *)

Module Chars.

Definition code (c : ascii) : N := N_of_ascii c.

Definition between (lo hi : N) (c : ascii) : bool :=
  ((lo <=? code c) && (code c <=? hi))%N.

Definition is_digit (c : ascii) : bool := between 48 57 c.
Definition is_upper_ascii (c : ascii) : bool := between 65 90 c.
Definition is_lower_ascii (c : ascii) : bool := between 97 122 c.

(** The character class [[a-zA-Z0-9]] of [splitchars]. *)
Definition is_alnum (c : ascii) : bool :=
  is_lower_ascii c || is_upper_ascii c || is_digit c.

(** [str.isspace] on one character: tab to carriage return, the four
    separators 0x1c-0x1f, space, NEL and the no-break space. *)
Definition is_space (c : ascii) : bool :=
  between 9 13 c || between 28 31 c
  || (code c =? 32)%N || (code c =? 133)%N || (code c =? 160)%N.

(** [string.punctuation]: the printable ASCII characters that are
    neither letters, digits nor the space, that is the code ranges
    33-47, 58-64, 91-96 and 123-126. *)
Definition is_punctuation (c : ascii) : bool :=
  between 33 47 c || between 58 64 c || between 91 96 c || between 123 126 c.

(** [str.lower] on one character: A-Z, and the accented capitals
    0xC0-0xDE except the multiplication sign 0xD7. *)
Definition lower (c : ascii) : ascii :=
  if is_upper_ascii c then ascii_of_N (code c + 32)
  else if between 192 222 c && negb (code c =? 215)%N
       then ascii_of_N (code c + 32)
  else c.

End Chars.

Module Str.

Fixpoint map (f : ascii -> ascii) (s : string) : string :=
  match s with
  | EmptyString => EmptyString
  | String c s' => String (f c) (map f s')
  end.

Fixpoint forallb (p : ascii -> bool) (s : string) : bool :=
  match s with
  | EmptyString => true
  | String c s' => p c && forallb p s'
  end.

Fixpoint rev_onto (s acc : string) : string :=
  match s with
  | EmptyString => acc
  | String c s' => rev_onto s' (String c acc)
  end.

Definition rev (s : string) : string := rev_onto s EmptyString.

(** [s.lower()] *)
Definition lower (s : string) : string := map Chars.lower s.

(** [s.lstrip()], [s.rstrip()], [s.strip()] *)
Fixpoint lstrip (s : string) : string :=
  match s with
  | EmptyString => EmptyString
  | String c s' => if Chars.is_space c then lstrip s' else s
  end.

Fixpoint rstrip (s : string) : string :=
  match s with
  | EmptyString => EmptyString
  | String c s' =>
      match rstrip s' with
      | EmptyString => if Chars.is_space c then EmptyString
                       else String c EmptyString
      | r => String c r
      end
  end.

Definition strip (s : string) : string := rstrip (lstrip s).

(** [s.split(sep)] for a one-character separator: always at least one
    field. *)
Fixpoint split (sep : ascii) (s : string) : list string :=
  match s with
  | EmptyString => [EmptyString]
  | String c s' =>
      if Ascii.eqb c sep then EmptyString :: split sep s'
      else match split sep s' with
           | f :: fs => String c f :: fs
           | [] => [String c EmptyString]
           end
  end.

(** [s[:n]] for [n >= 0] *)
Fixpoint take (n : nat) (s : string) : string :=
  match n, s with
  | O, _ => EmptyString
  | S n', String c s' => String c (take n' s')
  | S _, EmptyString => EmptyString
  end.

(** [s[:e]] for any integer [e]: a negative bound counts from the
    end. *)
Definition slice_to (s : string) (e : Z) : string :=
  if 0 <=? e then take (Z.to_nat e) s
  else take (Z.to_nat (Z.of_nat (String.length s) + e)) s.

Definition is_empty (s : string) : bool :=
  match s with EmptyString => true | _ => false end.

Definition mem (s : string) (l : list string) : bool :=
  existsb (String.eqb s) l.

End Str.

(* ------------------------------------------------------------------ *)
(** ** The builtins [int()] and [float()] on strings *)

Module Builtins.

Import Chars.

(** What follows the first digit of a digit part: digits, each
    optionally preceded by one underscore.  Returns what is left. *)
Fixpoint digitpart_tail (s : string) : string :=
  match s with
  | EmptyString => s
  | String c s' =>
      if is_digit c then digitpart_tail s'
      else if Ascii.eqb c "_" then
        match s' with
        | String d s'' => if is_digit d then digitpart_tail s'' else s
        | EmptyString => s
        end
      else s
  end.

(** A digit part: a digit, then digits each optionally preceded by
    one underscore. *)
Definition digitpart (s : string) : option string :=
  match s with
  | String c s' => if is_digit c then Some (digitpart_tail s') else None
  | EmptyString => None
  end.

Definition drop_sign (s : string) : string :=
  match s with
  | String c s' =>
      if Ascii.eqb c "+" || Ascii.eqb c "-" then s' else s
  | EmptyString => s
  end.

Definition is_negative (s : string) : bool :=
  match s with
  | String c _ => Ascii.eqb c "-"
  | EmptyString => false
  end.

Fixpoint remove_underscores (s : string) : string :=
  match s with
  | EmptyString => EmptyString
  | String c s' =>
      if Ascii.eqb c "_" then remove_underscores s'
      else String c (remove_underscores s')
  end.

(** [int(s)] in base 10: surrounding whitespace is dropped, then an
    optional sign and one digit part up to the end.  [None] stands for
    [ValueError]. *)
Definition int_syntax (body : string) : bool :=
  match digitpart body with
  | Some EmptyString => true
  | _ => false
  end.

Definition py_int (s : string) : option Z :=
  let t := Str.strip s in
  let body := drop_sign t in
  if int_syntax body then
    match NilEmpty.uint_of_string (remove_underscores body) with
    | Some d =>
        let n := Z.of_N (N.of_uint d) in
        Some (if is_negative t then - n else n)
    | None => None
    end
  else None.

(** [str(n)] for an integer, as an f-string writes it. *)
Definition str_of_int (z : Z) : string :=
  let digits := NilEmpty.string_of_uint (N.to_uint (Z.abs_N z)) in
  if z <? 0 then String "-" digits else digits.

(** The exponent of a float literal: [e] or [E], an optional sign, a
    digit part.  Returns what is left. *)
Definition exponent (s : string) : option string :=
  match s with
  | String c s' =>
      if Ascii.eqb c "e" || Ascii.eqb c "E" then digitpart (drop_sign s')
      else None
  | EmptyString => None
  end.

Definition ends_with_optional_exponent (s : string) : bool :=
  match s with
  | EmptyString => true
  | _ => match exponent s with
         | Some EmptyString => true
         | _ => false
         end
  end.

(** After the integer digits: an optional point with optional
    fraction digits, then an optional exponent. *)
Definition after_int_digits (s : string) : bool :=
  match s with
  | String c s' =>
      if Ascii.eqb c "." then
        match digitpart s' with
        | Some r => ends_with_optional_exponent r
        | None => ends_with_optional_exponent s'
        end
      else ends_with_optional_exponent s
  | EmptyString => true
  end.

Definition decimal_literal (s : string) : bool :=
  match digitpart s with
  | Some r => after_int_digits r
  | None =>
      match s with
      | String c s' =>
          if Ascii.eqb c "." then
            match digitpart s' with
            | Some r => ends_with_optional_exponent r
            | None => false
            end
          else false
      | EmptyString => false
      end
  end.

Definition special_literal (s : string) : bool :=
  Str.mem (Str.lower s) ["inf"; "infinity"; "nan"].

(** Whether [float(s)] returns rather than raising [ValueError]. *)
Definition float_syntax (s : string) : bool :=
  let body := drop_sign (Str.strip s) in
  decimal_literal body || special_literal body.

End Builtins.

(** The decimal digits of a natural number. *)
Definition digits_of (n : N) : string :=
  NilEmpty.string_of_uint (N.to_uint n).

(* ------------------------------------------------------------------ *)
(** ** [utils.py]: token helpers *)

(** [re.findall(r'[a-zA-Z0-9]+', s)]: the maximal runs of ASCII letters
    and digits, left to right.  [run] holds the current run, reversed. *)
Definition flush_run (run : string) : list string :=
  match run with
  | EmptyString => []
  | _ => [Str.rev run]
  end.

Fixpoint splitchars_from (run : string) (s : string) : list string :=
  match s with
  | EmptyString => flush_run run
  | String c s' =>
      if Chars.is_alnum c then splitchars_from (String c run) s'
      else (flush_run run ++ splitchars_from EmptyString s')%list
  end.

Definition splitchars (s : string) : list string :=
  splitchars_from EmptyString s.

Definition normalize_token (token : string) : string :=
  Str.strip (Str.lower token).

Definition starts_with_punctuation (s : string) : bool :=
  match s with
  | EmptyString => false
  | String c _ => Chars.is_punctuation c
  end.

Definition is_short_limit (s : string) (limit : Z) : bool :=
  Z.of_nat (String.length s) <=? limit.

Definition is_short (s : string) : bool := is_short_limit s 2.

(** [float(s)] is tried first and [int(s)] only when it raises. *)
Definition is_number (s : string) : bool :=
  if Builtins.float_syntax s then true
  else match Builtins.py_int s with
       | Some _ => true
       | None => false
       end.

(* ------------------------------------------------------------------ *)
(** ** [stop_words.py] *)

Definition STOP_WORDS : list string := [
    (* Articles *)
    "a"; "an"; "the";
    (* Common conjunctions *)
    "and"; "or"; "but"; "nor"; "so"; "yet"; "for";
    (* Prepositions *)
    "about"; "above"; "across"; "after"; "against"; "along"; "among"; "around";
    "at"; "before"; "behind"; "below"; "beneath"; "beside"; "between"; "beyond";
    "by"; "down"; "during"; "except"; "for"; "from"; "in"; "inside"; "into";
    "like"; "near"; "of"; "off"; "on"; "onto"; "out"; "outside"; "over";
    "past"; "since"; "through"; "throughout"; "till"; "to"; "toward"; "under";
    "underneath"; "until"; "up"; "upon"; "with"; "within"; "without";
    (* Pronouns *)
    "i"; "me"; "my"; "mine"; "myself";
    "you"; "your"; "yours"; "yourself"; "yourselves";
    "he"; "him"; "his"; "himself";
    "she"; "her"; "hers"; "herself";
    "it"; "its"; "itself";
    "we"; "us"; "our"; "ours"; "ourselves";
    "they"; "them"; "their"; "theirs"; "themselves";
    (* Common verbs (to be, to have, etc.) *)
    "am"; "is"; "are"; "was"; "were"; "be"; "been"; "being";
    "have"; "has"; "had"; "having"; "do"; "does"; "did"; "doing";
    "will"; "would"; "shall"; "should"; "can"; "could"; "may"; "might"; "must";
    (* Common adverbs *)
    "very"; "too"; "quite"; "rather"; "somewhat"; "almost"; "just"; "only";
    "really"; "even"; "ever"; "never"; "always"; "often"; "sometimes"; "usually";
    "well"; "better"; "best"; "bad"; "worse"; "worst";
    (* Common adjectives *)
    "all"; "any"; "both"; "each"; "every"; "few"; "many"; "more"; "most";
    "much"; "several"; "some"; "such"; "no"; "none"; "other"; "same";
    "different"; "new"; "old"; "good"; "great"; "high"; "small"; "large";
    "big"; "long"; "little"; "young"; "important"; "early"; "late";
    (* Common contractions *)
    "aren't"; "can't"; "couldn't"; "didn't"; "doesn't"; "don't"; "hadn't";
    "hasn't"; "haven't"; "isn't"; "mightn't"; "mustn't"; "needn't"; "shan't";
    "shouldn't"; "wasn't"; "weren't"; "won't"; "wouldn't";
    (* Common connectors *)
    "also"; "however"; "therefore"; "thus"; "hence"; "consequently";
    "furthermore"; "moreover"; "nevertheless"; "nonetheless"; "otherwise";
    "similarly"; "accordingly"; "besides"; "else"; "instead"; "likewise";
    "meanwhile"; "moreover"; "namely"; "next"; "now"; "otherwise"; "still";
    "then"; "thereafter"; "therefore"; "thus"; "undoubtedly";
    (* Web-specific common words *)
    "click"; "here"; "home"; "page"; "website"; "web"; "site"; "link";
    "menu"; "navigation"; "footer"; "header"; "sidebar"; "content";
    "copyright"; "privacy"; "policy"; "terms"; "conditions"; "contact";
    "about"; "us"; "our"; "services"; "products"; "blog"; "news";
    "read"; "more"; "view"; "download"; "subscribe"; "sign"; "up";
    "login"; "logout"; "register"; "account"; "profile"; "settings";
    (* Time-related *)
    "today"; "tomorrow"; "yesterday"; "now"; "then"; "when"; "while";
    "before"; "after"; "during"; "since"; "until"; "soon"; "later";
    "early"; "late"; "always"; "never"; "often"; "sometimes"; "usually";
    (* Place-related *)
    "here"; "there"; "where"; "everywhere"; "anywhere"; "somewhere";
    "above"; "below"; "under"; "over"; "between"; "among"; "through";
    (* Question words *)
    "what"; "which"; "who"; "whom"; "whose"; "why"; "how"; "when"; "where";
    (* Demonstratives *)
    "this"; "that"; "these"; "those";
    (* Numbers (common ones) *)
    "one"; "two"; "three"; "four"; "five"; "six"; "seven"; "eight"; "nine"; "ten";
    "first"; "second"; "third"; "fourth"; "fifth"; "last"; "next"; "previous";
    (* Common web crawler noise *)
    "com"; "www"; "http"; "https"; "html"; "htm"; "php"; "asp"; "jsp";
    "index"; "default"; "main"; "homepage"
  ].

Definition is_stop_word (word : string) : bool :=
  Str.mem (Str.lower word) STOP_WORDS.

(* ------------------------------------------------------------------ *)
(** ** The stemmer interface

    [porterstemmer.PorterStemmer] is used through one method,
    [stem(word, start, end)], inside a [try]; [None] stands for a raised
    exception.  [SimpleStemmer] is the fallback class of [indexer.py]. *)

Class Stemmer := { stem : string -> Z -> Z -> option string }.

Definition SimpleStemmer : Stemmer :=
  {| stem := fun word _ e => Some (Str.slice_to (Str.lower word) (e + 1)) |}.

(* ------------------------------------------------------------------ *)
(** ** Dictionaries in insertion order *)

Class EqKey (K : Type) := {
  keqb : K -> K -> bool;
  keqb_eq : forall x y, keqb x y = true <-> x = y
}.

#[export] Instance EqKey_string : EqKey string :=
  {| keqb := String.eqb; keqb_eq := String.eqb_eq |}.

#[export] Instance EqKey_Z : EqKey Z :=
  {| keqb := Z.eqb; keqb_eq := Z.eqb_eq |}.

Module Dict.

Definition t (K V : Type) : Type := list (K * V).

Section Ops.
Context {K V : Type} `{EqKey K}.

(** [d.get(k)] *)
Fixpoint get (d : t K V) (k : K) : option V :=
  match d with
  | [] => None
  | (k', v) :: d' => if keqb k' k then Some v else get d' k
  end.

(** [d[k] = v]: an existing key keeps its place, a new one goes
    last. *)
Fixpoint set (d : t K V) (k : K) (v : V) : t K V :=
  match d with
  | [] => [(k, v)]
  | (k', v') :: d' =>
      if keqb k' k then (k', v) :: d' else (k', v') :: set d' k v
  end.

Definition keys (d : t K V) : list K := List.map fst d.
Definition values (d : t K V) : list V := List.map snd d.

(** What Python guarantees of every dict: no key twice. *)
Definition wf (d : t K V) : Prop := NoDup (keys d).

End Ops.

End Dict.

(** [max(xs)] for a non-empty list of integers. *)
Definition max_of (x : Z) (xs : list Z) : Z := fold_left Z.max xs x.

(* ------------------------------------------------------------------ *)
(** ** Floats, exceptions and the monad of methods that may raise *)

Class PyFloat := {
  float : Type;
  (** the coercion of an [int] operand, as in [tf * idf] or [0 + x] *)
  float_of_int : Z -> float;
  (** [n / d] on two ints with [d] not zero *)
  int_truediv : Z -> Z -> float;
  fadd : float -> float -> float;
  fmul : float -> float -> float;
  (** [math.sqrt(x)] and [math.log(x)] on [x > 0] *)
  fsqrt : float -> float;
  fln : float -> float;
  (** [x > 0] *)
  fgt0 : float -> bool;
  (** the f-string conversion [x:.6f] *)
  fmt6 : float -> string;
  (** [float(s)] on the strings it accepts *)
  float_value : string -> float
}.

Inductive exn : Type :=
| ValueError
| KeyError
| ZeroDivisionError
| FileNotFoundError.

(** The arithmetic a run performs, in order. *)
Inductive arith : Type :=
| DivInt (n d : Z)
| MathLog
| MathSqrt.

Definition M (A : Type) : Type := (list arith * (exn + A))%type.

Definition ret {A} (a : A) : M A := ([], inr a).
Definition raise {A} (e : exn) : M A := ([], inl e).
Definition tell (op : arith) : M unit := ([op], inr tt).

Definition bind {A B} (m : M A) (k : A -> M B) : M B :=
  match m with
  | (l, inl e) => (l, inl e)
  | (l, inr a) => let '(l', r) := k a in ((l ++ l')%list, r)
  end.

Notation "x <- m ;; k" := (bind m (fun x => k))
  (at level 61, m at next level, right associativity).
Notation "m ;;; k" := (bind m (fun _ => k))
  (at level 61, right associativity).

(** A [for] loop whose body may raise: the first exception ends it. *)
Fixpoint for_each {X A} (body : X -> A -> M A) (xs : list X) (a : A) : M A :=
  match xs with
  | [] => ret a
  | x :: xs' => a' <- body x a ;; for_each body xs' a'
  end.

Definition trace {A} (m : M A) : list arith := fst m.
Definition outcome {A} (m : M A) : exn + A := snd m.

Definition is_division (op : arith) : bool :=
  match op with DivInt _ _ => true | _ => false end.

Section Arithmetic.
Context `{PyFloat}.

(** [n / d] *)
Definition truediv (n d : Z) : M float :=
  tell (DivInt n d) ;;;
  if d =? 0 then raise ZeroDivisionError else ret (int_truediv n d).

(** [math.log(x)]: [ValueError] unless [x > 0]. *)
Definition math_log (x : float) : M float :=
  tell MathLog ;;;
  if fgt0 x then ret (fln x) else raise ValueError.

(** [float(s)] *)
Definition py_float (s : string) : option float :=
  if Builtins.float_syntax s then Some (float_value s) else None.

End Arithmetic.

(* ------------------------------------------------------------------ *)
(** ** [indexer.py]: the index and its construction *)

(** [Indexer.stats] *)
Record Stats : Type := mkStats {
  tokens_processed : Z;
  stop_words_matched : Z;
  short_words_ignored : Z;
  numbers_ignored : Z;
  punctuation_words_ignored : Z
}.

Definition count_token (s : Stats) : Stats :=
  mkStats (tokens_processed s + 1) (stop_words_matched s)
          (short_words_ignored s) (numbers_ignored s)
          (punctuation_words_ignored s).

Definition count_stop_word (s : Stats) : Stats :=
  mkStats (tokens_processed s) (stop_words_matched s + 1)
          (short_words_ignored s) (numbers_ignored s)
          (punctuation_words_ignored s).

Definition count_short_word (s : Stats) : Stats :=
  mkStats (tokens_processed s) (stop_words_matched s)
          (short_words_ignored s + 1) (numbers_ignored s)
          (punctuation_words_ignored s).

Definition count_number (s : Stats) : Stats :=
  mkStats (tokens_processed s) (stop_words_matched s)
          (short_words_ignored s) (numbers_ignored s + 1)
          (punctuation_words_ignored s).

Definition count_punctuation (s : Stats) : Stats :=
  mkStats (tokens_processed s) (stop_words_matched s)
          (short_words_ignored s) (numbers_ignored s)
          (punctuation_words_ignored s + 1).

(** [term_freq[stemmed] += 1] on a [defaultdict(int)] *)
Definition increment (term_freq : Dict.t string Z) (term : string)
  : Dict.t string Z :=
  Dict.set term_freq term
    (match Dict.get term_freq term with Some n => n | None => 0 end + 1).

(** The [try] around the stemmer call. *)
Definition stem_or_self `{Stemmer} (token_lower : string) : string :=
  match stem token_lower 0 (Z.of_nat (String.length token_lower) - 1) with
  | Some stemmed => stemmed
  | None => token_lower
  end.

(** One turn of the token loop of [Indexer.process_document_from_text]. *)
Definition process_token `{Stemmer} (acc : Stats * Dict.t string Z)
  (token : string) : Stats * Dict.t string Z :=
  let '(st, term_freq) := acc in
  let token_lower := normalize_token token in
  if Str.is_empty token_lower then acc
  else
    let st := count_token st in
    if is_stop_word token_lower then (count_stop_word st, term_freq)
    else if starts_with_punctuation token_lower
         then (count_punctuation st, term_freq)
    else if is_short token_lower then (count_short_word st, term_freq)
    else if is_number token_lower then (count_number st, term_freq)
    else (st, increment term_freq (stem_or_self token_lower)).

Section Index.
Context `{PyFloat} `{Stemmer}.

(** A posting: the dict [{'tf': ...}], to which the scoring pass adds
    the keys [tf_idf], [idf] and [df]. *)
Record posting : Type := mkPosting {
  tf : Z;
  tf_idf : option float;
  idf : option float;
  df : option Z
}.

Record Indexer : Type := mkIndexer {
  documents : Dict.t string Z;
  documents_inv : Dict.t Z string;
  terms : Dict.t string Z;
  terms_inv : Dict.t Z string;
  postings : Dict.t Z (Dict.t Z posting);
  doc_lengths : Dict.t Z float;
  next_doc_id : Z;
  next_term_id : Z;
  total_docs : Z;
  total_terms : Z;
  stats : Stats
}.

(** [Indexer.__init__] *)
Definition new_indexer : Indexer :=
  mkIndexer [] [] [] [] [] [] 1 1 0 0 (mkStats 0 0 0 0 0).

(** [postings[term_id][doc_id] = p], creating the inner dict when the
    term has none. *)
Definition set_posting (pt : Dict.t Z (Dict.t Z posting))
  (term_id doc_id : Z) (p : posting) : Dict.t Z (Dict.t Z posting) :=
  Dict.set pt term_id
    (Dict.set (match Dict.get pt term_id with
               | Some doc_postings => doc_postings
               | None => []
               end) doc_id p).

(** One turn of the loop over [term_freq.items()]. *)
Definition record_term (doc_id : Z) (ix : Indexer) (tfq : string * Z)
  : Indexer :=
  let '(term, freq) := tfq in
  let '(terms', terms_inv', next', term_id) :=
    match Dict.get (terms ix) term with
    | Some term_id => (terms ix, terms_inv ix, next_term_id ix, term_id)
    | None =>
        (Dict.set (terms ix) term (next_term_id ix),
         Dict.set (terms_inv ix) (next_term_id ix) term,
         next_term_id ix + 1,
         next_term_id ix)
    end in
  mkIndexer (documents ix) (documents_inv ix) terms' terms_inv'
    (set_posting (postings ix) term_id doc_id (mkPosting freq None None None))
    (doc_lengths ix) (next_doc_id ix) next'
    (total_docs ix) (total_terms ix) (stats ix).

(** [Indexer.process_document_from_text]: the new index and the
    document id it returns. *)
Definition process_document_from_text (ix : Indexer)
  (doc_content doc_path : string) : Indexer * Z :=
  let doc_id := next_doc_id ix in
  let tokens := splitchars doc_content in
  let '(stats', term_freq) :=
    fold_left process_token tokens (stats ix, []) in
  let ix1 :=
    mkIndexer (Dict.set (documents ix) doc_path doc_id)
              (Dict.set (documents_inv ix) doc_id doc_path)
              (terms ix) (terms_inv ix) (postings ix) (doc_lengths ix)
              (doc_id + 1) (next_term_id ix)
              (total_docs ix) (total_terms ix) stats' in
  (fold_left (record_term doc_id) term_freq ix1, doc_id).

(* ---------------------------------------------------------------- *)
(** *** The scoring pass *)

(** The three assignments to one posting. *)
Definition score_posting (idf_ : float) (df_ : Z) (p : posting) : posting :=
  mkPosting (tf p) (Some (fmul (float_of_int (tf p)) idf_))
            (Some idf_) (Some df_).

(** The body of the loop over [postings.items()], for one term. *)
Definition score_term (N : Z) (doc_postings : Dict.t Z posting)
  : M (Dict.t Z posting) :=
  let df_ := Z.of_nat (List.length doc_postings) in
  if df_ =? 0 then ret doc_postings
  else
    idf_ <- (if 0 <? df_ then q <- truediv N df_ ;; math_log q
             else ret (float_of_int 0)) ;;
    ret (List.map (fun '(doc_id, p) => (doc_id, score_posting idf_ df_ p))
                  doc_postings).

(** [calculate_tf_idf], of [Indexer] and of [WebCrawler] alike, on the
    postings table and the document count [N] each of them reads.  An
    exception leaves the method and its caller, so the table of a run
    that raised is not given. *)
Fixpoint score_postings (N : Z) (pt : Dict.t Z (Dict.t Z posting))
  : M (Dict.t Z (Dict.t Z posting)) :=
  match pt with
  | [] => ret []
  | (term_id, doc_postings) :: rest =>
      scored <- score_term N doc_postings ;;
      rest' <- score_postings N rest ;;
      ret ((term_id, scored) :: rest')
  end.

Definition with_postings (ix : Indexer) (pt : Dict.t Z (Dict.t Z posting))
  : Indexer :=
  mkIndexer (documents ix) (documents_inv ix) (terms ix) (terms_inv ix)
    pt (doc_lengths ix) (next_doc_id ix) (next_term_id ix)
    (total_docs ix) (total_terms ix) (stats ix).

(** [Indexer.calculate_tf_idf]: [N = len(self.documents)]. *)
Definition calculate_tf_idf (ix : Indexer) : M Indexer :=
  let N := Z.of_nat (List.length (documents ix)) in
  pt <- score_postings N (postings ix) ;;
  ret (with_postings ix pt).

(** The inner loop of [calculate_document_lengths]: the running
    [length_squared], which starts from the int [0]. *)
Definition add_square (doc_id : Z) (entry : Z * Dict.t Z posting)
  (length_squared : float) : M float :=
  match Dict.get (snd entry) doc_id with
  | None => ret length_squared
  | Some p =>
      match tf_idf p with
      | None => raise KeyError
      | Some w => ret (fadd length_squared (fmul w w))
      end
  end.

Definition length_squared_of (pt : Dict.t Z (Dict.t Z posting)) (doc_id : Z)
  : M float :=
  for_each (add_square doc_id) pt (float_of_int 0).

(** [math.sqrt(length_squared) if length_squared > 0 else 1.0] *)
Definition length_of (length_squared : float) : M float :=
  if fgt0 length_squared
  then tell MathSqrt ;;; ret (fsqrt length_squared)
  else ret (float_of_int 1).

Definition document_length (pt : Dict.t Z (Dict.t Z posting))
  (doc_id : Z) (lengths : Dict.t Z float) : M (Dict.t Z float) :=
  length_squared <- length_squared_of pt doc_id ;;
  len <- length_of length_squared ;;
  ret (Dict.set lengths doc_id len).

Definition with_doc_lengths (ix : Indexer) (dl : Dict.t Z float) : Indexer :=
  mkIndexer (documents ix) (documents_inv ix) (terms ix) (terms_inv ix)
    (postings ix) dl (next_doc_id ix) (next_term_id ix)
    (total_docs ix) (total_terms ix) (stats ix).

(** [Indexer.calculate_document_lengths]: one length per key of
    [documents_inv]. *)
Definition calculate_document_lengths (ix : Indexer) : M Indexer :=
  dl <- for_each (document_length (postings ix))
                 (Dict.keys (documents_inv ix)) (doc_lengths ix) ;;
  ret (with_doc_lengths ix dl).

End Index.

(* ------------------------------------------------------------------ *)
(** ** [indexer.py]: saving and loading *)

Definition nl : ascii := "010"%char.
Definition cr : ascii := "013"%char.
Definition comma : ascii := ","%char.

(** The four files of an index directory; [None] is a missing file. *)
Record Files : Type := mkFiles {
  documents_dat : option string;
  terms_dat : option string;
  postings_dat : option string;
  doc_lengths_dat : option string
}.

(** What a sequence of [f.write(line + newline)] calls leaves in a
    file. *)
Fixpoint unlines (ls : list string) : string :=
  match ls with
  | [] => EmptyString
  | l :: ls' => l ++ String nl (unlines ls')
  end.

(** Reading in text mode: a carriage return, alone or before a line
    feed, is read as a line feed. *)
Fixpoint translate_newlines (s : string) : string :=
  match s with
  | EmptyString => EmptyString
  | String c s' =>
      if Ascii.eqb c cr then
        match s' with
        | String c' s'' =>
            if Ascii.eqb c' nl then String nl (translate_newlines s'')
            else String nl (translate_newlines s')
        | EmptyString => String nl EmptyString
        end
      else String c (translate_newlines s')
  end.

Fixpoint drop_last_if_empty (ls : list string) : list string :=
  match ls with
  | [] => []
  | [l] => if Str.is_empty l then [] else [l]
  | l :: ls' => l :: drop_last_if_empty ls'
  end.

(** The lines [for line in f] yields, without their terminator: each is
    passed to [strip()] at once, which would remove it. *)
Definition readlines (s : string) : list string :=
  drop_last_if_empty (Str.split nl (translate_newlines s)).

Definition join_fields (fields : list string) : string :=
  String.concat "," fields.

Section Persistence.
Context `{PyFloat}.

(** [posting.get(key, 0)] for the float keys, through [:.6f], and for
    [df]. *)
Definition fmt6_or_zero (x : option float) : string :=
  fmt6 (match x with Some v => v | None => float_of_int 0 end).

Definition int_or_zero (x : option Z) : Z :=
  match x with Some v => v | None => 0 end.

Definition documents_lines (ix : Indexer) : list string :=
  List.map (fun '(doc_path, doc_id) =>
              join_fields [doc_path; Builtins.str_of_int doc_id])
           (documents ix).

Definition terms_lines (ix : Indexer) : list string :=
  List.map (fun '(term, term_id) =>
              join_fields [term; Builtins.str_of_int term_id])
           (terms ix).

Definition posting_line (term_id : Z) (entry : Z * posting) : string :=
  let '(doc_id, p) := entry in
  join_fields [Builtins.str_of_int term_id; Builtins.str_of_int doc_id;
               fmt6_or_zero (tf_idf p); Builtins.str_of_int (tf p);
               fmt6_or_zero (idf p);
               Builtins.str_of_int (int_or_zero (df p))].

Definition postings_lines (ix : Indexer) : list string :=
  List.flat_map (fun '(term_id, doc_postings) =>
                   List.map (posting_line term_id) doc_postings)
                (postings ix).

Definition doc_lengths_lines (ix : Indexer) : list string :=
  List.map (fun '(doc_id, len) =>
              join_fields [Builtins.str_of_int doc_id; fmt6 len])
           (doc_lengths ix).

(** [Indexer.save_index] when the directory can be written: the files
    it leaves there. *)
Definition save_index (ix : Indexer) : Files :=
  mkFiles (Some (unlines (documents_lines ix)))
          (Some (unlines (terms_lines ix)))
          (Some (unlines (postings_lines ix)))
          (Some (unlines (doc_lengths_lines ix))).

(** The [try] block of [load_index] assigns to [self] as it goes: a
    computation takes the index and gives back the index as it stands
    when it returns or raises. *)
Definition T (A : Type) : Type := Indexer -> Indexer * (exn + A).

Definition retT {A} (a : A) : T A := fun ix => (ix, inr a).
Definition raiseT {A} (e : exn) : T A := fun ix => (ix, inl e).
Definition modify (f : Indexer -> Indexer) : T unit :=
  fun ix => (f ix, inr tt).
Definition bindT {A B} (m : T A) (k : A -> T B) : T B :=
  fun ix => match m ix with
            | (ix', inl e) => (ix', inl e)
            | (ix', inr a) => k a ix'
            end.

(** [open(path, 'r')] and the lines of the file *)
Definition open_lines (file : option string) : T (list string) :=
  match file with
  | None => raiseT FileNotFoundError
  | Some s => retT (readlines s)
  end.

Fixpoint for_lines (body : string -> T unit) (lines : list string) : T unit :=
  match lines with
  | [] => retT tt
  | line :: rest => bindT (body line) (fun _ => for_lines body rest)
  end.

(** [int(s)] and [float(s)] inside the [try] *)
Definition intT (s : string) : T Z :=
  match Builtins.py_int s with
  | Some z => retT z
  | None => raiseT ValueError
  end.

Definition floatT (s : string) : T float :=
  match py_float s with
  | Some x => retT x
  | None => raiseT ValueError
  end.

Definition with_documents (d : Dict.t string Z) (di : Dict.t Z string)
  (ix : Indexer) : Indexer :=
  mkIndexer d di (terms ix) (terms_inv ix) (postings ix) (doc_lengths ix)
    (next_doc_id ix) (next_term_id ix) (total_docs ix) (total_terms ix)
    (stats ix).

Definition with_terms (t : Dict.t string Z) (ti : Dict.t Z string)
  (ix : Indexer) : Indexer :=
  mkIndexer (documents ix) (documents_inv ix) t ti (postings ix)
    (doc_lengths ix) (next_doc_id ix) (next_term_id ix)
    (total_docs ix) (total_terms ix) (stats ix).

Definition with_counters (nd nt td tt : Z) (ix : Indexer) : Indexer :=
  mkIndexer (documents ix) (documents_inv ix) (terms ix) (terms_inv ix)
    (postings ix) (doc_lengths ix) nd nt td tt (stats ix).

Definition load_document_line (line : string) : T unit :=
  match Str.split comma (Str.strip line) with
  | [doc_path; doc_id] =>
      bindT (intT doc_id) (fun doc_id =>
      modify (fun ix =>
        with_documents (Dict.set (documents ix) doc_path doc_id)
                       (Dict.set (documents_inv ix) doc_id doc_path) ix))
  | _ => raiseT ValueError
  end.

Definition load_term_line (line : string) : T unit :=
  match Str.split comma (Str.strip line) with
  | [term; term_id] =>
      bindT (intT term_id) (fun term_id =>
      modify (fun ix =>
        with_terms (Dict.set (terms ix) term term_id)
                   (Dict.set (terms_inv ix) term_id term) ix))
  | _ => raiseT ValueError
  end.

Definition load_posting_line (line : string) : T unit :=
  match Str.split comma (Str.strip line) with
  | [term_id; doc_id; tf_idf_; tf_; idf_; df_] =>
      bindT (intT term_id) (fun term_id =>
      bindT (intT doc_id) (fun doc_id =>
      bindT (floatT tf_idf_) (fun tf_idf_ =>
      bindT (intT tf_) (fun tf_ =>
      bindT (floatT idf_) (fun idf_ =>
      bindT (intT df_) (fun df_ =>
      modify (fun ix =>
        with_postings ix
          (set_posting (postings ix) term_id doc_id
             (mkPosting tf_ (Some tf_idf_) (Some idf_) (Some df_))))))))))
  | _ => raiseT ValueError
  end.

Definition load_doc_length_line (line : string) : T unit :=
  match Str.split comma (Str.strip line) with
  | [doc_id; len] =>
      bindT (floatT len) (fun len =>
      bindT (intT doc_id) (fun doc_id =>
      modify (fun ix =>
        with_doc_lengths ix (Dict.set (doc_lengths ix) doc_id len))))
  | _ => raiseT ValueError
  end.

(** [max(d.values()) + 1 if d else 1] *)
Definition next_id {K} (d : Dict.t K Z) : Z :=
  match Dict.values d with
  | [] => 1
  | x :: xs => max_of x xs + 1
  end.

Definition update_counters (ix : Indexer) : Indexer :=
  with_counters (next_id (documents ix)) (next_id (terms ix))
                (Z.of_nat (List.length (documents ix)))
                (Z.of_nat (List.length (terms ix))) ix.

(** The four blocks of the [try] of [load_index]: each clears its
    tables, opens its file and reads it line by line. *)
Definition load_documents (files : Files) : T unit :=
  bindT (modify (with_documents [] [])) (fun _ =>
  bindT (open_lines (documents_dat files)) (fun lines =>
  for_lines load_document_line lines)).

Definition load_terms (files : Files) : T unit :=
  bindT (modify (with_terms [] [])) (fun _ =>
  bindT (open_lines (terms_dat files)) (fun lines =>
  for_lines load_term_line lines)).

Definition load_postings (files : Files) : T unit :=
  bindT (modify (fun ix => with_postings ix [])) (fun _ =>
  bindT (open_lines (postings_dat files)) (fun lines =>
  for_lines load_posting_line lines)).

Definition load_doc_lengths (files : Files) : T unit :=
  bindT (modify (fun ix => with_doc_lengths ix [])) (fun _ =>
  bindT (open_lines (doc_lengths_dat files)) (fun lines =>
  for_lines load_doc_length_line lines)).

(** The body of the [try] of [load_index] *)
Definition load_index_try (files : Files) : T unit :=
  bindT (load_documents files) (fun _ =>
  bindT (load_terms files) (fun _ =>
  bindT (load_postings files) (fun _ =>
  bindT (load_doc_lengths files) (fun _ =>
  modify update_counters)))).

(** [Indexer.load_index]: the index afterwards, and [True] or
    [False]. *)
Definition load_index (files : Files) (ix : Indexer) : Indexer * bool :=
  match load_index_try files ix with
  | (ix', inr _) => (ix', true)
  | (ix', inl _) => (ix', false)
  end.

End Persistence.

(* ------------------------------------------------------------------ *)
(** ** The URL frontier *)

Module URLManager.

(** Modelled from the spec: the class [URLManager] of
    [url_manager.py], of which [webcrawler.py] holds only the calls.
    [add_url] canonicalizes the URL; it changes nothing if the URL was
    seen (pending or visited) or if the total frontier size has
    reached [max_urls]; otherwise the entry becomes the top of a
    stack.  [get_next_url] removes and returns the top entry.
    [get_queue_size] is taken to be the number of pending entries. *)
Record t : Type := mk {
  max_urls : Z;
  pending : list (string * Z);
  seen : list string
}.

(** Modelled from the spec: [URLManager(max_urls)], an empty
    frontier. *)
Definition new (max_urls : Z) : t := mk max_urls [] [].

Section Ops.
(** [normalize_url] of [utils.py], which rests on [urllib.parse] *)
Variable normalize_url : string -> string.

(** Modelled from the spec: [add_url], the push of section 4.1. *)
Definition add_url (m : t) (url : string) (depth : Z) : t :=
  let u := normalize_url url in
  if Str.mem u (seen m) || (max_urls m <=? Z.of_nat (List.length (seen m)))
  then m
  else mk (max_urls m) ((u, depth) :: pending m) (u :: seen m).
End Ops.

(** Modelled from the spec: [is_empty], no pending entry. *)
Definition is_empty (m : t) : bool :=
  match pending m with [] => true | _ => false end.

(** Modelled from the spec: [get_next_url], the pop of section 4.1;
    [None] on an empty frontier. *)
Definition get_next_url (m : t) : option ((string * Z) * t) :=
  match pending m with
  | [] => None
  | top :: rest => Some (top, mk (max_urls m) rest (seen m))
  end.

(** Modelled from the spec: [get_queue_size], which the spec leaves
    out; by its name, the number of pending entries. *)
Definition get_queue_size (m : t) : Z := Z.of_nat (List.length (pending m)).

End URLManager.

(* ------------------------------------------------------------------ *)
(** ** [webcrawler.py] *)

Module CStats.
(** [WebCrawler.stats], without the two time stamps *)
Record t : Type := mk {
  documents_processed : Z;
  total_tokens : Z;
  unique_terms : Z;
  stop_words_matched : Z;
  urls_crawled : Z;
  urls_in_frontier : Z
}.

Definition zero : t := mk 0 0 0 0 0 0.
End CStats.

(** One turn of the token loop of [WebCrawler.process_document]:
    [total_tokens], [stop_words_matched] and the term frequencies. *)
Definition crawler_token `{Stemmer} (acc : (Z * Z) * Dict.t string Z)
  (token : string) : (Z * Z) * Dict.t string Z :=
  let '((total, stops), term_freq) := acc in
  let token_lower := normalize_token token in
  if Str.is_empty token_lower then acc
  else
    let total := total + 1 in
    if is_stop_word token_lower then ((total, stops + 1), term_freq)
    else if starts_with_punctuation token_lower then ((total, stops), term_freq)
    else if is_short token_lower then ((total, stops), term_freq)
    else if is_number token_lower then ((total, stops), term_freq)
    else ((total, stops), increment term_freq (stem_or_self token_lower)).

Section Crawler.
Context `{PyFloat} `{Stemmer}.

Record WebCrawler : Type := mkWebCrawler {
  max_urls : Z;
  max_depth : Z;
  cstats : CStats.t;
  indexer : Indexer
}.

(** [WebCrawler.__init__] *)
Definition new_crawler (max_urls max_depth : Z) : WebCrawler :=
  mkWebCrawler max_urls max_depth CStats.zero new_indexer.

(** One turn of the loop over [term_freq.items()] of
    [WebCrawler.process_document]: the index and [unique_terms]. *)
Definition crawler_record_term (doc_id : Z) (acc : Indexer * Z)
  (tfq : string * Z) : Indexer * Z :=
  let '(ix, unique) := acc in
  let '(term, freq) := tfq in
  let '(terms', next', unique', term_id) :=
    match Dict.get (terms ix) term with
    | Some term_id => (terms ix, next_term_id ix, unique, term_id)
    | None =>
        (Dict.set (terms ix) term (next_term_id ix),
         next_term_id ix + 1, unique + 1, next_term_id ix)
    end in
  (mkIndexer (documents ix) (documents_inv ix) terms' (terms_inv ix)
     (set_posting (postings ix) term_id doc_id (mkPosting freq None None None))
     (doc_lengths ix) (next_doc_id ix) next'
     (total_docs ix) (total_terms ix) (stats ix),
   unique').

(** [WebCrawler.process_document] *)
Definition process_document (c : WebCrawler) (url text_content : string)
  : WebCrawler :=
  let ix := indexer c in
  let st := cstats c in
  let doc_id := next_doc_id ix in
  let ix1 :=
    mkIndexer (Dict.set (documents ix) url doc_id) (documents_inv ix)
              (terms ix) (terms_inv ix) (postings ix) (doc_lengths ix)
              (doc_id + 1) (next_term_id ix)
              (total_docs ix) (total_terms ix) (stats ix) in
  let tokens := splitchars text_content in
  let '((total, stops), term_freq) :=
    fold_left crawler_token tokens
      ((CStats.total_tokens st, CStats.stop_words_matched st), []) in
  let '(ix2, unique) :=
    fold_left (crawler_record_term doc_id) term_freq
      (ix1, CStats.unique_terms st) in
  mkWebCrawler (max_urls c) (max_depth c)
    (CStats.mk (CStats.documents_processed st + 1) total unique stops
               (CStats.urls_crawled st) (CStats.urls_in_frontier st))
    ix2.

Definition with_indexer (c : WebCrawler) (ix : Indexer) : WebCrawler :=
  mkWebCrawler (max_urls c) (max_depth c) (cstats c) ix.

(** [WebCrawler.calculate_tf_idf]: [N] is [documents_processed]. *)
Definition crawler_calculate_tf_idf (c : WebCrawler) : M WebCrawler :=
  let N := CStats.documents_processed (cstats c) in
  pt <- score_postings N (postings (indexer c)) ;;
  ret (with_indexer c (with_postings (indexer c) pt)).

(** [WebCrawler.save_index]: the totals, the document lengths, then
    [Indexer.save_index]. *)
Definition crawler_save_index (c : WebCrawler) : M (WebCrawler * Files) :=
  let ix := indexer c in
  let ix1 :=
    with_counters (next_doc_id ix) (next_term_id ix)
      (CStats.documents_processed (cstats c))
      (CStats.unique_terms (cstats c)) ix in
  ix2 <- calculate_document_lengths ix1 ;;
  ret (with_indexer c ix2, save_index ix2).

(** What [crawl] does once its loop has ended. *)
Definition crawl_finish (c : WebCrawler) : M (WebCrawler * Files) :=
  c' <- crawler_calculate_tf_idf c ;;
  crawler_save_index c'.

(* ---------------------------------------------------------------- *)
(** *** The crawl loop *)

(** What the world answers when a URL is visited. *)
Inductive fetched : Type :=
| NoResponse                     (** [fetch_url] returned [None] *)
| ReadRaised                     (** reading or decoding raised *)
| Page (text_content : string)   (** the extracted text, *)
       (links : option (list string)).
                                 (** the links, [None] if
                                     [extract_links] raised *)

Inductive event : Type :=
| Interrupt                      (** [KeyboardInterrupt] *)
| Visit (r : fetched).

Inductive phase : Type := Crawling | Completed | Aborted.

Record crawl_state : Type := mkCrawl {
  url_manager : URLManager.t;
  crawler : WebCrawler;
  status : phase
}.

Variable normalize_url : string -> string.

Definition with_cstats (c : WebCrawler) (s : CStats.t) : WebCrawler :=
  mkWebCrawler (max_urls c) (max_depth c) s (indexer c).

Definition set_urls_in_frontier (c : WebCrawler) (n : Z) : WebCrawler :=
  let s := cstats c in
  with_cstats c
    (CStats.mk (CStats.documents_processed s) (CStats.total_tokens s)
               (CStats.unique_terms s) (CStats.stop_words_matched s)
               (CStats.urls_crawled s) n).

Definition count_crawled (c : WebCrawler) : WebCrawler :=
  let s := cstats c in
  with_cstats c
    (CStats.mk (CStats.documents_processed s) (CStats.total_tokens s)
               (CStats.unique_terms s) (CStats.stop_words_matched s)
               (CStats.urls_crawled s + 1) (CStats.urls_in_frontier s)).

(** One turn of [for link in links]. *)
Definition push_link (depth : Z) (acc : URLManager.t * WebCrawler)
  (link : string) : URLManager.t * WebCrawler :=
  let '(m, c) := acc in
  if CStats.urls_in_frontier (cstats c) <? max_urls c then
    let m' := URLManager.add_url normalize_url m link (depth + 1) in
    (m', set_urls_in_frontier c (URLManager.get_queue_size m'))
  else acc.

(** [crawl] up to its loop: the frontier holds the start URL. *)
Definition crawl_start (c : WebCrawler) (start_url : string) : crawl_state :=
  mkCrawl (URLManager.add_url normalize_url
             (URLManager.new (max_urls c)) start_url 0)
          c Crawling.

(** One turn of the [while] loop, given what the world does in it:
    the test of [is_empty], which ends the loop, then the pop and the
    body. *)
Definition crawl_step (s : crawl_state) (ev : event) : crawl_state :=
  match status s with
  | Crawling =>
      if URLManager.is_empty (url_manager s)
      then mkCrawl (url_manager s) (crawler s) Completed
      else
      match URLManager.get_next_url (url_manager s) with
      | None => mkCrawl (url_manager s) (crawler s) Completed
      | Some ((url, depth), m) =>
          match ev with
          | Interrupt => mkCrawl (url_manager s) (crawler s) Aborted
          | Visit r =>
              let c := crawler s in
              if max_depth c <? depth then mkCrawl m c Crawling
              else
                match r with
                | NoResponse | ReadRaised => mkCrawl m c Crawling
                | Page text_content links =>
                    let c1 := process_document c url text_content in
                    let pushed :=
                      if CStats.urls_crawled (cstats c1) <? max_urls c1 then
                        match links with
                        | Some ls =>
                            Some (fold_left (push_link depth) ls (m, c1))
                        | None => None
                        end
                      else Some (m, c1) in
                    match pushed with
                    | None => mkCrawl m c1 Crawling
                    | Some (m2, c2) =>
                        let c3 := count_crawled c2 in
                        if max_urls c3 <=? CStats.urls_crawled (cstats c3)
                        then mkCrawl m2 c3 Completed
                        else mkCrawl m2 c3 Crawling
                    end
                end
          end
      end
  | _ => s
  end.

(** The loop along a sequence of events. *)
Definition crawl_run (s : crawl_state) (evs : list event) : crawl_state :=
  fold_left crawl_step evs s.

End Crawler.

(* ------------------------------------------------------------------ *)
(** ** What the proofs ask of floats *)

(** A character that can stand anywhere in a field of a saved line. *)
Definition plain_char (c : ascii) : bool :=
  negb (Chars.is_space c) && negb (Ascii.eqb c comma).

Class PyFloatLaws `{PyFloat} : Prop := {
  (** [0 > 0] is false and [1.0 > 0] is true *)
  zero_not_positive : fgt0 (float_of_int 0) = false;
  one_positive : fgt0 (float_of_int 1) = true;
  (** the quotient of two positive ints is positive, [0 / d] is not *)
  quotient_positive :
    forall n d, 0 < n -> 0 < d -> fgt0 (int_truediv n d) = true;
  zero_quotient : forall d, 0 < d -> fgt0 (int_truediv 0 d) = false;
  (** [n / n] is [1.0] and [math.log(1.0)] is [0.0] *)
  ln_one : forall n, 0 < n -> fln (int_truediv n n) = float_of_int 0;
  (** the [.6f] conversion uses no comma and no blank, whatever the
      locale, *)
  fmt6_plain : forall x, Str.forallb plain_char (fmt6 x) = true;
  (** [float()] reads it back, *)
  fmt6_readable : forall x, Builtins.float_syntax (fmt6 x) = true;
  (** and what is read back is written the same way. *)
  fmt6_canonical : forall x, fmt6 (float_value (fmt6 x)) = fmt6 x
}.

(* ------------------------------------------------------------------ *)
(** ** An interpretation of floats over the reals

    Exact arithmetic on [R]; the [.6f] conversion rounds to the nearest
    millionth and [float()] reads plain decimals. *)

Module RealFloat.

Definition digit_char (d : N) : ascii := ascii_of_N (48 + d).

Definition six_digits (r : N) : string :=
  (String (digit_char (r / 100000 mod 10))
  (String (digit_char (r / 10000 mod 10))
  (String (digit_char (r / 1000 mod 10))
  (String (digit_char (r / 100 mod 10))
  (String (digit_char (r / 10 mod 10))
  (String (digit_char (r mod 10)) EmptyString)))))).

Definition digit_val (c : ascii) : N := (Chars.code c - 48)%N.

Fixpoint digits_val_from (acc : N) (s : string) : N :=
  match s with
  | EmptyString => acc
  | String c s' => digits_val_from (acc * 10 + digit_val c)%N s'
  end.

Definition digits_val (s : string) : N := digits_val_from 0%N s.

Definition nat_val (s : string) : N :=
  match NilEmpty.uint_of_string (Builtins.remove_underscores s) with
  | Some d => N.of_uint d
  | None => 0%N
  end.

Definition round6 (x : R) : Z := up (x * 1000000 - / 2).

(** The text of a number of millionths, sign apart. *)
Definition body (a : N) : string :=
  digits_of (a / 1000000) ++ String "."%char (six_digits (a mod 1000000)).

Definition format6 (x : R) : string :=
  (if round6 x <? 0 then "-" else EmptyString) ++ body (Z.abs_N (round6 x)).

Definition magnitude (body : string) : R :=
  match Str.split "."%char body with
  | [i] => IZR (Z.of_N (nat_val i))
  | [i; f] =>
      (IZR (Z.of_N (nat_val i))
       + IZR (Z.of_N (digits_val f)) / 10 ^ String.length f)%R
  | _ => 0%R
  end.

Definition value (s : string) : R :=
  let t := Str.strip s in
  let m := magnitude (Builtins.drop_sign t) in
  if Builtins.is_negative t then (- m)%R else m.

Definition positive (x : R) : bool :=
  if Rlt_dec 0 x then true else false.

Definition instance : PyFloat :=
  {| float := R;
     float_of_int := IZR;
     int_truediv := fun n d => (IZR n / IZR d)%R;
     fadd := Rplus;
     fmul := Rmult;
     fsqrt := sqrt;
     fln := ln;
     fgt0 := positive;
     fmt6 := format6;
     float_value := value |}.

End RealFloat.

(* ================================================================== *)
(** * More of the sources *)

(* ------------------------------------------------------------------ *)
(** ** [utils.py]: the scoring helpers *)

Section ScoringHelpers.
Context `{PyFloat}.

(** [compute_tf(term_freq)] *)
Definition compute_tf (term_freq : Z) : Z := term_freq.

(** [compute_idf(N, df)]: the int [0] when [df == 0], else
    [math.log(N / df)]. *)
Definition compute_idf (N df_ : Z) : M float :=
  if df_ =? 0 then ret (float_of_int 0)
  else q <- truediv N df_ ;; math_log q.

(** [compute_tf_idf(tf, idf)] on an int [tf] and a float [idf] *)
Definition compute_tf_idf (tf_ : Z) (idf_ : float) : float :=
  fmul (float_of_int tf_) idf_.

End ScoringHelpers.

(* ------------------------------------------------------------------ *)
(** ** [utils.py] and [webcrawler.py]: which URLs are followed *)

Module Url.

(** [s.startswith(p)] *)
Fixpoint startswith (s p : string) {struct p} : bool :=
  match p, s with
  | EmptyString, _ => true
  | String a p', String b s' => Ascii.eqb a b && startswith s' p'
  | String _ _, EmptyString => false
  end.

(** [s.endswith(suffix)] *)
Definition endswith (s suffix : string) : bool :=
  startswith (Str.rev s) (Str.rev suffix).

(** [skip_extensions] of [should_skip_url] *)
Definition skip_extensions : list string :=
  [".pdf"; ".jpg"; ".jpeg"; ".png"; ".gif"; ".bmp"; ".tiff";
   ".mp3"; ".mp4"; ".avi"; ".mov"; ".wmv";
   ".zip"; ".tar"; ".gz"; ".rar"; ".7z";
   ".exe"; ".dmg"; ".msi"; ".iso";
   ".doc"; ".docx"; ".xls"; ".xlsx"; ".ppt"; ".pptx"].

Definition skip_prefixes : list string :=
  ["#"; "javascript:"; "mailto:"; "tel:"; "ftp:"].

(** [should_skip_url(url)] of [utils.py] *)
Definition should_skip_url (url : string) : bool :=
  let url_lower := Str.lower url in
  if existsb (startswith url_lower) skip_prefixes then true
  else if existsb (endswith url_lower) skip_extensions then true
  else false.

(** [skip_extensions] of [WebCrawler.is_valid_url] *)
Definition crawler_skip_extensions : list string :=
  [".pdf"; ".jpg"; ".jpeg"; ".png"; ".gif"; ".mp4";
   ".mp3"; ".zip"; ".tar"; ".gz"; ".exe"; ".dmg"].

Section Validity.
(** [urllib.parse.urlparse(url).scheme] *)
Variable scheme_of : string -> string.

(** [WebCrawler.is_valid_url(url)] *)
Definition is_valid_url (url : string) : bool :=
  if negb (Str.mem (scheme_of url) ["http"; "https"]) then false
  else if existsb (endswith (Str.lower url)) crawler_skip_extensions
       then false
  else true.
End Validity.

End Url.

(* ------------------------------------------------------------------ *)
(** ** [utils.py] and [html_parser.py]: cleaning extracted text *)

Module Clean.

(** The class [\w] of [re] on one character: letters, digits and the
    underscore, where letters and digits are those of [str.isalnum]:
    beside the ASCII ones, the ordinal indicators 0xAA and 0xBA, the
    superscripts 0xB2, 0xB3 and 0xB9, the micro sign 0xB5, the
    fractions 0xBC-0xBE and the accented letters 0xC0-0xFF except the
    multiplication and division signs. *)
Definition is_word (c : ascii) : bool :=
  Chars.is_alnum c || Ascii.eqb c "_"
  || (Chars.code c =? 170)%N || (Chars.code c =? 186)%N
  || (Chars.code c =? 178)%N || (Chars.code c =? 179)%N
  || (Chars.code c =? 185)%N || (Chars.code c =? 181)%N
  || Chars.between 188 190 c
  || (Chars.between 192 255 c
      && negb (Chars.code c =? 215)%N && negb (Chars.code c =? 247)%N).

(** [re.sub(r'\s+', ' ', text)]: each maximal run of white space
    becomes one space.  [in_run] tells that the previous character was
    white space. *)
Fixpoint collapse_from (in_run : bool) (s : string) : string :=
  match s with
  | EmptyString => EmptyString
  | String c s' =>
      if Chars.is_space c then
        if in_run then collapse_from true s'
        else String " " (collapse_from true s')
      else String c (collapse_from false s')
  end.

Definition collapse_whitespace (text : string) : string :=
  collapse_from false text.

(** The characters the second substitution keeps: word characters,
    white space and the punctuation [.,!?;:-'()] with the double
    quote. *)
Definition kept (c : ascii) : bool :=
  is_word c || Chars.is_space c
  || existsb (Ascii.eqb c)
       [","; "."; "!"; "?"; ";"; ":"; "-"; "'"; "034"; "("; ")"]%char.

(** The second substitution: every other character becomes a space. *)
Definition replace_special (text : string) : string :=
  Str.map (fun c => if kept c then c else " "%char) text.

(** White space that is the plain space, or no white space at all. *)
Definition blank_is_space (c : ascii) : bool :=
  negb (Chars.is_space c) || Ascii.eqb c " ".

(** [clean_html_text(text)] of [utils.py] *)
Definition clean_html_text (text : string) : string :=
  Str.strip (replace_special (collapse_whitespace text)).

(** [clean_text(text)] of [html_parser.py], the same three steps *)
Definition clean_text (text : string) : string :=
  Str.strip (replace_special (collapse_whitespace text)).

End Clean.

(* ------------------------------------------------------------------ *)
(** ** [utils.py]: [format_time] *)

(** The conversion [:02d] of an int: at least two characters, a zero
    in front of a single digit. *)
Definition pad2 (z : Z) : string :=
  let s := Builtins.str_of_int z in
  if (String.length s <? 2)%nat then String "0" s else s.

(** [format_time(seconds)] on an int: [divmod] twice, then the three
    fields. *)
Definition format_time (seconds : Z) : string :=
  let hours := seconds / 3600 in
  let remainder := seconds mod 3600 in
  let minutes := remainder / 60 in
  let seconds := remainder mod 60 in
  pad2 hours ++ ":" ++ pad2 minutes ++ ":" ++ pad2 seconds.

(* ------------------------------------------------------------------ *)
(** ** [stop_words.py]: the set of stop words as it changes *)

Module StopWords.

(** The module-level set [STOP_WORDS] at some moment: its members, no
    word twice.  The order is of no account: the code tests membership
    and sorts. *)
Definition t : Type := list string.

(** The set as the module builds it, from the literal with its
    repeated words. *)
Definition initial : t := List.nodup String.string_dec STOP_WORDS.

(** [is_stop_word(word)] on the set as it is *)
Definition is_stop_word (S : t) (word : string) : bool :=
  Str.mem (Str.lower word) S.

(** [STOP_WORDS.add(w)] *)
Definition add (S : t) (w : string) : t :=
  if Str.mem w S then S else w :: S.

(** [add_stop_word(word)] *)
Definition add_stop_word (S : t) (word : string) : t :=
  add S (Str.lower word).

(** [remove_stop_word(word)]: [STOP_WORDS.discard(word.lower())] *)
Definition remove_stop_word (S : t) (word : string) : t :=
  List.filter (fun w => negb (String.eqb w (Str.lower word))) S.

(** [sorted(...)] on strings: insertion in code-point order *)
Fixpoint insert_sorted (w : string) (l : list string) : list string :=
  match l with
  | [] => [w]
  | x :: l' => if String.leb w x then w :: l else x :: insert_sorted w l'
  end.

Definition sorted (l : list string) : list string :=
  fold_right insert_sorted [] l.

(** [get_stop_words()] *)
Definition get_stop_words (S : t) : list string := sorted S.

(** [save_stop_words(file_path)] when the file can be written: its
    contents. *)
Definition save_stop_words (S : t) : string := unlines (sorted S).

(** One turn of the loop of [load_custom_stop_words]. *)
Definition load_line (S : t) (line : string) : t :=
  let word := Str.lower (Str.strip line) in
  if Str.is_empty word then S else add S word.

(** [load_custom_stop_words(file_path)]: the set afterwards, and [True]
    or [False]. *)
Definition load_custom_stop_words (S : t) (file : option string) : t * bool :=
  match file with
  | None => (S, false)
  | Some contents => (fold_left load_line (readlines contents) S, true)
  end.

End StopWords.

(* ------------------------------------------------------------------ *)
(** ** [indexer.py]: building the index from a corpus *)

Section Build.
Context `{PyFloat} `{Stemmer}.

(** What [build_index] finds at [corpus_path]: nothing, or the
    document files in the order of the walk, each with its path and
    its contents, [None] when opening or reading it raises. *)
Definition corpus : Type := option (list (string * option string)).

(** One turn of the loop over [doc_files]: a file that cannot be read
    is reported and the index is as before. *)
Definition read_document (ix : Indexer) (doc_file : string * option string)
  : Indexer :=
  match snd doc_file with
  | Some content => fst (process_document_from_text ix content (fst doc_file))
  | None => ix
  end.

(** [Indexer.build_index]: the index afterwards, and [True] or
    [False]. *)
Definition build_index (found : corpus) (ix : Indexer) : M (Indexer * bool) :=
  match found with
  | None => ret (ix, false)
  | Some doc_files =>
      let ix1 := fold_left read_document doc_files ix in
      ix2 <- calculate_tf_idf ix1 ;;
      ix3 <- calculate_document_lengths ix2 ;;
      ret (with_counters (next_doc_id ix3) (next_term_id ix3)
             (Z.of_nat (List.length (documents ix3)))
             (Z.of_nat (List.length (terms ix3))) ix3,
           true)
  end.

End Build.

(* ------------------------------------------------------------------ *)
(** ** [html_parser.py]: the text of a page *)

Module Html.

(** What [HTMLParser.feed] tells the handlers, in order: a start tag,
    an end tag, or a piece of text between tags. *)
Inductive event : Type :=
| StartTag (tag : string)
| EndTag (tag : string)
| Data (data : string).

(** [HTMLTextExtractor]: the pieces of text collected so far and
    [current_tag]. *)
Record extractor : Type := mk {
  text : list string;
  current_tag : option string
}.

(** [HTMLTextExtractor.__init__] *)
Definition new : extractor := mk [] None.

Definition ignore_tags : list string :=
  ["script"; "style"; "head"; "meta"; "link"].

Definition spaced_tags : list string :=
  ["p"; "div"; "br"; "li"; "h1"; "h2"; "h3"; "h4"; "h5"; "h6"].

(** [self.current_tag not in self.ignore_tags]; [None] is not in the
    list. *)
Definition ignored (current_tag : option string) : bool :=
  match current_tag with
  | Some tag => Str.mem tag ignore_tags
  | None => false
  end.

Definition handle_starttag (x : extractor) (tag : string) : extractor :=
  mk (text x) (Some (Str.lower tag)).

Definition handle_endtag (x : extractor) (tag : string) : extractor :=
  mk (if Str.mem (Str.lower tag) spaced_tags
      then (text x ++ [" "])%list else text x)
     None.

Definition handle_data (x : extractor) (data : string) : extractor :=
  if ignored (current_tag x) then x
  else
    let cleaned := Str.strip data in
    if Str.is_empty cleaned then x
    else mk (text x ++ [cleaned])%list (current_tag x).

Definition handle (x : extractor) (ev : event) : extractor :=
  match ev with
  | StartTag tag => handle_starttag x tag
  | EndTag tag => handle_endtag x tag
  | Data data => handle_data x data
  end.

(** [get_text] *)
Definition get_text (x : extractor) : string :=
  String.concat " " (text x).

(** [extract_text_from_html] when the parser does not raise, on the
    events of the page. *)
Definition extract_text_from_html (events : list event) : string :=
  Clean.clean_text (get_text (fold_left handle events new)).

End Html.

(* ================================================================== *)
(** * The vocabulary of the statements *)

Ltac ascii_cases c := destruct c as [[|] [|] [|] [|] [|] [|] [|] [|]].

(** A candidate token: a non-empty run of ASCII letters and digits. *)
Definition token_ok (t : string) : Prop :=
  t <> EmptyString /\ Str.forallb Chars.is_alnum t = true.

(** How many of the tokens pass a test. *)
Definition count_if (p : string -> bool) (tokens : list string) : Z :=
  Z.of_nat (List.length (List.filter p tokens)).

(** The token is a stop word, whatever its length. *)
Definition stop_token (token : string) : bool :=
  is_stop_word (normalize_token token).

(** The token is short and is not a stop word. *)
Definition short_token (token : string) : bool :=
  negb (is_stop_word (normalize_token token))
  && is_short (normalize_token token).

(** The candidate tokens of a list of documents, each a text and its
    path. *)
Definition tokens_of (docs : list (string * string)) : list string :=
  List.flat_map (fun d => splitchars (fst d)) docs.

(** What the spec asks of a counter restored from a table of ids: 1 for
    the empty table, otherwise one more than the greatest id, hence
    above every loaded id. *)
Definition restored_counter (ids : list Z) (n : Z) : Prop :=
  (ids = [] /\ n = 1)
  \/ (In (n - 1) ids /\ Forall (fun i => i < n) ids).

(** *** Characters of a saved line *)

Definition not_comma (c : ascii) : bool := negb (Ascii.eqb c comma).

Definition not_newline (c : ascii) : bool :=
  negb (Ascii.eqb c nl) && negb (Ascii.eqb c cr).

Definition starts_with_space (s : string) : bool :=
  match s with
  | EmptyString => false
  | String c _ => Chars.is_space c
  end.

Fixpoint ends_with_space (s : string) : bool :=
  match s with
  | EmptyString => false
  | String c EmptyString => Chars.is_space c
  | String _ s' => ends_with_space s'
  end.

(** A line that reads back as one line. *)
Definition line_ok (l : string) : Prop := Str.forallb not_newline l = true.

(** A document path or a term that a line can carry: no comma, no
    line break, no white space in front. *)
Definition key_ok (s : string) : bool :=
  Str.forallb (fun c => not_comma c && not_newline c) s
  && negb (starts_with_space s).

(** A field made of plain characters only. *)
Definition plain (f : string) : Prop := Str.forallb plain_char f = true.

(** The line of an entry of the documents or of the terms table. *)
Definition key_line (e : string * Z) : string :=
  join_fields [fst e; Builtins.str_of_int (snd e)].

Definition keys_ok (d : Dict.t string Z) : Prop :=
  Forall (fun e => key_ok (fst e) = true) d.

Section Statements.
Context `{PyFloat}.

(** What the spec asks of the postings of one term: [idf = ln(N/df)]
    and, on each posting, [tf_idf = tf * idf], with [idf], [tf_idf]
    and [df] stored. *)
Definition scored (N : Z) (doc_postings : Dict.t Z posting)
  : Dict.t Z posting :=
  let df_ := Z.of_nat (List.length doc_postings) in
  let idf_ := fln (int_truediv N df_) in
  List.map (fun e : Z * posting =>
              (fst e,
               {| tf := tf (snd e);
                  tf_idf := Some (fmul (float_of_int (tf (snd e))) idf_);
                  idf := Some idf_;
                  df := Some df_ |}))
           doc_postings.

(** No term of the table has a posting. *)
Definition no_postings (pt : Dict.t Z (Dict.t Z posting)) : Prop :=
  Forall (fun e => snd e = []) pt.

(** The file during which a load fails. *)
Inductive stage : Type := AtDocuments | AtTerms | AtPostings | AtDocLengths.

Definition failing_stage (files : Files) (ix : Indexer) : option stage :=
  match load_documents files ix with
  | (_, inl _) => Some AtDocuments
  | (ix1, inr _) =>
      match load_terms files ix1 with
      | (_, inl _) => Some AtTerms
      | (ix2, inr _) =>
          match load_postings files ix2 with
          | (_, inl _) => Some AtPostings
          | (ix3, inr _) =>
              match load_doc_lengths files ix3 with
              | (_, inl _) => Some AtDocLengths
              | (_, inr _) => None
              end
          end
      end
  end.

(** The id counters, the totals and the statistics. *)
Definition counters (ix : Indexer) : Z * Z * Z * Z * Stats :=
  (next_doc_id ix, next_term_id ix, total_docs ix, total_terms ix, stats ix).

(** The tables of the files that come after the failing one are as
    before. *)
Definition later_tables_kept (st : stage) (ix ix' : Indexer) : Prop :=
  match st with
  | AtDocuments =>
      terms ix' = terms ix /\ terms_inv ix' = terms_inv ix
      /\ postings ix' = postings ix /\ doc_lengths ix' = doc_lengths ix
  | AtTerms => postings ix' = postings ix /\ doc_lengths ix' = doc_lengths ix
  | AtPostings => doc_lengths ix' = doc_lengths ix
  | AtDocLengths => True
  end.

(** What each block of [load_index] leaves alone. *)
Definition documents_frame (ix : Indexer) :=
  (terms ix, terms_inv ix, postings ix, doc_lengths ix, counters ix).

Definition terms_frame (ix : Indexer) :=
  (documents ix, documents_inv ix, postings ix, doc_lengths ix, counters ix).

Definition postings_frame (ix : Indexer) :=
  (documents ix, documents_inv ix, terms ix, terms_inv ix, doc_lengths ix,
   counters ix).

Definition doc_lengths_frame (ix : Indexer) :=
  (documents ix, documents_inv ix, terms ix, terms_inv ix, postings ix,
   counters ix).

(** What reading one line of each file does to the index. *)
Definition set_document (e : string * Z) (ix : Indexer) : Indexer :=
  with_documents (Dict.set (documents ix) (fst e) (snd e))
                 (Dict.set (documents_inv ix) (snd e) (fst e)) ix.

Definition set_term (e : string * Z) (ix : Indexer) : Indexer :=
  with_terms (Dict.set (terms ix) (fst e) (snd e))
             (Dict.set (terms_inv ix) (snd e) (fst e)) ix.

Definition length_line (e : Z * float) : string :=
  join_fields [Builtins.str_of_int (fst e); fmt6 (snd e)].

(** A length as it is read back. *)
Definition reread (e : Z * float) : Z * float :=
  (fst e, float_value (fmt6 (snd e))).

Definition set_length (e : Z * float) (ix : Indexer) : Indexer :=
  with_doc_lengths ix
    (Dict.set (doc_lengths ix) (fst (reread e)) (snd (reread e))).

(** A posting as it is read back. *)
Definition reload (p : posting) : posting :=
  {| tf := tf p;
     tf_idf := Some (float_value (fmt6_or_zero (tf_idf p)));
     idf := Some (float_value (fmt6_or_zero (idf p)));
     df := Some (int_or_zero (df p)) |}.

Definition reload_entry (e : Z * posting) : Z * posting :=
  (fst e, reload (snd e)).

Definition posting_fields (term_id : Z) (e : Z * posting) : list string :=
  [Builtins.str_of_int term_id; Builtins.str_of_int (fst e);
   fmt6_or_zero (tf_idf (snd e)); Builtins.str_of_int (tf (snd e));
   fmt6_or_zero (idf (snd e));
   Builtins.str_of_int (int_or_zero (df (snd e)))].

(** The flat list of postings, in the order of the lines. *)
Definition flatten (pt : Dict.t Z (Dict.t Z posting))
  : list (Z * (Z * posting)) :=
  List.flat_map (fun e => List.map (fun dp => (fst e, dp)) (snd e)) pt.

Definition add_posting (pt : Dict.t Z (Dict.t Z posting))
  (e : Z * (Z * posting)) : Dict.t Z (Dict.t Z posting) :=
  set_posting pt (fst e) (fst (snd e)) (reload (snd (snd e))).

Definition set_posting_entry (e : Z * (Z * posting)) (ix : Indexer)
  : Indexer :=
  with_postings ix (add_posting (postings ix) e).

(** The table that the lines of [pt] give back: the terms that have
    postings, each posting as it is read back. *)
Definition reloaded (pt : Dict.t Z (Dict.t Z posting))
  : Dict.t Z (Dict.t Z posting) :=
  List.flat_map (fun e => match snd e with
                          | [] => []
                          | dp => [(fst e, List.map reload_entry dp)]
                          end) pt.

(** What a Python index always satisfies, no key twice in a dict, and
    what the line format asks of the document paths and terms. *)
Record storable (ix : Indexer) : Prop := {
  documents_wf : Dict.wf (documents ix);
  documents_keys_ok : keys_ok (documents ix);
  terms_wf : Dict.wf (terms ix);
  terms_keys_ok : keys_ok (terms ix);
  postings_wf : Dict.wf (postings ix);
  postings_inner_wf : Forall (fun e => Dict.wf (snd e)) (postings ix);
  doc_lengths_wf : Dict.wf (doc_lengths ix)
}.

Context `{Stemmer}.

(** The documents of a session, each a text and its path, indexed one
    after the other. *)
Definition index_texts (docs : list (string * string)) (ix : Indexer)
  : Indexer :=
  fold_left (fun ix d => fst (process_document_from_text ix (fst d) (snd d)))
            docs ix.

(** What the loop over the terms of [WebCrawler.process_document]
    leaves alone. *)
Record untouched (ix ix' : Indexer) : Prop := {
  same_documents : documents ix' = documents ix;
  same_documents_inv : documents_inv ix' = documents_inv ix;
  same_doc_lengths : doc_lengths ix' = doc_lengths ix;
  same_next_doc_id : next_doc_id ix' = next_doc_id ix
}.

(** The number of processed URLs, [stats['urls_crawled']]. *)
Definition processed (s : crawl_state) : Z :=
  CStats.urls_crawled (cstats (crawler s)).

(** What holds each time the loop is about to test its condition. *)
Definition loop_invariant (mu : Z) (s : crawl_state) : Prop :=
  max_urls (crawler s) = mu
  /\ processed s <= mu
  /\ (status s = Crawling -> URLManager.pending (url_manager s) <> [] ->
      processed s < mu).

(** The loop is over, or its next test ends it. *)
Definition halted (s : crawl_state) : Prop :=
  status s <> Crawling \/ URLManager.pending (url_manager s) = [].

(** What every crawl keeps true of the crawler and its index. *)
Definition crawled (c : WebCrawler) : Prop :=
  0 <= CStats.documents_processed (cstats c)
  /\ (CStats.documents_processed (cstats c) = 0 -> postings (indexer c) = [])
  /\ documents_inv (indexer c) = []
  /\ doc_lengths (indexer c) = [].

End Statements.

(* ================================================================== *)
(** * More vocabulary *)

(** The tokens that [float()] reads: all digits, or one of the three
    words it accepts. *)
Definition reads_as_float (t : string) : Prop :=
  (t <> EmptyString /\ Str.forallb Chars.is_digit t = true)
  \/ In (Str.lower t) ["inf"; "infinity"; "nan"].

(** A stop word that a line of a file can carry and that reading
    gives back: not empty, on one line, no white space around it,
    in lower case. *)
Definition stop_word_ok (w : string) : bool :=
  negb (Str.is_empty w) && Str.forallb not_newline w
  && String.eqb (Str.strip w) w && String.eqb (Str.lower w) w.

(** *** Indexes built by the indexer *)

(** The ids [1 .. n], in the order they are given out. *)
Definition ids_to (n : nat) : list Z := List.map Z.of_nat (seq 1 n).

Definition swap {A B : Type} (e : A * B) : B * A := (snd e, fst e).

(** The sum of [f] over the values of a dict. *)
Definition sum_values {K V : Type} (f : V -> Z) (d : Dict.t K V) : Z :=
  fold_right (fun e acc => f (snd e) + acc) 0 d.

(** A token that passes the five tests of the token loop. *)
Definition kept_token (token : string) : bool :=
  let token_lower := normalize_token token in
  negb (Str.is_empty token_lower)
  && negb (is_stop_word token_lower)
  && negb (starts_with_punctuation token_lower)
  && negb (is_short token_lower)
  && negb (is_number token_lower).

(** The tokens the statistics count as processed and not as
    rejected. *)
Definition indexed_tokens (st : Stats) : Z :=
  tokens_processed st - stop_words_matched st - short_words_ignored st
  - numbers_ignored st - punctuation_words_ignored st.

Section IndexVocabulary.
Context `{PyFloat} `{Stemmer}.

(** The terms of a text with their repetitions: the stems of the
    tokens that pass the tests, in the order of the text. *)
Definition stems_of (text : string) : list string :=
  List.map (fun token => stem_or_self (normalize_token token))
           (List.filter kept_token (splitchars text)).

(** How often a term occurs among the stems. *)
Definition occurrences (term : string) (stems : list string) : Z :=
  Z.of_nat (count_occ String.string_dec stems term).

(** [postings[term_id][doc_id]], if it is there. *)
Definition posting_in (pt : Dict.t Z (Dict.t Z posting))
  (term_id doc_id : Z) : option posting :=
  match Dict.get pt term_id with
  | Some doc_postings => Dict.get doc_postings doc_id
  | None => None
  end.

Definition posting_of (ix : Indexer) (term_id doc_id : Z) : option posting :=
  posting_in (postings ix) term_id doc_id.

(** The sum of the [tf] of all postings. *)
Definition total_tf (ix : Indexer) : Z :=
  sum_values (sum_values tf) (postings ix).

(** The term tables of an index that only the indexer has written:
    the ids are [1, 2, ...] in the order of arrival and [terms_inv] is
    [terms] turned around. *)
Record terms_consistent (ix : Indexer) : Prop := {
  term_ids : Dict.values (terms ix) = ids_to (List.length (terms ix));
  term_counter : next_term_id ix = Z.of_nat (List.length (terms ix)) + 1;
  terms_nodup : Dict.wf (terms ix);
  terms_inverse : terms_inv ix = List.map swap (terms ix)
}.

(** The postings refer to term ids that were given out and to
    document ids below [bound]; no term is without a posting and every
    [tf] is at least 1. *)
Definition postings_within (ix : Indexer) (bound : Z) : Prop :=
  Dict.wf (postings ix)
  /\ Forall (fun e =>
               1 <= fst e < next_term_id ix
               /\ Dict.wf (snd e) /\ snd e <> []
               /\ Forall (fun dp => 1 <= fst dp < bound /\ 1 <= tf (snd dp))
                         (snd e))
            (postings ix).

(** The document tables of such an index. *)
Record documents_consistent (ix : Indexer) : Prop := {
  doc_ids :
    Dict.keys (documents_inv ix) = ids_to (List.length (documents_inv ix));
  doc_counter :
    next_doc_id ix = Z.of_nat (List.length (documents_inv ix)) + 1;
  documents_nodup : Dict.wf (documents ix);
  doc_paths :
    forall path id, Dict.get (documents ix) path = Some id ->
                    Dict.get (documents_inv ix) id = Some path;
  doc_paths_known :
    forall id path, Dict.get (documents_inv ix) id = Some path ->
                    exists id', Dict.get (documents ix) path = Some id'
}.

Record consistent (ix : Indexer) : Prop := {
  consistent_documents : documents_consistent ix;
  consistent_terms : terms_consistent ix;
  consistent_postings : postings_within ix (next_doc_id ix)
}.

(** While the terms of document [doc_id] are recorded: the postings of
    that document are those of the entries recorded so far. *)
Definition recorded (doc_id : Z) (done : Dict.t string Z) (ix : Indexer)
  : Prop :=
  (forall term freq, In (term, freq) done ->
     exists term_id,
       Dict.get (terms ix) term = Some term_id
       /\ posting_of ix term_id doc_id = Some (mkPosting freq None None None))
  /\ (forall term_id p, posting_of ix term_id doc_id = Some p ->
        exists term freq,
          In (term, freq) done
          /\ Dict.get (terms ix) term = Some term_id
          /\ p = mkPosting freq None None None).

End IndexVocabulary.

(** [term_freq[term]] on the [defaultdict(int)] *)
Definition freq_of (term_freq : Dict.t string Z) (term : string) : Z :=
  match Dict.get term_freq term with Some n => n | None => 0 end.

(** What the token loop keeps true of [term_freq]: every count is at
    least 1. *)
Definition counts_ok (term_freq : Dict.t string Z) : Prop :=
  Dict.wf term_freq /\ Forall (fun e => 1 <= snd e) term_freq.

Section IndexVocabulary2.
Context `{PyFloat} `{Stemmer}.

(** Every term has a posting. *)
Definition terms_posted (ix : Indexer) : Prop :=
  forall term term_id,
    Dict.get (terms ix) term = Some term_id ->
    exists doc_postings, Dict.get (postings ix) term_id = Some doc_postings.

(** The stems of all the documents of a session. *)
Definition all_stems (docs : list (string * string)) : list string :=
  List.flat_map (fun d => stems_of (fst d)) docs.

(** Two indexes with the same documents, terms, postings and id
    counters. *)
Definition same_tables (a b : Indexer) : Prop :=
  documents a = documents b /\ terms a = terms b
  /\ postings a = postings b
  /\ next_doc_id a = next_doc_id b /\ next_term_id a = next_term_id b.

End IndexVocabulary2.

Section CrawlVocabulary.
Context `{PyFloat} `{Stemmer}.

(** The statistics of the crawler say what its index holds. *)
Definition stats_agree (c : WebCrawler) : Prop :=
  next_doc_id (indexer c) = CStats.documents_processed (cstats c) + 1
  /\ CStats.unique_terms (cstats c)
     = Z.of_nat (List.length (terms (indexer c)))
  /\ next_term_id (indexer c) = CStats.unique_terms (cstats c) + 1
  /\ 0 <= CStats.urls_crawled (cstats c)
     <= CStats.documents_processed (cstats c).

(** The URLs waiting in the frontier. *)
Definition pending_urls (m : URLManager.t) : list string :=
  List.map fst (URLManager.pending m).

(** No URL waits twice, every waiting URL was seen, and the URLs of
    the documents were seen and wait no more; so far every processed
    page has made a document of its own. *)
Definition frontier_ok (s : crawl_state) : Prop :=
  NoDup (pending_urls (url_manager s))
  /\ incl (pending_urls (url_manager s)) (URLManager.seen (url_manager s))
  /\ (forall u, In u (Dict.keys (documents (indexer (crawler s)))) ->
        In u (URLManager.seen (url_manager s))
        /\ ~ In u (pending_urls (url_manager s)))
  /\ Z.of_nat (List.length (documents (indexer (crawler s))))
     = CStats.documents_processed (cstats (crawler s)).

End CrawlVocabulary.

Section ScoredVocabulary.
Context `{PyFloat}.

(** Every posting of the table carries a [tf_idf]. *)
Definition all_scored (pt : Dict.t Z (Dict.t Z posting)) : Prop :=
  Forall (fun e => Forall (fun dp => tf_idf (snd dp) <> None) (snd e)) pt.

(** The files of a corpus that could be read, as texts with their
    paths. *)
Definition readable (doc_files : list (string * option string))
  : list (string * string) :=
  List.flat_map (fun f => match snd f with
                          | Some content => [(content, fst f)]
                          | None => []
                          end) doc_files.

End ScoredVocabulary.

Section LoadVocabulary.
Context `{PyFloat}.

(** The six tables of an index. *)
Definition tables (ix : Indexer) :=
  (documents ix, documents_inv ix, terms ix, terms_inv ix, postings ix,
   doc_lengths ix).

(** The tables each block of [load_index] writes. *)
Definition documents_tables (ix : Indexer) := (documents ix, documents_inv ix).
Definition terms_tables (ix : Indexer) := (terms ix, terms_inv ix).

(** The id counters and the totals. *)
Definition id_counters (ix : Indexer) :=
  (next_doc_id ix, next_term_id ix, total_docs ix, total_terms ix).

End LoadVocabulary.

(** A stemmer whose stems fit on a line of [terms.dat]. *)
Definition clean_stems `{Stemmer} : Prop :=
  forall token, token_ok token ->
    key_ok (stem_or_self (normalize_token token)) = true.

(** A file that [load_index] cannot get through: it is missing, or one
    of its lines, stripped, does not split at the commas into the
    number of fields its block unpacks. *)
Definition unreadable (fields : nat) (file : option string) : Prop :=
  match file with
  | None => True
  | Some contents =>
      exists line,
        In line (readlines contents)
        /\ List.length (Str.split comma (Str.strip line)) <> fields
  end.

(** The pieces of text of a page that are not directly inside a tag
    the extractor ignores; [current_tag] is the tag opened last, if no
    tag was closed since. *)
Fixpoint visible_data (current_tag : option string) (events : list Html.event)
  : list string :=
  match events with
  | [] => []
  | Html.StartTag tag :: rest => visible_data (Some (Str.lower tag)) rest
  | Html.EndTag _ :: rest => visible_data None rest
  | Html.Data data :: rest =>
      if Html.ignored current_tag then visible_data current_tag rest
      else data :: visible_data current_tag rest
  end.

(** *** What a load has read when it stops *)

(** The dict left by assigning the entries, one after the other, to
    an empty dict. *)
Definition assigned {K V : Type} `{EqKey K} (entries : list (K * V))
  : Dict.t K V :=
  fold_left (fun d e => Dict.set d (fst e) (snd e)) entries [].

(** The entries of the lines that come before the first line that
    cannot be read; of all the lines, if each can be read. *)
Fixpoint entries_read {E : Type} (parse : string -> option E)
  (lines : list string) : list E :=
  match lines with
  | [] => []
  | line :: rest =>
      match parse line with
      | Some e => e :: entries_read parse rest
      | None => []
      end
  end.

(** The lines of a file; a missing file has none. *)
Definition lines_of (file : option string) : list string :=
  match file with
  | Some contents => readlines contents
  | None => []
  end.

(** A line of [documents.dat] or [terms.dat] that can be read: two
    fields, the second an int. *)
Definition key_entry (line : string) : option (string * Z) :=
  match Str.split comma (Str.strip line) with
  | [key; id] =>
      match Builtins.py_int id with
      | Some id => Some (key, id)
      | None => None
      end
  | _ => None
  end.

Section PartialLoad.
Context `{PyFloat}.

(** The postings table left by assigning the postings, one after the
    other, to an empty table. *)
Definition assigned_postings (entries : list (Z * (Z * posting)))
  : Dict.t Z (Dict.t Z posting) :=
  fold_left (fun pt e => set_posting pt (fst e) (fst (snd e)) (snd (snd e)))
            entries [].

(** A line of [postings.dat] that can be read: six fields, ints and
    floats as the format has them. *)
Definition posting_entry (line : string) : option (Z * (Z * posting)) :=
  match Str.split comma (Str.strip line) with
  | [term_id; doc_id; tf_idf_; tf_; idf_; df_] =>
      match Builtins.py_int term_id, Builtins.py_int doc_id,
            py_float tf_idf_, Builtins.py_int tf_, py_float idf_,
            Builtins.py_int df_ with
      | Some term_id, Some doc_id, Some tf_idf_, Some tf_, Some idf_,
        Some df_ =>
          Some (term_id,
                (doc_id, mkPosting tf_ (Some tf_idf_) (Some idf_) (Some df_)))
      | _, _, _, _, _, _ => None
      end
  | _ => None
  end.

(** A line of [doc_lengths.dat] that can be read: two fields, an int
    and a float. *)
Definition length_entry (line : string) : option (Z * float) :=
  match Str.split comma (Str.strip line) with
  | [doc_id; len] =>
      match Builtins.py_int doc_id, py_float len with
      | Some doc_id, Some len => Some (doc_id, len)
      | _, _ => None
      end
  | _ => None
  end.

(** What reading one line of [postings.dat] or of [doc_lengths.dat]
    does to the index. *)
Definition set_posting_read (e : Z * (Z * posting)) (ix : Indexer)
  : Indexer :=
  with_postings ix
    (set_posting (postings ix) (fst e) (fst (snd e)) (snd (snd e))).

Definition set_length_read (e : Z * float) (ix : Indexer) : Indexer :=
  with_doc_lengths ix (Dict.set (doc_lengths ix) (fst e) (snd e)).

(** The tables of a file hold what was read of it: the entries of its
    lines up to the first that cannot be read, and nothing else. *)
Definition documents_read (files : Files) (ix : Indexer) : Prop :=
  let entries := entries_read key_entry (lines_of (documents_dat files)) in
  documents ix = assigned entries
  /\ documents_inv ix = assigned (List.map swap entries).

Definition terms_read (files : Files) (ix : Indexer) : Prop :=
  let entries := entries_read key_entry (lines_of (terms_dat files)) in
  terms ix = assigned entries
  /\ terms_inv ix = assigned (List.map swap entries).

Definition postings_read (files : Files) (ix : Indexer) : Prop :=
  postings ix
  = assigned_postings
      (entries_read posting_entry (lines_of (postings_dat files))).

Definition doc_lengths_read (files : Files) (ix : Indexer) : Prop :=
  doc_lengths ix
  = assigned (entries_read length_entry (lines_of (doc_lengths_dat files))).

(** The tables of the failing file and of the files before it hold
    what was read. *)
Definition earlier_tables_read (st : stage) (files : Files) (ix : Indexer)
  : Prop :=
  match st with
  | AtDocuments => documents_read files ix
  | AtTerms => documents_read files ix /\ terms_read files ix
  | AtPostings =>
      documents_read files ix /\ terms_read files ix
      /\ postings_read files ix
  | AtDocLengths =>
      documents_read files ix /\ terms_read files ix
      /\ postings_read files ix /\ doc_lengths_read files ix
  end.

End PartialLoad.

(* ================================================================== *)
(** * Concrete indexes, files and crawls *)

Module Fixture.

#[local] Existing Instance RealFloat.instance.
#[local] Existing Instance SimpleStemmer.

(** URLs that are canonical already. *)
Definition same_url (u : string) : string := u.

Definition page1 : string := "http://site.test/page1".
Definition page2 : string := "http://site.test/page2".

(** A site of two pages: the first links to the second, the second to
    nothing. *)
Definition two_pages : list event :=
  [Visit (Page "Crawling spiders follow links between pages" (Some [page2]));
   Visit (Page "Spiders rank the indexed documents" (Some []))].

Definition two_page_crawl (max_urls : Z) : crawl_state :=
  crawl_run same_url (crawl_start same_url (new_crawler max_urls 5) page1)
            two_pages.

Definition no_stats : Stats := mkStats 0 0 0 0 0.

(** An index with one document whose path holds a comma, and one
    whose path starts with a blank. *)
Definition comma_index : Indexer :=
  mkIndexer [("http://site.test/a,b", 1)] [(1, "http://site.test/a,b")]
            [] [] [] [] 2 1 0 0 no_stats.

Definition blank_index : Indexer :=
  mkIndexer [(" page", 1)] [(1, " page")] [] [] [] [] 2 1 0 0 no_stats.

(** A scored index of two documents. *)
Definition small_index : Indexer :=
  mkIndexer [(page1, 1); (page2, 2)] [(1, page1); (2, page2)]
            [("spider", 1); ("crawl", 2)] [(1, "spider"); (2, "crawl")]
            [(1, [(1, mkPosting 1 (Some 0%R) (Some 0%R) (Some 2));
                  (2, mkPosting 1 (Some 0%R) (Some 0%R) (Some 2))]);
             (2, [(1, mkPosting 1 (Some (ln 2)) (Some (ln 2)) (Some 1))])]
            [(1, ln 2); (2, 1%R)] 3 3 2 2 no_stats.

(** An index from an earlier session, and a directory in which only
    [documents.dat] is there. *)
Definition old_index : Indexer :=
  mkIndexer [("old", 7)] [(7, "old")] [("term", 9)] [(9, "term")]
            [] [] 8 10 1 1 no_stats.

Definition half_files : Files :=
  mkFiles (Some (unlines ["page,1"])) None None None.

Definition half_loaded : Indexer :=
  mkIndexer [("page", 1)] [(1, "page")] [] [] [] [] 8 10 1 1 no_stats.

(** A directory with two documents and one term. *)
Definition saved_files : Files :=
  mkFiles (Some (unlines ["page1,3"; "page2,7"]))
          (Some (unlines ["spider,5"]))
          (Some EmptyString) (Some EmptyString).

Definition loaded_index : Indexer :=
  mkIndexer [("page1", 3); ("page2", 7)] [(3, "page1"); (7, "page2")]
            [("spider", 5)] [(5, "spider")] [] [] 8 6 2 1 no_stats.

(** The postings of a term found in two of four documents. *)
Definition half_corpus : Dict.t Z (Dict.t Z posting) :=
  [(1, [(1, mkPosting 3 None None None); (2, mkPosting 1 None None None)])].

(** One posting, in an index that has no document; and a term left
    without any posting. *)
Definition orphan_index : Indexer :=
  mkIndexer [] [] [("spider", 1)] [(1, "spider")]
            [(1, [(1, mkPosting 1 None None None)])] [] 1 2 0 0 no_stats.

Definition bare_term : Dict.t Z (Dict.t Z posting) := [(7, [])].

(** One document, whose only term is in every document: [idf] and
    [tf_idf] are 0. *)
Definition common_term_index : Indexer :=
  mkIndexer [(page1, 1)] [(1, page1)] [("spider", 1)] [(1, "spider")]
            [(1, [(1, mkPosting 2 (Some 0%R) (Some 0%R) (Some 1))])]
            [] 2 2 1 1 no_stats.

Definition common_term_lengths : Indexer :=
  with_doc_lengths common_term_index [(1, 1%R)].

(** A document of stop words only, indexed by [Indexer]. *)
Definition stop_words_only : Indexer :=
  fst (process_document_from_text new_indexer "a an the" "doc").

End Fixture.

(* ================================================================== *)
(** * More concrete inputs *)

Module Sample.

#[local] Existing Instance RealFloat.instance.
#[local] Existing Instance SimpleStemmer.

Definition colours : list string := ["red"; "green"; "blue"].

Definition report : string := "http://site.test/report".

(** A parser for which every URL has the scheme [http]. *)
Definition http_only (url : string) : string := "http".

(** One text with a repeated word, and a corpus of three files, the
    second of which cannot be read. *)
Definition one_text : list (string * string) :=
  [("Crawling spiders, crawling", "a.txt")].

(** Two texts given under the same path. *)
Definition same_path_twice : list (string * string) :=
  [("spiders", "a.txt"); ("crawlers", "a.txt")].

Definition small_corpus : list (string * option string) :=
  [("a.txt", Some "Crawling spiders");
   ("b.txt", None);
   ("c.txt", Some "Spiders rank the documents")].

(** A directory whose [documents.dat] has a line of three fields. *)
Definition three_fields : Files :=
  mkFiles (Some (unlines ["a,b,1"])) (Some EmptyString) (Some EmptyString)
          (Some EmptyString).

(** A directory whose [terms.dat] has a second line that cannot be
    read. *)
Definition torn_files : Files :=
  mkFiles (Some (unlines ["page1,1"; "page2,2"]))
          (Some (unlines ["spider,1"; "crawl,x"; "rank,3"]))
          (Some EmptyString) (Some EmptyString).

(** A site of one page that holds stop words only, and its crawl. *)
Definition stop_word_page : list event :=
  [Visit (Page "a an the" (Some []))].

Definition stop_word_crawl : crawl_state :=
  crawl_run Fixture.same_url
    (crawl_start Fixture.same_url (new_crawler 10 5) Fixture.page1)
    stop_word_page.

End Sample.

(* ================================================================== *)
(** * Proofs *)
(* ------------------------------------------------------------------ *)
(** ** Characters, strings and tokens *)

Lemma alnum_lower_alnum (c : ascii) :
  Chars.is_alnum c = true -> Chars.is_alnum (Chars.lower c) = true.
Proof. ascii_cases c; intro E; try reflexivity; discriminate E. Qed.

Lemma alnum_not_space (c : ascii) :
  Chars.is_alnum c = true -> Chars.is_space c = false.
Proof. ascii_cases c; intro E; try reflexivity; discriminate E. Qed.

Lemma alnum_not_punctuation (c : ascii) :
  Chars.is_alnum c = true -> Chars.is_punctuation c = false.
Proof. ascii_cases c; intro E; try reflexivity; discriminate E. Qed.

Lemma forallb_impl (p q : ascii -> bool) (s : string) :
  (forall c, p c = true -> q c = true) ->
  Str.forallb p s = true -> Str.forallb q s = true.
Proof.
  intro Hpq. induction s as [|c s IH]; simpl; auto.
  rewrite !andb_true_iff. intros [Hc Hs]. split; auto.
Qed.

Lemma forallb_rev_onto (p : ascii -> bool) (s acc : string) :
  Str.forallb p s = true -> Str.forallb p acc = true ->
  Str.forallb p (Str.rev_onto s acc) = true.
Proof.
  revert acc. induction s as [|c s IH]; simpl; intros acc Hs Hacc; auto.
  apply andb_true_iff in Hs as [Hc Hs].
  apply IH; simpl; auto. now rewrite Hc.
Qed.

Lemma rev_onto_nonempty (s acc : string) :
  acc <> EmptyString -> Str.rev_onto s acc <> EmptyString.
Proof.
  revert acc. induction s as [|c s IH]; simpl; intros acc Hacc; auto.
  apply IH. discriminate.
Qed.

Lemma flush_run_ok (run : string) :
  Str.forallb Chars.is_alnum run = true -> Forall token_ok (flush_run run).
Proof.
  destruct run as [|c run]; simpl; intro Hrun; [constructor|].
  constructor; [|constructor].
  apply andb_true_iff in Hrun as [Hc Hrun]. unfold Str.rev. simpl. split.
  - apply rev_onto_nonempty. discriminate.
  - apply forallb_rev_onto; simpl; auto. now rewrite Hc.
Qed.

Lemma splitchars_from_ok (s run : string) :
  Str.forallb Chars.is_alnum run = true ->
  Forall token_ok (splitchars_from run s).
Proof.
  revert run. induction s as [|c s IH]; simpl; intros run Hrun.
  - now apply flush_run_ok.
  - destruct (Chars.is_alnum c) eqn:Hc.
    + apply IH. simpl. now rewrite Hc.
    + apply Forall_app. split; [now apply flush_run_ok | now apply IH].
Qed.

Lemma splitchars_ok (s : string) : Forall token_ok (splitchars s).
Proof. now apply splitchars_from_ok. Qed.

Lemma lstrip_id (c : ascii) (s : string) :
  Chars.is_space c = false -> Str.lstrip (String c s) = String c s.
Proof. intro Hc. simpl. now rewrite Hc. Qed.

Lemma rstrip_no_space (s : string) :
  Str.forallb (fun c => negb (Chars.is_space c)) s = true -> Str.rstrip s = s.
Proof.
  induction s as [|c s IH]; simpl; auto.
  rewrite andb_true_iff, negb_true_iff. intros [Hc Hs].
  rewrite (IH Hs). destruct s; [now rewrite Hc | reflexivity].
Qed.

Lemma strip_no_space (s : string) :
  Str.forallb (fun c => negb (Chars.is_space c)) s = true -> Str.strip s = s.
Proof.
  intro Hs. unfold Str.strip.
  destruct s as [|c s]; [reflexivity|].
  pose proof Hs as Hs'. simpl in Hs'.
  apply andb_true_iff in Hs' as [Hc _]. apply negb_true_iff in Hc.
  rewrite lstrip_id by assumption. now apply rstrip_no_space.
Qed.

Lemma forallb_map (p : ascii -> bool) (f : ascii -> ascii) (s : string) :
  Str.forallb p (Str.map f s) = Str.forallb (fun c => p (f c)) s.
Proof. induction s as [|c s IH]; simpl; congruence. Qed.

(** The normalized form of a candidate token is its lower-case form: a
    non-empty run of letters and digits again. *)
Lemma normalize_token_ok (t : string) :
  token_ok t ->
  normalize_token t = Str.lower t /\ token_ok (normalize_token t).
Proof.
  intros [Hne Hal]. unfold normalize_token.
  assert (Hlow : Str.forallb Chars.is_alnum (Str.lower t) = true).
  { unfold Str.lower. rewrite forallb_map.
    revert Hal. apply forallb_impl. apply alnum_lower_alnum. }
  rewrite strip_no_space.
  - split; [reflexivity|]. split; [|exact Hlow].
    destruct t; [congruence | discriminate].
  - revert Hlow. apply forallb_impl. intros c Hc.
    now rewrite (alnum_not_space c Hc).
Qed.

Lemma token_ok_filters (t : string) :
  token_ok t ->
  Str.is_empty (normalize_token t) = false
  /\ starts_with_punctuation (normalize_token t) = false.
Proof.
  intro Ht. destruct (normalize_token_ok t Ht) as [_ [Hne Hal]].
  destruct (normalize_token t) as [|c s]; [congruence|].
  split; [reflexivity|]. simpl in *.
  apply andb_true_iff in Hal as [Hc _]. now apply alnum_not_punctuation.
Qed.

(* ------------------------------------------------------------------ *)
(** ** The token filters *)

Lemma count_if_cons (p : string -> bool) (t : string) (ts : list string) :
  count_if p (t :: ts) = (if p t then 1 else 0) + count_if p ts.
Proof.
  unfold count_if. cbn [List.filter]. destruct (p t); cbn [List.length]; lia.
Qed.

Section TokenLoop.
Context `{Stemmer}.

Lemma process_token_counts (st : Stats) (tfq : Dict.t string Z) (t : string) :
  token_ok t ->
  let st' := fst (process_token (st, tfq) t) in
  tokens_processed st' = tokens_processed st + 1
  /\ stop_words_matched st'
     = stop_words_matched st + (if stop_token t then 1 else 0)
  /\ short_words_ignored st'
     = short_words_ignored st + (if short_token t then 1 else 0)
  /\ punctuation_words_ignored st' = punctuation_words_ignored st.
Proof.
  intro Ht. destruct (token_ok_filters t Ht) as [Hne Hpu].
  unfold process_token, stop_token, short_token.
  rewrite Hne, Hpu.
  destruct (is_stop_word (normalize_token t)); cbn.
  - repeat split; lia.
  - destruct (is_short (normalize_token t)); cbn.
    + repeat split; lia.
    + destruct (is_number (normalize_token t)); cbn; repeat split; lia.
Qed.

Lemma process_tokens_counts (ts : list string) :
  Forall token_ok ts ->
  forall (st : Stats) (tfq : Dict.t string Z),
  let st' := fst (fold_left process_token ts (st, tfq)) in
  tokens_processed st' = tokens_processed st + Z.of_nat (List.length ts)
  /\ stop_words_matched st' = stop_words_matched st + count_if stop_token ts
  /\ short_words_ignored st'
     = short_words_ignored st + count_if short_token ts
  /\ punctuation_words_ignored st' = punctuation_words_ignored st.
Proof.
  induction 1 as [|t ts Ht Hts IH]; intros st tfq.
  - cbn. unfold count_if. cbn. repeat split; lia.
  - cbn [fold_left].
    pose proof (process_token_counts st tfq t Ht) as Hstep.
    destruct (process_token (st, tfq) t) as [st1 tfq1].
    cbn [fst] in Hstep.
    specialize (IH st1 tfq1). cbv zeta in *.
    rewrite !count_if_cons.
    destruct Hstep as (H1 & H2 & H3 & H4). destruct IH as (I1 & I2 & I3 & I4).
    rewrite I1, I2, I3, I4, H1, H2, H3, H4. cbn [List.length].
    repeat split; lia.
Qed.

End TokenLoop.

Section IndexerStats.
Context `{PyFloat} `{Stemmer}.

Lemma record_terms_stats (doc_id : Z) (tfq : Dict.t string Z) (ix : Indexer) :
  stats (fold_left (record_term doc_id) tfq ix) = stats ix.
Proof.
  revert ix. induction tfq as [|[term freq] tfq IH]; intro ix; [reflexivity|].
  cbn [fold_left]. rewrite IH. unfold record_term.
  destruct (Dict.get (terms ix) term); reflexivity.
Qed.

Lemma process_document_from_text_stats (ix : Indexer)
  (doc_content doc_path : string) :
  stats (fst (process_document_from_text ix doc_content doc_path))
  = fst (fold_left process_token (splitchars doc_content) (stats ix, [])).
Proof.
  unfold process_document_from_text.
  destruct (fold_left process_token (splitchars doc_content) (stats ix, []))
    as [st tfq].
  cbn [fst]. now rewrite record_terms_stats.
Qed.

Lemma process_document_from_text_counts (ix : Indexer)
  (doc_content doc_path : string) :
  let st' := stats (fst (process_document_from_text ix doc_content doc_path)) in
  let ts := splitchars doc_content in
  tokens_processed st'
  = tokens_processed (stats ix) + Z.of_nat (List.length ts)
  /\ stop_words_matched st'
     = stop_words_matched (stats ix) + count_if stop_token ts
  /\ short_words_ignored st'
     = short_words_ignored (stats ix) + count_if short_token ts
  /\ punctuation_words_ignored st' = punctuation_words_ignored (stats ix).
Proof.
  cbv zeta. rewrite process_document_from_text_stats.
  apply (process_tokens_counts (splitchars doc_content)
           (splitchars_ok doc_content) (stats ix) []).
Qed.

Lemma tokens_of_ok (docs : list (string * string)) :
  Forall token_ok (tokens_of docs).
Proof.
  unfold tokens_of. induction docs as [|d docs IH]; simpl.
  - constructor.
  - apply Forall_app. split; [apply splitchars_ok | exact IH].
Qed.

Lemma count_if_app (p : string -> bool) (l1 l2 : list string) :
  count_if p (l1 ++ l2) = count_if p l1 + count_if p l2.
Proof. unfold count_if. rewrite filter_app, length_app. lia. Qed.

Lemma index_texts_counts (docs : list (string * string)) (ix : Indexer) :
  let st' := stats (index_texts docs ix) in
  tokens_processed st'
  = tokens_processed (stats ix) + Z.of_nat (List.length (tokens_of docs))
  /\ stop_words_matched st'
     = stop_words_matched (stats ix) + count_if stop_token (tokens_of docs)
  /\ short_words_ignored st'
     = short_words_ignored (stats ix) + count_if short_token (tokens_of docs)
  /\ punctuation_words_ignored st' = punctuation_words_ignored (stats ix).
Proof.
  revert ix. induction docs as [|[text path] docs IH]; intro ix.
  - cbn. unfold count_if. cbn. repeat split; lia.
  - cbn [index_texts fold_left fst snd].
    specialize (IH (fst (process_document_from_text ix text path))).
    cbv zeta in *. unfold index_texts in IH.
    destruct IH as (I1 & I2 & I3 & I4).
    rewrite I1, I2, I3, I4.
    destruct (process_document_from_text_counts ix text path)
      as (H1 & H2 & H3 & H4).
    rewrite H1, H2, H3, H4.
    unfold tokens_of. cbn [flat_map fst].
    rewrite !count_if_app, length_app. repeat split; lia.
Qed.

(** C10: every candidate token is a non-empty run of ASCII letters and
    digits, so the empty-token skip and the leading-punctuation branch
    are never taken: each token is counted as processed, and the
    punctuation counter keeps its value, which is 0 for an index built
    from scratch, whatever texts are processed. *)
Theorem punctuation_branch_unreachable (docs : list (string * string))
  (ix : Indexer) :
  Forall token_ok (tokens_of docs)
  /\ tokens_processed (stats (index_texts docs ix))
     = tokens_processed (stats ix) + Z.of_nat (List.length (tokens_of docs))
  /\ punctuation_words_ignored (stats (index_texts docs ix))
     = punctuation_words_ignored (stats ix)
  /\ punctuation_words_ignored (stats (index_texts docs new_indexer)) = 0.
Proof.
  split; [apply tokens_of_ok|].
  destruct (index_texts_counts docs ix) as (H1 & _ & _ & H4).
  destruct (index_texts_counts docs new_indexer) as (_ & _ & _ & H4').
  repeat split; assumption.
Qed.

(** C7: the stop-word check runs before the length check.  Over any
    texts, the stop-word counter grows by the number of tokens that
    are stop words, the short ones among them included, and the
    short-word counter by the number of short tokens that are not stop
    words; and the token [a], a stop word of length 1, is counted by
    the first and not by the second. *)
Theorem stop_word_check_before_length_check (docs : list (string * string))
  (ix : Indexer) :
  stop_words_matched (stats (index_texts docs ix))
  = stop_words_matched (stats ix) + count_if stop_token (tokens_of docs)
  /\ short_words_ignored (stats (index_texts docs ix))
     = short_words_ignored (stats ix) + count_if short_token (tokens_of docs)
  /\ stop_token "a" = true /\ is_short (normalize_token "a") = true
  /\ short_token "a" = false.
Proof.
  destruct (index_texts_counts docs ix) as (_ & H2 & H3 & _).
  repeat split; try assumption; reflexivity.
Qed.

End IndexerStats.

(* ------------------------------------------------------------------ *)
(** ** Dictionaries *)

Section DictFacts.
Context {K V : Type} `{EqKey K}.

Lemma keqb_refl (k : K) : keqb k k = true.
Proof. now apply keqb_eq. Qed.

Lemma keqb_neq (k k' : K) : k <> k' -> keqb k k' = false.
Proof.
  intro Hne. destruct (keqb k k') eqn:E; [|reflexivity].
  apply keqb_eq in E. contradiction.
Qed.

Lemma get_set_same (d : Dict.t K V) (k : K) (v : V) :
  Dict.get (Dict.set d k v) k = Some v.
Proof.
  induction d as [|[k' v'] d IH]; simpl.
  - now rewrite keqb_refl.
  - destruct (keqb k' k) eqn:E; simpl; rewrite E; auto.
Qed.

Lemma get_set_other (d : Dict.t K V) (k k' : K) (v : V) :
  k <> k' -> Dict.get (Dict.set d k v) k' = Dict.get d k'.
Proof.
  intro Hne. induction d as [|[k0 v0] d IH]; simpl.
  - now rewrite keqb_neq.
  - destruct (keqb k0 k) eqn:E; simpl.
    + apply keqb_eq in E. subst k0. now rewrite keqb_neq.
    + now rewrite IH.
Qed.

Lemma get_none_not_in (d : Dict.t K V) (k : K) :
  ~ In k (Dict.keys d) -> Dict.get d k = None.
Proof.
  induction d as [|[k' v'] d IH]; simpl; intro Hn; [reflexivity|].
  rewrite keqb_neq by tauto. apply IH. tauto.
Qed.

(** Adding a key that is not there puts it last. *)
Lemma set_fresh (d : Dict.t K V) (k : K) (v : V) :
  ~ In k (Dict.keys d) -> Dict.set d k v = (d ++ [(k, v)])%list.
Proof.
  induction d as [|[k' v'] d IH]; simpl; intro Hn; [reflexivity|].
  rewrite keqb_neq by tauto. rewrite IH by tauto. reflexivity.
Qed.

End DictFacts.

(* ------------------------------------------------------------------ *)
(** ** The monad *)

Lemma bind_ret {A B} (a : A) (k : A -> M B) : bind (ret a) k = k a.
Proof. unfold bind, ret. destruct (k a). reflexivity. Qed.

Lemma bind_returns {A B} (m : M A) (k : A -> M B) (tr : list arith) (b : B) :
  bind m k = (tr, inr b) ->
  exists t1 a t2, m = (t1, inr a) /\ k a = (t2, inr b) /\ tr = (t1 ++ t2)%list.
Proof.
  unfold bind. destruct m as [t1 [e|a]]; [discriminate|].
  destruct (k a) as [t2 r] eqn:E. intros [= <- ->].
  now exists t1, a, t2.
Qed.

(* ------------------------------------------------------------------ *)
(** ** The scoring pass *)

Section Scoring.
Context `{PyFloat}.

Lemma score_postings_no_postings (N : Z) (pt : Dict.t Z (Dict.t Z posting)) :
  no_postings pt -> score_postings N pt = ret pt.
Proof.
  induction 1 as [|[t dp] pt Hdp Hpt IH]; [reflexivity|].
  cbn in Hdp. subst dp. cbn [score_postings].
  unfold score_term. cbn [List.length Z.of_nat Z.eqb].
  rewrite bind_ret, IH, bind_ret. reflexivity.
Qed.

Lemma with_postings_same (ix : Indexer) : with_postings ix (postings ix) = ix.
Proof. destruct ix; reflexivity. Qed.

(** C5, amended: on a postings table in which no term has a posting,
    the empty table of an index without documents above all, the
    scoring pass with [N = 0] returns without a single division,
    without raising, and leaves the table as it was. *)
Theorem scoring_without_documents (pt : Dict.t Z (Dict.t Z posting)) :
  no_postings pt ->
  List.filter is_division (trace (score_postings 0 pt)) = []
  /\ outcome (score_postings 0 pt) = inr pt.
Proof.
  intro Hp. rewrite (score_postings_no_postings 0 pt Hp). now split.
Qed.

(** The same for the method of [Indexer], which reads [N] off the
    documents table. *)
Lemma calculate_tf_idf_without_documents (ix : Indexer) :
  documents ix = [] -> no_postings (postings ix) ->
  calculate_tf_idf ix = ret ix.
Proof.
  intros Hd Hp. unfold calculate_tf_idf. rewrite Hd. cbn [List.length Z.of_nat].
  now rewrite (score_postings_no_postings 0 _ Hp), bind_ret, with_postings_same.
Qed.

Context `{!PyFloatLaws}.

(** A term with one posting, scored with [N = 0]: the quotient [0 / 1]
    is taken and [math.log] raises on it. *)
Lemma score_postings_zero_documents_raises (term_id doc_id : Z) (p : posting) :
  score_postings 0 [(term_id, [(doc_id, p)])]
  = ([DivInt 0 1; MathLog], inl ValueError).
Proof.
  cbn. rewrite (zero_quotient 1) by lia. reflexivity.
Qed.

Lemma score_term_scored (N : Z) (dp : Dict.t Z posting) :
  0 < N -> outcome (score_term N dp) = inr (scored N dp).
Proof.
  intro HN. unfold score_term, scored.
  destruct dp as [|e dp]; [reflexivity|].
  set (df_ := Z.of_nat (List.length (e :: dp))).
  assert (Hdf : 0 < df_) by (unfold df_; cbn [List.length]; lia).
  replace (df_ =? 0) with false by (symmetry; apply Z.eqb_neq; lia).
  replace (0 <? df_) with true by (symmetry; apply Z.ltb_lt; lia).
  unfold truediv, math_log.
  replace (df_ =? 0) with false by (symmetry; apply Z.eqb_neq; lia).
  cbn. rewrite (quotient_positive N df_ HN Hdf). cbn.
  f_equal. f_equal.
  + now destruct e.
  + apply map_ext. now intros [d p].
Qed.

Lemma score_postings_scored (N : Z) (pt : Dict.t Z (Dict.t Z posting)) :
  0 < N ->
  outcome (score_postings N pt)
  = inr (List.map (fun e => (fst e, scored N (snd e))) pt).
Proof.
  intro HN. induction pt as [|[t dp] pt IH]; [reflexivity|].
  cbn [score_postings List.map fst snd].
  pose proof (score_term_scored N dp HN) as Hdp.
  unfold outcome in *.
  destruct (score_term N dp) as [t1 r1]. cbn [snd] in Hdp. subst r1.
  destruct (score_postings N pt) as [t2 r2]. cbn [snd] in IH. subst r2.
  reflexivity.
Qed.

(** C4: with [N > 0] documents the scoring pass returns, and it gives
    every term with [df > 0] posting documents [idf = ln(N / df)] and,
    on each of its postings, [tf_idf = tf * idf], storing [idf],
    [tf_idf] and [df] there; a term with a posting in every document,
    [df = N], gets [idf = 0]. *)
Theorem tf_idf_formula (N : Z) (pt : Dict.t Z (Dict.t Z posting)) :
  0 < N ->
  outcome (score_postings N pt)
  = inr (List.map (fun e => (fst e, scored N (snd e))) pt)
  /\ Forall (fun e =>
               Forall (fun dp =>
                         idf (snd dp)
                         = Some (if Z.of_nat (List.length (snd e)) =? N
                                 then float_of_int 0
                                 else fln (int_truediv N
                                             (Z.of_nat (List.length (snd e))))))
                      (scored N (snd e)))
            pt.
Proof.
  intro HN. split; [now apply score_postings_scored|].
  apply Forall_forall. intros [t dp] _. cbn [snd].
  apply Forall_forall. intros [d p] Hin.
  unfold scored in Hin. apply in_map_iff in Hin as [[d0 p0] [[= <- <-] _]].
  cbn [snd idf].
  destruct (Z.eqb_spec (Z.of_nat (List.length dp)) N) as [->|]; [|reflexivity].
  now rewrite ln_one.
Qed.

End Scoring.

(* ------------------------------------------------------------------ *)
(** ** Document lengths *)

Section Lengths.
Context `{PyFloat}.

Lemma for_each_returns {X A} (body : X -> A -> M A) (x : X) (xs : list X)
  (a b : A) (tr : list arith) :
  for_each body (x :: xs) a = (tr, inr b) ->
  exists t1 a1 t2,
    body x a = (t1, inr a1) /\ for_each body xs a1 = (t2, inr b).
Proof.
  cbn [for_each]. intro E.
  apply bind_returns in E as (t1 & a1 & t2 & E1 & E2 & _).
  now exists t1, a1, t2.
Qed.

Lemma document_length_returns (pt : Dict.t Z (Dict.t Z posting))
  (doc_id : Z) (dl dl1 : Dict.t Z float) (tr : list arith) :
  document_length pt doc_id dl = (tr, inr dl1) ->
  exists length_squared len,
    outcome (length_squared_of pt doc_id) = inr length_squared
    /\ outcome (length_of length_squared) = inr len
    /\ dl1 = Dict.set dl doc_id len.
Proof.
  unfold document_length. intro E.
  apply bind_returns in E as (ta & ls & tb & Ea & E & _).
  apply bind_returns in E as (tc & len & td & Eb & E & _).
  injection E as _ <-. exists ls, len. now rewrite Ea, Eb.
Qed.

Lemma document_lengths_others (pt : Dict.t Z (Dict.t Z posting))
  (ids : list Z) (dl dl' : Dict.t Z float) (tr : list arith) :
  for_each (document_length pt) ids dl = (tr, inr dl') ->
  forall doc_id, ~ In doc_id ids -> Dict.get dl' doc_id = Dict.get dl doc_id.
Proof.
  revert dl tr. induction ids as [|k ids IH]; intros dl tr E doc_id Hnin.
  - now injection E as _ <-.
  - apply for_each_returns in E as (t1 & dl1 & t2 & E1 & E2).
    apply document_length_returns in E1 as (ls & len & _ & _ & ->).
    rewrite (IH _ _ E2) by (cbn in Hnin; tauto).
    apply get_set_other. cbn in Hnin. tauto.
Qed.

(** After the loop over the document ids, each of them holds the
    length computed from its own sum of squares. *)
Lemma document_lengths_stored (pt : Dict.t Z (Dict.t Z posting))
  (ids : list Z) (dl dl' : Dict.t Z float) (tr : list arith) :
  for_each (document_length pt) ids dl = (tr, inr dl') ->
  forall doc_id, In doc_id ids ->
  exists length_squared len,
    outcome (length_squared_of pt doc_id) = inr length_squared
    /\ outcome (length_of length_squared) = inr len
    /\ Dict.get dl' doc_id = Some len.
Proof.
  revert dl tr. induction ids as [|k ids IH]; intros dl tr E doc_id Hin.
  - destruct Hin.
  - apply for_each_returns in E as (t1 & dl1 & t2 & E1 & E2).
    destruct (in_dec Z.eq_dec doc_id ids) as [Hin'|Hnin].
    + now apply (IH _ _ E2).
    + destruct Hin as [->|Hin]; [|contradiction].
      apply document_length_returns in E1 as (ls & len & Ea & Eb & ->).
      exists ls, len. repeat split; try assumption.
      rewrite (document_lengths_others _ _ _ _ _ E2 _ Hnin).
      apply get_set_same.
Qed.

(** A document that no posting refers to has the empty sum. *)
Lemma length_squared_without_postings (pt : Dict.t Z (Dict.t Z posting))
  (doc_id : Z) :
  Forall (fun e => Dict.get (snd e) doc_id = None) pt ->
  length_squared_of pt doc_id = ret (float_of_int 0).
Proof.
  unfold length_squared_of. generalize (float_of_int 0). intros acc Hpt.
  revert acc. induction Hpt as [|e pt He Hpt IH]; intro acc; [reflexivity|].
  cbn [for_each]. unfold add_square at 1. rewrite He, bind_ret. apply IH.
Qed.

Lemma calculate_document_lengths_returns (ix ix' : Indexer)
  (tr : list arith) :
  calculate_document_lengths ix = (tr, inr ix') ->
  exists dl,
    for_each (document_length (postings ix)) (Dict.keys (documents_inv ix))
             (doc_lengths ix) = (tr, inr dl)
    /\ ix' = with_doc_lengths ix dl.
Proof.
  unfold calculate_document_lengths. intro E.
  apply bind_returns in E as (t1 & dl & t2 & E1 & E2 & ->).
  injection E2 as <- <-. exists dl. now rewrite app_nil_r.
Qed.

(** Without a key in [documents_inv] the loop has nothing to do. *)
Lemma calculate_document_lengths_no_inverse (ix : Indexer) :
  documents_inv ix = [] -> calculate_document_lengths ix = ret ix.
Proof.
  intro E. unfold calculate_document_lengths. rewrite E. cbn [Dict.keys map for_each].
  rewrite bind_ret. destruct ix; reflexivity.
Qed.

Context `{!PyFloatLaws}.

Lemma one_is_not_zero : float_of_int 1 <> float_of_int 0.
Proof.
  intro E. pose proof one_positive as P. rewrite E, zero_not_positive in P.
  discriminate.
Qed.

(** On the path of [Indexer], where [documents_inv] has every
    document: a document whose sum of squared [tf_idf] is zero is
    given the length 1.0, which is not 0. *)
Theorem zero_mass_length_is_one (ix ix' : Indexer) (tr : list arith)
  (doc_id : Z) :
  calculate_document_lengths ix = (tr, inr ix') ->
  In doc_id (Dict.keys (documents_inv ix)) ->
  outcome (length_squared_of (postings ix) doc_id) = inr (float_of_int 0) ->
  Dict.get (doc_lengths ix') doc_id = Some (float_of_int 1)
  /\ float_of_int 1 <> float_of_int 0.
Proof.
  intros E Hin Hzero. split; [|apply one_is_not_zero].
  apply calculate_document_lengths_returns in E as (dl & E & ->).
  destruct (document_lengths_stored _ _ _ _ _ E doc_id Hin)
    as (ls & len & Hls & Hlen & Hget).
  cbn [doc_lengths with_doc_lengths]. rewrite Hget. f_equal.
  rewrite Hzero in Hls. injection Hls as <-.
  unfold length_of in Hlen. rewrite zero_not_positive in Hlen.
  now injection Hlen.
Qed.

End Lengths.

(* ------------------------------------------------------------------ *)
(** ** The crawler *)

Lemma outcome_bind {A B} (m : M A) (k : A -> M B) :
  outcome (bind m k)
  = match outcome m with
    | inl e => inl e
    | inr a => outcome (k a)
    end.
Proof.
  unfold outcome, bind. destruct m as [t [e|a]]; cbn; [reflexivity|].
  now destruct (k a).
Qed.

Section CrawlFacts.
Context `{PyFloat} `{Stemmer}.
Variable normalize_url : string -> string.

Local Abbreviation step := (crawl_step normalize_url).
Local Abbreviation run := (crawl_run normalize_url).
Local Abbreviation start := (crawl_start normalize_url).
Local Abbreviation push := (push_link normalize_url).

Lemma crawler_record_terms_untouched (doc_id : Z) (tfq : Dict.t string Z)
  (ix : Indexer) (unique : Z) :
  untouched ix (fst (fold_left (crawler_record_term doc_id) tfq (ix, unique))).
Proof.
  revert ix unique.
  induction tfq as [|[term freq] tfq IH]; intros ix unique.
  - now constructor.
  - cbn [fold_left].
    destruct (crawler_record_term doc_id (ix, unique) (term, freq))
      as [ix1 u1] eqn:E.
    destruct (IH ix1 u1) as [I1 I2 I3 I4].
    unfold crawler_record_term in E.
    destruct (Dict.get (terms ix) term); injection E as <- <-;
      constructor; assumption.
Qed.

Lemma process_document_spec (c : WebCrawler) (url text : string) :
  let c' := process_document c url text in
  max_urls c' = max_urls c
  /\ max_depth c' = max_depth c
  /\ CStats.urls_crawled (cstats c') = CStats.urls_crawled (cstats c)
  /\ CStats.urls_in_frontier (cstats c') = CStats.urls_in_frontier (cstats c)
  /\ CStats.documents_processed (cstats c')
     = CStats.documents_processed (cstats c) + 1
  /\ documents (indexer c')
     = Dict.set (documents (indexer c)) url (next_doc_id (indexer c))
  /\ documents_inv (indexer c') = documents_inv (indexer c)
  /\ doc_lengths (indexer c') = doc_lengths (indexer c).
Proof.
  unfold process_document.
  destruct (fold_left crawler_token _ _) as [[total stops] tfq].
  match goal with
  | |- context [fold_left (crawler_record_term ?d) tfq (?ix1, ?u)] =>
      pose proof (crawler_record_terms_untouched d tfq ix1 u) as [U1 U2 U3 U4];
      destruct (fold_left (crawler_record_term d) tfq (ix1, u)) as [ix2 u2]
  end.
  cbn in *. repeat split; assumption.
Qed.

Lemma push_link_spec (depth : Z) (l : string) (m : URLManager.t)
  (c : WebCrawler) :
  let r := push depth (m, c) l in
  max_urls (snd r) = max_urls c
  /\ max_depth (snd r) = max_depth c
  /\ indexer (snd r) = indexer c
  /\ CStats.urls_crawled (cstats (snd r)) = CStats.urls_crawled (cstats c)
  /\ CStats.documents_processed (cstats (snd r))
     = CStats.documents_processed (cstats c).
Proof.
  unfold push_link.
  destruct (CStats.urls_in_frontier (cstats c) <? max_urls c);
    cbn; repeat split.
Qed.

Lemma push_links_spec (depth : Z) (ls : list string) (m : URLManager.t)
  (c : WebCrawler) :
  let r := fold_left (push depth) ls (m, c) in
  max_urls (snd r) = max_urls c
  /\ max_depth (snd r) = max_depth c
  /\ indexer (snd r) = indexer c
  /\ CStats.urls_crawled (cstats (snd r)) = CStats.urls_crawled (cstats c)
  /\ CStats.documents_processed (cstats (snd r))
     = CStats.documents_processed (cstats c).
Proof.
  revert m c. induction ls as [|l ls IH]; intros m c; [now cbn|].
  cbn [fold_left].
  pose proof (push_link_spec depth l m c) as (S1 & S2 & S3 & S4 & S5).
  destruct (push depth (m, c) l) as [m1 c1]. cbn [snd] in *.
  destruct (IH m1 c1) as (I1 & I2 & I3 & I4 & I5).
  repeat split; congruence.
Qed.

(** *** The bound on processed URLs *)

Lemma crawl_start_invariant (mu md : Z) (start_url : string) :
  0 <= mu -> loop_invariant mu (start (new_crawler mu md) start_url).
Proof.
  intro Hmu. unfold loop_invariant, processed. cbn.
  repeat split; try assumption.
  intros _. unfold URLManager.add_url. cbn.
  destruct (mu <=? 0) eqn:E; cbn; [congruence|].
  intros _. apply Z.leb_gt in E. exact E.
Qed.

Lemma crawl_step_invariant (mu : Z) (s : crawl_state) (ev : event) :
  loop_invariant mu s -> loop_invariant mu (step s ev).
Proof.
  intros (Hmax & Hle & Hlt). unfold crawl_step.
  destruct (status s) eqn:Hst;
    try (now repeat split; auto; rewrite Hst; discriminate).
  unfold URLManager.is_empty, URLManager.get_next_url.
  destruct (URLManager.pending (url_manager s)) as [|[url depth] rest] eqn:Hp.
  { repeat split; auto; cbn; discriminate. }
  assert (Hlt' : processed s < mu) by (apply Hlt; [reflexivity|discriminate]).
  destruct ev as [|r].
  { repeat split; auto; cbn; discriminate. }
  destruct (max_depth (crawler s) <? depth).
  { repeat split; auto. }
  destruct r as [| |text links]; try (repeat split; now auto).
  destruct (process_document_spec (crawler s) url text)
    as (P1 & _ & P3 & _).
  set (c1 := process_document (crawler s) url text) in *.
  cbv zeta in P1, P3.
  assert (Hc1 : (CStats.urls_crawled (cstats c1) <? max_urls c1) = true).
  { apply Z.ltb_lt. rewrite P1, P3, Hmax. exact Hlt'. }
  rewrite Hc1.
  destruct links as [ls|].
  2:{ unfold loop_invariant, processed. cbn. rewrite P1, P3.
      repeat split; auto. }
  destruct (push_links_spec depth ls
              (URLManager.mk (URLManager.max_urls (url_manager s)) rest
                             (URLManager.seen (url_manager s))) c1)
    as (Q1 & _ & _ & Q4 & _).
  destruct (fold_left (push depth) ls _) as [m2 c2].
  cbn [snd] in Q1, Q4.
  assert (Hc3 : CStats.urls_crawled (cstats (count_crawled c2))
                = processed s + 1).
  { cbn. rewrite Q4, P3. reflexivity. }
  assert (Hm3 : max_urls (count_crawled c2) = mu).
  { cbn. now rewrite Q1, P1. }
  rewrite Hc3, Hm3.
  destruct (mu <=? processed s + 1) eqn:E;
    unfold loop_invariant, processed; cbn [crawler status];
    rewrite Hc3, Hm3.
  - repeat split; [lia|discriminate].
  - apply Z.leb_gt in E. repeat split; lia.
Qed.

Lemma crawl_run_invariant (mu : Z) (evs : list event) (s : crawl_state) :
  loop_invariant mu s -> loop_invariant mu (run s evs).
Proof.
  revert s. induction evs as [|ev evs IH]; intros s Hs; [exact Hs|].
  cbn [crawl_run fold_left]. apply IH.
  now apply crawl_step_invariant.
Qed.

Lemma halted_step (s : crawl_state) (ev : event) :
  halted s ->
  halted (step s ev) /\ crawler (step s ev) = crawler s.
Proof.
  intros Hh. unfold crawl_step.
  destruct (status s) eqn:Hst;
    try (split; [left; rewrite Hst; discriminate | reflexivity]).
  destruct Hh as [Hh|Hh]; [congruence|].
  unfold URLManager.is_empty. rewrite Hh.
  split; [left; cbn; discriminate | reflexivity].
Qed.

Lemma halted_run (evs : list event) (s : crawl_state) :
  halted s -> crawler (run s evs) = crawler s.
Proof.
  revert s. induction evs as [|ev evs IH]; intros s Hs; [reflexivity|].
  cbn [crawl_run fold_left].
  destruct (halted_step s ev Hs) as [Hh Hc].
  rewrite <- Hc. now apply IH.
Qed.

(** C9: whatever happens during a crawl, the number of processed URLs
    never exceeds [max_urls]; and once it has reached [max_urls] the
    loop is over, pending entries or not: whatever comes next, nothing
    more is fetched or indexed, the crawler stays as it is. *)
Theorem processed_urls_bounded (mu md : Z) (start_url : string)
  (evs : list event) :
  0 <= mu ->
  let s := run (start (new_crawler mu md) start_url) evs in
  processed s <= mu
  /\ (processed s < mu
      \/ forall more, crawler (run s more) = crawler s).
Proof.
  intros Hmu s.
  destruct (crawl_run_invariant mu evs _
              (crawl_start_invariant mu md start_url Hmu))
    as (Hmax & Hle & Hlt).
  fold s in Hmax, Hle, Hlt. split; [exact Hle|].
  destruct (Z.lt_ge_cases (processed s) mu) as [Hlow|Hhigh]; [now left|].
  right. intro more. apply halted_run. unfold halted.
  destruct (status s) eqn:Hst; try (left; discriminate).
  right. destruct (URLManager.pending (url_manager s)) eqn:Hp;
    [reflexivity|].
  exfalso. assert (processed s < mu) by (apply Hlt; [reflexivity|discriminate]).
  lia.
Qed.

(** *** What a crawl leaves in the index *)

Lemma crawl_step_crawled (s : crawl_state) (ev : event) :
  crawled (crawler s) -> crawled (crawler (step s ev)).
Proof.
  intros (C1 & C2 & C3 & C4). unfold crawl_step.
  destruct (status s); try (now repeat split).
  destruct (URLManager.is_empty (url_manager s)); [now repeat split|].
  destruct (URLManager.get_next_url (url_manager s)) as [[[url depth] m]|];
    [|now repeat split].
  destruct ev as [|r]; [now repeat split|].
  destruct (max_depth (crawler s) <? depth); [now repeat split|].
  destruct r as [| |text links]; try (now repeat split).
  destruct (process_document_spec (crawler s) url text)
    as (_ & _ & _ & _ & P5 & _ & P7 & P8).
  set (c1 := process_document (crawler s) url text) in *.
  cbv zeta in P5, P7, P8.
  assert (Hc1 : crawled c1).
  { unfold crawled. rewrite P5, P7, P8. repeat split; auto; lia. }
  assert (Hpush : forall c2,
             indexer c2 = indexer c1 ->
             CStats.documents_processed (cstats c2)
             = CStats.documents_processed (cstats c1) ->
             crawled (count_crawled c2)).
  { intros c2 E1 E2. unfold crawled. cbn. rewrite E1, E2. exact Hc1. }
  destruct (CStats.urls_crawled (cstats c1) <? max_urls c1).
  - destruct links as [ls|]; [|exact Hc1].
    destruct (push_links_spec depth ls m c1) as (_ & _ & Q3 & _ & Q5).
    destruct (fold_left (push depth) ls (m, c1)) as [m2 c2].
    cbn [snd] in Q3, Q5.
    destruct (max_urls (count_crawled c2) <=? _); cbn [crawler];
      now apply Hpush.
  - destruct (max_urls (count_crawled c1) <=? _); cbn [crawler];
      now apply Hpush.
Qed.

Lemma crawl_run_crawled (evs : list event) (s : crawl_state) :
  crawled (crawler s) -> crawled (crawler (run s evs)).
Proof.
  revert s. induction evs as [|ev evs IH]; intros s Hs; [exact Hs|].
  cbn [crawl_run fold_left]. apply IH. now apply crawl_step_crawled.
Qed.

Context `{!PyFloatLaws}.

Lemma crawler_calculate_tf_idf_returns (c : WebCrawler) :
  crawled c ->
  exists pt,
    outcome (crawler_calculate_tf_idf c)
    = inr (with_indexer c (with_postings (indexer c) pt)).
Proof.
  intros (C1 & C2 & _). unfold crawler_calculate_tf_idf.
  rewrite outcome_bind.
  destruct (Z.eq_dec (CStats.documents_processed (cstats c)) 0) as [E|E].
  - rewrite E, (C2 E). now exists [].
  - rewrite score_postings_scored by lia. eexists. reflexivity.
Qed.

(** C1, as the code has it: whatever a crawl has fetched, the steps
    that end it return, and the index they save has the documents of
    the crawl in its documents table and not one document length:
    [doc_lengths.dat] is written empty. *)
Theorem crawl_saves_no_document_length (mu md : Z) (start_url : string)
  (evs : list event) :
  let c := crawler (run (start (new_crawler mu md) start_url) evs) in
  exists c' files,
    outcome (crawl_finish c) = inr (c', files)
    /\ documents (indexer c') = documents (indexer c)
    /\ doc_lengths (indexer c') = []
    /\ doc_lengths_dat files = Some EmptyString.
Proof.
  intro c.
  assert (Hc : crawled c).
  { apply crawl_run_crawled. repeat split; cbn; auto; lia. }
  destruct (crawler_calculate_tf_idf_returns c Hc) as [pt Hpt].
  destruct Hc as (_ & _ & C3 & C4).
  unfold crawl_finish. rewrite outcome_bind, Hpt.
  unfold crawler_save_index. rewrite outcome_bind.
  rewrite calculate_document_lengths_no_inverse by exact C3.
  cbn [outcome ret snd]. eexists _, _. split; [reflexivity|].
  cbn. rewrite C4. repeat split.
Qed.

End CrawlFacts.

(* ------------------------------------------------------------------ *)
(** ** Loading *)

Lemma max_of_spec (xs : list Z) (x : Z) :
  In (max_of x xs) (x :: xs) /\ Forall (fun v => v <= max_of x xs) (x :: xs).
Proof.
  unfold max_of. revert x. induction xs as [|y xs IH]; intro x.
  - cbn. split; [now left | constructor; [lia | constructor]].
  - cbn [fold_left]. destruct (IH (Z.max x y)) as [Hin Hall].
    inversion Hall as [|? ? Hm Hrest]; subst.
    split.
    + destruct Hin as [E|Hin]; [|right; now right].
      rewrite <- E. destruct (Z.max_spec x y) as [[_ ->]|[_ ->]];
        [right; now left | now left].
    + constructor; [lia|]. constructor; [lia | exact Hrest].
Qed.

Lemma next_id_restored {K} (d : Dict.t K Z) :
  restored_counter (Dict.values d) (next_id d).
Proof.
  unfold next_id, restored_counter.
  destruct (Dict.values d) as [|x xs]; [now left|]. right.
  destruct (max_of_spec xs x) as [Hin Hall].
  split.
  - now replace (max_of x xs + 1 - 1) with (max_of x xs) by lia.
  - revert Hall. apply Forall_impl. intros; lia.
Qed.

Section Loading.
Context `{PyFloat}.

Lemma bindT_returns {A B} (m : T A) (k : A -> T B) (ix ix' : Indexer) (b : B) :
  bindT m k ix = (ix', inr b) ->
  exists a ix1, m ix = (ix1, inr a) /\ k a ix1 = (ix', inr b).
Proof.
  unfold bindT. destruct (m ix) as [ix1 [e|a]]; [discriminate|].
  intro E. now exists a, ix1.
Qed.

(** C8: after a successful load each id counter is one more than the
    greatest id of its table, or 1 if the table is empty; so it lies
    above every loaded id, and the ids given out next are new. *)
Theorem load_restores_counters (files : Files) (ix ix' : Indexer) :
  load_index files ix = (ix', true) ->
  restored_counter (Dict.values (documents ix')) (next_doc_id ix')
  /\ restored_counter (Dict.values (terms ix')) (next_term_id ix').
Proof.
  unfold load_index. destruct (load_index_try files ix) as [ix1 [e|[]]] eqn:E;
    intros [= <-]. rename ix1 into ix'.
  unfold load_index_try in E.
  apply bindT_returns in E as (_ & i1 & _ & E).
  apply bindT_returns in E as (_ & i2 & _ & E).
  apply bindT_returns in E as (_ & i3 & _ & E).
  apply bindT_returns in E as (_ & i4 & _ & E).
  injection E as <-. cbn.
  split; apply next_id_restored.
Qed.

(** *** A load that fails *)

Lemma for_lines_frame {X} (f : Indexer -> X) (body : string -> T unit) :
  (forall line ix, f (fst (body line ix)) = f ix) ->
  forall lines ix, f (fst (for_lines body lines ix)) = f ix.
Proof.
  intros Hbody lines. induction lines as [|l lines IH]; intro ix; [reflexivity|].
  cbn [for_lines]. unfold bindT. specialize (Hbody l ix).
  destruct (body l ix) as [ix1 [e|[]]]; cbn [fst] in *; [exact Hbody|].
  now rewrite IH.
Qed.

Lemma block_frame {X} (f : Indexer -> X) (reset : Indexer -> Indexer)
  (file : option string) (body : string -> T unit) :
  (forall ix, f (reset ix) = f ix) ->
  (forall line ix, f (fst (body line ix)) = f ix) ->
  forall ix,
    f (fst (bindT (modify reset) (fun _ =>
            bindT (open_lines file) (fun lines =>
            for_lines body lines)) ix)) = f ix.
Proof.
  intros Hreset Hbody ix. unfold bindT, modify, open_lines.
  destruct file as [s|]; cbn; [|apply Hreset].
  transitivity (f (reset ix)); [|apply Hreset].
  pose proof (for_lines_frame f body Hbody (readlines s) (reset ix)) as F.
  destruct (for_lines body (readlines s) (reset ix)) as [ix1 [e|[]]];
    exact F.
Qed.

Ltac line_frame :=
  let line := fresh "line" in
  let jx := fresh "jx" in
  intros line jx;
  match goal with
  | |- context [Str.split comma (Str.strip line)] =>
      destruct (Str.split comma (Str.strip line))
        as [|? [|? [|? [|? [|? [|? [|? ?]]]]]]]
  end; try reflexivity;
  unfold bindT, intT, floatT;
  repeat match goal with
         | |- context [Builtins.py_int ?s] => destruct (Builtins.py_int s)
         | |- context [py_float ?s] => destruct (py_float s)
         end; reflexivity.

Lemma load_documents_frame (files : Files) (ix : Indexer) :
  documents_frame (fst (load_documents files ix)) = documents_frame ix.
Proof.
  apply block_frame; [reflexivity|]. unfold load_document_line. line_frame.
Qed.

Lemma load_terms_frame (files : Files) (ix : Indexer) :
  terms_frame (fst (load_terms files ix)) = terms_frame ix.
Proof.
  apply block_frame; [reflexivity|]. unfold load_term_line. line_frame.
Qed.

Lemma load_postings_frame (files : Files) (ix : Indexer) :
  postings_frame (fst (load_postings files ix)) = postings_frame ix.
Proof.
  apply block_frame; [reflexivity|]. unfold load_posting_line. line_frame.
Qed.

Lemma load_doc_lengths_frame (files : Files) (ix : Indexer) :
  doc_lengths_frame (fst (load_doc_lengths files ix)) = doc_lengths_frame ix.
Proof.
  apply block_frame; [reflexivity|]. unfold load_doc_length_line. line_frame.
Qed.

End Loading.

(* ------------------------------------------------------------------ *)
(** ** Lines and fields *)

Lemma plain_not_comma (c : ascii) : plain_char c = true -> not_comma c = true.
Proof. unfold plain_char, not_comma. now rewrite andb_true_iff. Qed.

Lemma plain_not_newline (c : ascii) :
  plain_char c = true -> not_newline c = true.
Proof. ascii_cases c; intro E; try reflexivity; discriminate E. Qed.

Lemma plain_not_space (c : ascii) :
  plain_char c = true -> negb (Chars.is_space c) = true.
Proof. unfold plain_char. now rewrite andb_true_iff. Qed.

Lemma forallb_app (p : ascii -> bool) (a b : string) :
  Str.forallb p (a ++ b) = Str.forallb p a && Str.forallb p b.
Proof. induction a as [|c a IH]; simpl; [reflexivity|]. now rewrite IH, andb_assoc. Qed.

Lemma append_assoc (a b c : string) : (a ++ b) ++ c = a ++ (b ++ c).
Proof. induction a as [|x a IH]; simpl; congruence. Qed.

Lemma append_empty_r (a : string) : a ++ EmptyString = a.
Proof. induction a as [|x a IH]; simpl; congruence. Qed.

Lemma split_no_sep (sep : ascii) (s : string) :
  Str.forallb (fun c => negb (Ascii.eqb c sep)) s = true ->
  Str.split sep s = [s].
Proof.
  induction s as [|c s IH]; simpl; [reflexivity|].
  rewrite andb_true_iff, negb_true_iff. intros [Hc Hs].
  now rewrite Hc, (IH Hs).
Qed.

Lemma split_field (sep : ascii) (a rest : string) :
  Str.forallb (fun c => negb (Ascii.eqb c sep)) a = true ->
  Str.split sep (a ++ String sep rest) = a :: Str.split sep rest.
Proof.
  induction a as [|c a IH]; simpl.
  - now rewrite Ascii.eqb_refl.
  - rewrite andb_true_iff, negb_true_iff. intros [Hc Ha].
    now rewrite Hc, (IH Ha).
Qed.

Lemma lstrip_no_leading_space (s : string) :
  starts_with_space s = false -> Str.lstrip s = s.
Proof. destruct s as [|c s]; simpl; [reflexivity|]. now intros ->. Qed.

Lemma rstrip_no_trailing_space (s : string) :
  ends_with_space s = false -> Str.rstrip s = s.
Proof.
  induction s as [|c s IH]; [reflexivity|].
  cbn [ends_with_space Str.rstrip]. destruct s as [|c' s].
  - cbn. now intros ->.
  - intro E. rewrite (IH E). reflexivity.
Qed.

Lemma strip_tidy (s : string) :
  starts_with_space s = false -> ends_with_space s = false -> Str.strip s = s.
Proof.
  intros Hs He. unfold Str.strip.
  rewrite lstrip_no_leading_space by assumption.
  now apply rstrip_no_trailing_space.
Qed.

Lemma ends_with_space_app (a b : string) :
  b <> EmptyString -> ends_with_space (a ++ b) = ends_with_space b.
Proof.
  intro Hb. induction a as [|c a IH]; [reflexivity|].
  cbn [append ends_with_space]. rewrite IH.
  destruct (a ++ b) eqn:E; [|reflexivity].
  destruct a; [cbn in E; congruence | discriminate].
Qed.

Lemma no_space_ends (s : string) :
  Str.forallb (fun c => negb (Chars.is_space c)) s = true ->
  ends_with_space s = false.
Proof.
  induction s as [|c s IH]; [reflexivity|].
  cbn [Str.forallb ends_with_space].
  rewrite andb_true_iff, negb_true_iff. intros [Hc Hs].
  destruct s; [exact Hc | now apply IH].
Qed.

(** *** Lines of a file *)

Lemma translate_newlines_none (s : string) :
  Str.forallb (fun c => negb (Ascii.eqb c cr)) s = true ->
  translate_newlines s = s.
Proof.
  induction s as [|c s IH]; [reflexivity|].
  cbn [Str.forallb translate_newlines].
  rewrite andb_true_iff, negb_true_iff. intros [Hc Hs].
  now rewrite Hc, (IH Hs).
Qed.

Lemma not_newline_cr (c : ascii) :
  not_newline c = true -> negb (Ascii.eqb c cr) = true.
Proof. unfold not_newline. now rewrite andb_true_iff. Qed.

Lemma not_newline_nl (c : ascii) :
  not_newline c = true -> negb (Ascii.eqb c nl) = true.
Proof. unfold not_newline. now rewrite andb_true_iff. Qed.

Lemma unlines_no_cr (ls : list string) :
  Forall line_ok ls ->
  Str.forallb (fun c => negb (Ascii.eqb c cr)) (unlines ls) = true.
Proof.
  induction 1 as [|l ls Hl Hls IH]; [reflexivity|].
  cbn [unlines]. rewrite forallb_app. apply andb_true_iff. split.
  - revert Hl. apply forallb_impl, not_newline_cr.
  - cbn [Str.forallb]. rewrite IH. reflexivity.
Qed.

Lemma split_unlines (ls : list string) :
  Forall line_ok ls ->
  Str.split nl (unlines ls) = (ls ++ [EmptyString])%list.
Proof.
  induction 1 as [|l ls Hl Hls IH]; [reflexivity|].
  cbn [unlines]. rewrite split_field, IH; [reflexivity|].
  revert Hl. apply forallb_impl, not_newline_nl.
Qed.

Lemma drop_last_empty (ls : list string) :
  drop_last_if_empty (ls ++ [EmptyString]) = ls.
Proof.
  induction ls as [|l ls IH]; [reflexivity|].
  cbn [app drop_last_if_empty]. rewrite IH.
  destruct (ls ++ [EmptyString])%list eqn:E; [|reflexivity].
  now destruct ls.
Qed.

(** Reading back what was written line by line gives the lines. *)
Lemma readlines_unlines (ls : list string) :
  Forall line_ok ls -> readlines (unlines ls) = ls.
Proof.
  intro Hls. unfold readlines.
  rewrite translate_newlines_none by now apply unlines_no_cr.
  rewrite split_unlines by assumption. apply drop_last_empty.
Qed.

(** *** Integers as text *)

Lemma uint_digits (d : Decimal.uint) :
  Str.forallb Chars.is_digit (NilEmpty.string_of_uint d) = true.
Proof. induction d; cbn; auto. Qed.

Lemma digit_plain (c : ascii) : Chars.is_digit c = true -> plain_char c = true.
Proof. ascii_cases c; intro E; try reflexivity; discriminate E. Qed.

Lemma digit_not_underscore (c : ascii) :
  Chars.is_digit c = true -> Ascii.eqb c "_" = false.
Proof. ascii_cases c; intro E; try reflexivity; discriminate E. Qed.

Lemma digit_not_sign (c : ascii) :
  Chars.is_digit c = true -> Ascii.eqb c "+" || Ascii.eqb c "-" = false.
Proof. ascii_cases c; intro E; try reflexivity; discriminate E. Qed.

Lemma digitpart_tail_digits (s rest : string) :
  Str.forallb Chars.is_digit s = true ->
  Builtins.digitpart_tail (s ++ rest) = Builtins.digitpart_tail rest.
Proof.
  induction s as [|c s IH]; [reflexivity|].
  cbn [Str.forallb append Builtins.digitpart_tail].
  rewrite andb_true_iff. intros [Hc Hs]. now rewrite Hc, (IH Hs).
Qed.

Lemma remove_underscores_digits (s : string) :
  Str.forallb Chars.is_digit s = true -> Builtins.remove_underscores s = s.
Proof.
  induction s as [|c s IH]; [reflexivity|].
  cbn [Str.forallb Builtins.remove_underscores].
  rewrite andb_true_iff. intros [Hc Hs].
  now rewrite (digit_not_underscore c Hc), (IH Hs).
Qed.

Lemma digits_of_digits (n : N) : Str.forallb Chars.is_digit (digits_of n) = true.
Proof. apply uint_digits. Qed.

Lemma digits_of_read (n : N) :
  NilEmpty.uint_of_string (digits_of n) = Some (N.to_uint n).
Proof. apply NilEmpty.usu. Qed.

Lemma digits_of_nonempty (n : N) : digits_of n <> EmptyString.
Proof.
  intro E. pose proof (digits_of_read n) as R. rewrite E in R. cbn in R.
  injection R as R. pose proof (DecimalN.Unsigned.of_to n) as O.
  rewrite <- R in O. cbn in O. subst n. discriminate R.
Qed.

Lemma int_syntax_digits (n : N) : Builtins.int_syntax (digits_of n) = true.
Proof.
  pose proof (digits_of_digits n) as Hd. pose proof (digits_of_nonempty n) as Hn.
  unfold Builtins.int_syntax, Builtins.digitpart.
  destruct (digits_of n) as [|c s]; [congruence|].
  cbn in Hd. apply andb_true_iff in Hd as [Hc Hs]. rewrite Hc.
  rewrite <- (append_empty_r s), digitpart_tail_digits by assumption.
  reflexivity.
Qed.

Lemma str_of_int_plain (z : Z) :
  Str.forallb plain_char (Builtins.str_of_int z) = true.
Proof.
  unfold Builtins.str_of_int. fold (digits_of (Z.abs_N z)).
  assert (Hd : Str.forallb plain_char (digits_of (Z.abs_N z)) = true).
  { generalize (digits_of_digits (Z.abs_N z)). apply forallb_impl, digit_plain. }
  destruct (z <? 0); [cbn; now rewrite Hd | exact Hd].
Qed.

Lemma str_of_int_nonempty (z : Z) : Builtins.str_of_int z <> EmptyString.
Proof.
  unfold Builtins.str_of_int. destruct (z <? 0); [discriminate|].
  apply digits_of_nonempty.
Qed.

Lemma py_int_str_of_int (z : Z) :
  Builtins.py_int (Builtins.str_of_int z) = Some z.
Proof.
  unfold Builtins.py_int.
  rewrite strip_no_space
    by (generalize (str_of_int_plain z); apply forallb_impl, plain_not_space).
  unfold Builtins.str_of_int. fold (digits_of (Z.abs_N z)).
  assert (Hread :
    forall n, NilEmpty.uint_of_string (Builtins.remove_underscores (digits_of n))
              = Some (N.to_uint n)).
  { intro n. rewrite remove_underscores_digits by apply digits_of_digits.
    apply digits_of_read. }
  destruct (Z.ltb_spec z 0) as [Hneg|Hpos].
  - cbn [Builtins.drop_sign Builtins.is_negative]. cbn.
    rewrite int_syntax_digits, Hread, DecimalN.Unsigned.of_to.
    f_equal. lia.
  - pose proof (digits_of_digits (Z.abs_N z)) as Hd.
    pose proof (digits_of_nonempty (Z.abs_N z)) as Hn.
    assert (Hsign : Builtins.drop_sign (digits_of (Z.abs_N z))
                    = digits_of (Z.abs_N z)
                    /\ Builtins.is_negative (digits_of (Z.abs_N z)) = false).
    { destruct (digits_of (Z.abs_N z)) as [|c s]; [congruence|].
      cbn in Hd. apply andb_true_iff in Hd as [Hc _].
      pose proof (digit_not_sign c Hc) as Hs. cbn. rewrite Hs.
      apply orb_false_iff in Hs as [_ ->]. now split. }
    destruct Hsign as [-> ->].
    rewrite int_syntax_digits, Hread, DecimalN.Unsigned.of_to.
    f_equal. lia.
Qed.

(* ------------------------------------------------------------------ *)
(** ** Saving and loading again *)

Section DictAppend.
Context {K V : Type} `{EqKey K}.

Lemma get_last (d : Dict.t K V) (k : K) (v : V) :
  ~ In k (Dict.keys d) -> Dict.get (d ++ [(k, v)])%list k = Some v.
Proof.
  induction d as [|[k' v'] d IH]; cbn; intro Hn.
  - now rewrite keqb_refl.
  - rewrite keqb_neq by tauto. apply IH. tauto.
Qed.

Lemma set_last (d : Dict.t K V) (k : K) (v v' : V) :
  ~ In k (Dict.keys d) ->
  Dict.set (d ++ [(k, v)])%list k v' = (d ++ [(k, v')])%list.
Proof.
  induction d as [|[k0 v0] d IH]; cbn; intro Hn.
  - now rewrite keqb_refl.
  - rewrite keqb_neq by tauto. rewrite IH by tauto. reflexivity.
Qed.

Lemma keys_app (d1 d2 : Dict.t K V) :
  Dict.keys (d1 ++ d2)%list = (Dict.keys d1 ++ Dict.keys d2)%list.
Proof. apply map_app. Qed.

(** Writing the entries of a dict into another, one after the
    other, appends them when all the keys are distinct. *)
Lemma fold_set_appends (d2 d1 : Dict.t K V) :
  NoDup (Dict.keys (d1 ++ d2)%list) ->
  fold_left (fun d e => Dict.set d (fst e) (snd e)) d2 d1 = (d1 ++ d2)%list.
Proof.
  revert d1. induction d2 as [|[k v] d2 IH]; intros d1 Hnd.
  - now rewrite app_nil_r.
  - cbn [fold_left fst snd].
    assert (Hk : ~ In k (Dict.keys d1)).
    { rewrite keys_app in Hnd. cbn in Hnd.
      apply NoDup_remove_2 in Hnd. rewrite in_app_iff in Hnd. tauto. }
    rewrite set_fresh by exact Hk.
    replace (d1 ++ (k, v) :: d2)%list with ((d1 ++ [(k, v)]) ++ d2)%list
      in * by now rewrite <- app_assoc.
    now apply IH.
Qed.

End DictAppend.

Section RoundTrip.
Context `{PyFloat}.

(** A run of lines each of which is read as one update of the index. *)
Lemma for_lines_updates {E} (line : E -> string)
  (update : E -> Indexer -> Indexer) (body : string -> T unit)
  (entries : list E) :
  (forall e ix, In e entries -> body (line e) ix = (update e ix, inr tt)) ->
  forall ix,
    for_lines body (List.map line entries) ix
    = (fold_left (fun ix e => update e ix) entries ix, inr tt).
Proof.
  induction entries as [|e entries IH]; intros Hbody ix; [reflexivity|].
  cbn [List.map for_lines fold_left]. unfold bindT.
  rewrite Hbody by now left.
  apply IH. intros e' ix' Hin. apply Hbody. now right.
Qed.

(** *** Tables keyed by a string: documents and terms *)

Lemma key_ok_parts (s : string) :
  key_ok s = true ->
  Str.forallb not_comma s = true /\ Str.forallb not_newline s = true
  /\ starts_with_space s = false.
Proof.
  unfold key_ok. rewrite andb_true_iff, negb_true_iff. intros [Ha Hs].
  repeat split; [| |exact Hs]; revert Ha; apply forallb_impl; intro c;
    rewrite andb_true_iff; tauto.
Qed.

Lemma key_line_ok (e : string * Z) :
  key_ok (fst e) = true -> line_ok (key_line e).
Proof.
  intro Hk. apply key_ok_parts in Hk as (_ & Hn & _).
  unfold line_ok, key_line, join_fields. cbn [String.concat].
  rewrite forallb_app, Hn. cbn.
  generalize (str_of_int_plain (snd e)). apply forallb_impl, plain_not_newline.
Qed.

Lemma key_line_fields (e : string * Z) :
  key_ok (fst e) = true ->
  Str.split comma (Str.strip (key_line e))
  = [fst e; Builtins.str_of_int (snd e)].
Proof.
  intro Hk. apply key_ok_parts in Hk as (Hc & _ & Hs).
  unfold key_line, join_fields. cbn [String.concat].
  change ("," ++ Builtins.str_of_int (snd e))
    with (String comma (Builtins.str_of_int (snd e))).
  pose proof (str_of_int_plain (snd e)) as Hp.
  rewrite strip_tidy.
  - rewrite split_field by exact Hc. rewrite split_no_sep; [reflexivity|].
    revert Hp. apply forallb_impl, plain_not_comma.
  - destruct (fst e); [reflexivity | exact Hs].
  - rewrite ends_with_space_app by discriminate.
    cbn [ends_with_space].
    pose proof (str_of_int_nonempty (snd e)) as Hne.
    destruct (Builtins.str_of_int (snd e)) eqn:E; [congruence|].
    rewrite <- E in *. apply no_space_ends.
    revert Hp. apply forallb_impl, plain_not_space.
Qed.

Lemma load_document_line_reads (e : string * Z) (ix : Indexer) :
  key_ok (fst e) = true ->
  load_document_line (key_line e) ix = (set_document e ix, inr tt).
Proof.
  intro Hk. unfold load_document_line. rewrite key_line_fields by exact Hk.
  unfold bindT, intT. now rewrite py_int_str_of_int.
Qed.

Lemma load_term_line_reads (e : string * Z) (ix : Indexer) :
  key_ok (fst e) = true ->
  load_term_line (key_line e) ix = (set_term e ix, inr tt).
Proof.
  intro Hk. unfold load_term_line. rewrite key_line_fields by exact Hk.
  unfold bindT, intT. now rewrite py_int_str_of_int.
Qed.

Lemma fold_set_document (d : Dict.t string Z) (ix : Indexer) :
  documents (fold_left (fun ix e => set_document e ix) d ix)
  = fold_left (fun d e => Dict.set d (fst e) (snd e)) d (documents ix).
Proof. revert ix. induction d as [|e d IH]; intro ix; [reflexivity|]. apply IH. Qed.

Lemma fold_set_term (d : Dict.t string Z) (ix : Indexer) :
  terms (fold_left (fun ix e => set_term e ix) d ix)
  = fold_left (fun d e => Dict.set d (fst e) (snd e)) d (terms ix).
Proof. revert ix. induction d as [|e d IH]; intro ix; [reflexivity|]. apply IH. Qed.

Lemma key_lines_form (d : Dict.t string Z) :
  List.map (fun '(k, v) => join_fields [k; Builtins.str_of_int v]) d
  = List.map key_line d.
Proof. apply map_ext. now intros [k v]. Qed.

Lemma key_lines_ok (d : Dict.t string Z) :
  keys_ok d -> Forall line_ok (List.map key_line d).
Proof.
  intro Hd. apply Forall_map. revert Hd. apply Forall_impl.
  intros e. apply key_line_ok.
Qed.

Lemma load_documents_saved (ix ix0 : Indexer) :
  Dict.wf (documents ix) -> keys_ok (documents ix) ->
  exists ix1,
    load_documents (save_index ix) ix0 = (ix1, inr tt)
    /\ documents ix1 = documents ix.
Proof.
  intros Hwf Hok. unfold load_documents, bindT, modify, open_lines, retT.
  cbn [save_index documents_dat]. unfold documents_lines.
  rewrite key_lines_form, readlines_unlines by now apply key_lines_ok.
  rewrite (for_lines_updates key_line set_document).
  - eexists. split; [reflexivity|].
    rewrite fold_set_document. cbn [documents with_documents].
    now apply fold_set_appends.
  - intros e jx Hin. apply load_document_line_reads.
    unfold keys_ok in Hok. rewrite Forall_forall in Hok. now apply Hok.
Qed.

Lemma load_terms_saved (ix ix0 : Indexer) :
  Dict.wf (terms ix) -> keys_ok (terms ix) ->
  exists ix1,
    load_terms (save_index ix) ix0 = (ix1, inr tt)
    /\ terms ix1 = terms ix.
Proof.
  intros Hwf Hok. unfold load_terms, bindT, modify, open_lines, retT.
  cbn [save_index terms_dat]. unfold terms_lines.
  rewrite key_lines_form, readlines_unlines by now apply key_lines_ok.
  rewrite (for_lines_updates key_line set_term).
  - eexists. split; [reflexivity|].
    rewrite fold_set_term. cbn [terms with_terms].
    now apply fold_set_appends.
  - intros e jx Hin. apply load_term_line_reads.
    unfold keys_ok in Hok. rewrite Forall_forall in Hok. now apply Hok.
Qed.

(** *** Lines of plain fields: postings and document lengths *)

Lemma join_chars (p : ascii -> bool) (fs : list string) :
  p comma = true -> Forall (fun f => Str.forallb p f = true) fs ->
  Str.forallb p (join_fields fs) = true.
Proof.
  intros Hc. induction 1 as [|f fs Hf Hfs IH]; [reflexivity|].
  unfold join_fields in *. cbn [String.concat].
  destruct fs as [|g fs]; [exact Hf|].
  rewrite forallb_app, Hf. cbn [append Str.forallb].
  change (p ","%char) with (p comma). now rewrite Hc, IH.
Qed.

Lemma split_join (fs : list string) :
  fs <> [] -> Forall (fun f => Str.forallb not_comma f = true) fs ->
  Str.split comma (join_fields fs) = fs.
Proof.
  intros Hne Hfs. induction Hfs as [|f fs Hf Hfs IH]; [congruence|].
  unfold join_fields in *. cbn [String.concat].
  destruct fs as [|g fs]; [now apply split_no_sep|].
  change ("," ++ String.concat "," (g :: fs))
    with (String comma (String.concat "," (g :: fs))).
  rewrite split_field by exact Hf. f_equal. apply IH. discriminate.
Qed.

Lemma plain_line (fs : list string) :
  fs <> [] -> Forall plain fs ->
  line_ok (join_fields fs)
  /\ Str.split comma (Str.strip (join_fields fs)) = fs.
Proof.
  intros Hne Hfs. split.
  - apply join_chars; [reflexivity|]. revert Hfs. apply Forall_impl.
    intro f. apply forallb_impl, plain_not_newline.
  - rewrite strip_no_space.
    + apply split_join; [exact Hne|]. revert Hfs. apply Forall_impl.
      intro f. apply forallb_impl, plain_not_comma.
    + apply join_chars; [reflexivity|]. revert Hfs. apply Forall_impl.
      intro f. apply forallb_impl, plain_not_space.
Qed.

Context `{!PyFloatLaws}.

Lemma py_float_fmt6 (x : float) : py_float (fmt6 x) = Some (float_value (fmt6 x)).
Proof. unfold py_float. now rewrite fmt6_readable. Qed.

(** *** Document lengths *)

Lemma length_line_plain (e : Z * float) :
  Forall plain [Builtins.str_of_int (fst e); fmt6 (snd e)].
Proof.
  repeat constructor; [apply str_of_int_plain | apply fmt6_plain].
Qed.

Lemma length_line_parse (e : Z * float) :
  line_ok (length_line e)
  /\ Str.split comma (Str.strip (length_line e))
     = [Builtins.str_of_int (fst e); fmt6 (snd e)].
Proof. apply plain_line; [discriminate | apply length_line_plain]. Qed.

Lemma load_doc_length_line_reads (e : Z * float) (ix : Indexer) :
  load_doc_length_line (length_line e) ix = (set_length e ix, inr tt).
Proof.
  unfold load_doc_length_line.
  destruct (length_line_parse e) as [_ ->].
  unfold bindT, floatT, intT.
  now rewrite py_float_fmt6, py_int_str_of_int.
Qed.

Lemma length_line_reread (e : Z * float) :
  length_line (reread e) = length_line e.
Proof. unfold length_line, reread. cbn [fst snd]. now rewrite fmt6_canonical. Qed.

Lemma fold_set_length (d : Dict.t Z float) (ix : Indexer) :
  doc_lengths (fold_left (fun ix e => set_length e ix) d ix)
  = fold_left (fun d e => Dict.set d (fst e) (snd e)) (List.map reread d)
              (doc_lengths ix).
Proof.
  revert ix. induction d as [|e d IH]; intro ix; [reflexivity|].
  cbn [fold_left List.map]. now rewrite IH.
Qed.

Lemma length_lines_form (d : Dict.t Z float) :
  List.map (fun '(k, v) => join_fields [Builtins.str_of_int k; fmt6 v]) d
  = List.map length_line d.
Proof. apply map_ext. now intros [k v]. Qed.

Lemma load_doc_lengths_saved (ix ix0 : Indexer) :
  Dict.wf (doc_lengths ix) ->
  exists ix1,
    load_doc_lengths (save_index ix) ix0 = (ix1, inr tt)
    /\ doc_lengths_lines ix1 = doc_lengths_lines ix.
Proof.
  intros Hwf. unfold load_doc_lengths, bindT, modify, open_lines, retT.
  cbn [save_index doc_lengths_dat]. unfold doc_lengths_lines at 1.
  rewrite length_lines_form, readlines_unlines.
  2:{ apply Forall_map, Forall_forall. intros e _.
      apply length_line_parse. }
  rewrite (for_lines_updates length_line set_length)
    by (intros; apply load_doc_length_line_reads).
  eexists. split; [reflexivity|].
  unfold doc_lengths_lines. rewrite fold_set_length.
  cbn [doc_lengths with_doc_lengths].
  rewrite fold_set_appends.
  - cbn [app]. rewrite !length_lines_form, map_map.
    apply map_ext. intro e. apply length_line_reread.
  - cbn [app]. unfold Dict.keys. rewrite map_map. exact Hwf.
Qed.

(** *** Postings *)

Lemma posting_line_fields (term_id : Z) (e : Z * posting) :
  posting_line term_id e = join_fields (posting_fields term_id e).
Proof. now destruct e. Qed.

Lemma posting_line_parse (term_id : Z) (e : Z * posting) :
  line_ok (posting_line term_id e)
  /\ Str.split comma (Str.strip (posting_line term_id e))
     = posting_fields term_id e.
Proof.
  rewrite posting_line_fields. apply plain_line; [discriminate|].
  unfold posting_fields, fmt6_or_zero.
  repeat constructor; try apply str_of_int_plain; apply fmt6_plain.
Qed.

Lemma posting_line_reload (term_id : Z) (e : Z * posting) :
  posting_line term_id (reload_entry e) = posting_line term_id e.
Proof.
  rewrite !posting_line_fields. unfold posting_fields, reload_entry, reload.
  cbn [fst snd tf tf_idf idf df fmt6_or_zero int_or_zero].
  unfold fmt6_or_zero. now rewrite !fmt6_canonical.
Qed.

Lemma load_posting_line_reads (e : Z * (Z * posting)) (ix : Indexer) :
  load_posting_line (posting_line (fst e) (snd e)) ix
  = (set_posting_entry e ix, inr tt).
Proof.
  unfold load_posting_line.
  destruct (posting_line_parse (fst e) (snd e)) as [_ ->].
  unfold posting_fields, bindT, floatT, intT, fmt6_or_zero.
  now rewrite !py_float_fmt6, !py_int_str_of_int.
Qed.

Lemma postings_lines_flatten (pt : Dict.t Z (Dict.t Z posting)) :
  List.flat_map (fun '(term_id, doc_postings) =>
                   List.map (posting_line term_id) doc_postings) pt
  = List.map (fun e => posting_line (fst e) (snd e)) (flatten pt).
Proof.
  unfold flatten. induction pt as [|[t dp] pt IH]; [reflexivity|].
  cbn [flat_map fst snd]. rewrite map_app, map_map, IH. reflexivity.
Qed.

Lemma fold_set_posting_entry (es : list (Z * (Z * posting))) (ix : Indexer) :
  postings (fold_left (fun ix e => set_posting_entry e ix) es ix)
  = fold_left add_posting es (postings ix).
Proof. revert ix. induction es as [|e es IH]; intro ix; [reflexivity|]. apply IH. Qed.

Lemma add_postings_of_term_more (t : Z) (dp2 dp1 : Dict.t Z posting)
  (acc : Dict.t Z (Dict.t Z posting)) :
  ~ In t (Dict.keys acc) -> NoDup (Dict.keys (dp1 ++ dp2)%list) ->
  fold_left add_posting (List.map (fun dp => (t, dp)) dp2)
            (acc ++ [(t, List.map reload_entry dp1)])%list
  = (acc ++ [(t, List.map reload_entry (dp1 ++ dp2))])%list.
Proof.
  intro Ht. revert dp1. induction dp2 as [|[d p] dp2 IH]; intros dp1 Hnd.
  - now rewrite app_nil_r.
  - cbn [List.map fold_left]. unfold add_posting at 2, set_posting.
    cbn [fst snd]. rewrite get_last by exact Ht.
    assert (Hd : ~ In d (Dict.keys (List.map reload_entry dp1))).
    { unfold Dict.keys. rewrite map_map. cbn [reload_entry fst].
      rewrite keys_app in Hnd. cbn in Hnd.
      apply NoDup_remove_2 in Hnd. rewrite in_app_iff in Hnd.
      unfold Dict.keys in Hnd. tauto. }
    rewrite (set_fresh (List.map reload_entry dp1) d) by exact Hd.
    rewrite set_last by exact Ht.
    replace (List.map reload_entry dp1 ++ [(d, reload p)])%list
      with (List.map reload_entry (dp1 ++ [(d, p)])%list)
      by now rewrite map_app.
    rewrite IH by now rewrite <- app_assoc.
    now rewrite <- app_assoc.
Qed.

Lemma add_postings_of_term (t : Z) (dp : Dict.t Z posting)
  (acc : Dict.t Z (Dict.t Z posting)) :
  ~ In t (Dict.keys acc) -> Dict.wf dp ->
  fold_left add_posting (List.map (fun dp => (t, dp)) dp) acc
  = (acc ++ reloaded [(t, dp)])%list.
Proof.
  intros Ht Hwf. destruct dp as [|[d p] dp].
  - cbn. now rewrite app_nil_r.
  - cbn [List.map fold_left]. unfold add_posting at 2, set_posting.
    cbn [fst snd]. rewrite get_none_not_in by exact Ht.
    change (Dict.set [] d (reload p)) with (List.map reload_entry [(d, p)]).
    rewrite (set_fresh acc t) by exact Ht.
    rewrite add_postings_of_term_more by assumption.
    reflexivity.
Qed.

Lemma reloaded_cons (e : Z * Dict.t Z posting)
  (pt : Dict.t Z (Dict.t Z posting)) :
  reloaded (e :: pt) = (reloaded [e] ++ reloaded pt)%list.
Proof. unfold reloaded. cbn [flat_map]. now rewrite app_nil_r. Qed.

Lemma add_postings_of_table (pt acc : Dict.t Z (Dict.t Z posting)) :
  NoDup (Dict.keys acc ++ Dict.keys pt)%list ->
  Forall (fun e => Dict.wf (snd e)) pt ->
  fold_left add_posting (flatten pt) acc = (acc ++ reloaded pt)%list.
Proof.
  revert acc. induction pt as [|[t dp] pt IH]; intros acc Hnd Hwf.
  - cbn. now rewrite app_nil_r.
  - unfold flatten. cbn [flat_map fst snd]. rewrite fold_left_app.
    inversion Hwf as [|? ? Hdp Hrest]; subst. cbn [snd] in Hdp.
    assert (Ht : ~ In t (Dict.keys acc)).
    { cbn in Hnd. apply NoDup_remove_2 in Hnd. rewrite in_app_iff in Hnd. tauto. }
    rewrite add_postings_of_term by assumption.
    fold (flatten pt). rewrite IH; [|  | exact Hrest].
    + now rewrite <- app_assoc, <- reloaded_cons.
    + unfold reloaded. cbn [flat_map fst snd]. rewrite app_nil_r.
      cbn [Dict.keys List.map fst] in Hnd.
      destruct dp as [|e dp].
      * rewrite app_nil_r. now apply NoDup_remove_1 in Hnd.
      * rewrite keys_app. cbn [Dict.keys List.map fst].
        now rewrite <- app_assoc.
Qed.

Lemma reloaded_lines (pt : Dict.t Z (Dict.t Z posting)) :
  List.map (fun e => posting_line (fst e) (snd e)) (flatten (reloaded pt))
  = List.map (fun e => posting_line (fst e) (snd e)) (flatten pt).
Proof.
  induction pt as [|[t dp] pt IH]; [reflexivity|].
  unfold reloaded, flatten in *. cbn [flat_map fst snd].
  destruct dp as [|e dp].
  - cbn [app List.map]. exact IH.
  - cbn [app flat_map fst snd]. rewrite !map_app, IH. f_equal.
    rewrite !map_map. cbn [fst snd]. apply map_ext.
    intro e'. apply posting_line_reload.
Qed.

Lemma load_postings_saved (ix ix0 : Indexer) :
  Dict.wf (postings ix) ->
  Forall (fun e => Dict.wf (snd e)) (postings ix) ->
  exists ix1,
    load_postings (save_index ix) ix0 = (ix1, inr tt)
    /\ postings_lines ix1 = postings_lines ix.
Proof.
  intros Hwf Hin. unfold load_postings, bindT, modify, open_lines, retT.
  cbn [save_index postings_dat]. unfold postings_lines at 1.
  rewrite postings_lines_flatten, readlines_unlines.
  2:{ apply Forall_map, Forall_forall. intros e _. apply posting_line_parse. }
  rewrite (for_lines_updates (fun e => posting_line (fst e) (snd e))
             set_posting_entry)
    by (intros; apply load_posting_line_reads).
  eexists. split; [reflexivity|].
  unfold postings_lines. rewrite fold_set_posting_entry.
  cbn [postings with_postings].
  rewrite add_postings_of_table by assumption.
  cbn [app]. rewrite !postings_lines_flatten. apply reloaded_lines.
Qed.

(** *** The whole index *)

(** C2, amended: for every index whose document paths and terms hold
    no comma and no line break and do not start with white space,
    what was saved loads into any index without error, and saving the
    loaded index writes the same four files, byte for byte. *)
Theorem save_load_save (ix ix0 : Indexer) :
  storable ix ->
  exists ix1,
    load_index (save_index ix) ix0 = (ix1, true)
    /\ save_index ix1 = save_index ix.
Proof.
  intros [D1 D2 T1 T2 P1 P2 L1].
  destruct (load_documents_saved ix ix0 D1 D2) as (i1 & E1 & R1).
  destruct (load_terms_saved ix i1 T1 T2) as (i2 & E2 & R2).
  destruct (load_postings_saved ix i2 P1 P2) as (i3 & E3 & R3).
  destruct (load_doc_lengths_saved ix i3 L1) as (i4 & E4 & R4).
  exists (update_counters i4).
  pose proof (load_terms_frame (save_index ix) i1) as F2.
  pose proof (load_postings_frame (save_index ix) i2) as F3.
  pose proof (load_doc_lengths_frame (save_index ix) i3) as F4.
  rewrite E2 in F2. rewrite E3 in F3. rewrite E4 in F4. cbn [fst] in *.
  injection F2 as A1 _ _ _ _ _ _ _ _.
  injection F3 as B1 _ B3 _ _ _ _ _ _ _.
  injection F4 as C1 _ C3 _ C5 _ _ _ _ _.
  split.
  - unfold load_index, load_index_try, bindT. now rewrite E1, E2, E3, E4.
  - assert (S1 : documents_lines (update_counters i4) = documents_lines ix).
    { unfold documents_lines. cbn. congruence. }
    assert (S2 : terms_lines (update_counters i4) = terms_lines ix).
    { unfold terms_lines. cbn. congruence. }
    assert (S3 : postings_lines (update_counters i4) = postings_lines ix).
    { rewrite <- R3. unfold postings_lines. cbn. congruence. }
    assert (S4 : doc_lengths_lines (update_counters i4) = doc_lengths_lines ix).
    { rewrite <- R4. reflexivity. }
    unfold save_index. now rewrite S1, S2, S3, S4.
Qed.

End RoundTrip.

(* ------------------------------------------------------------------ *)
(** ** The interpretation over the reals meets the laws *)

Module RealFloatFacts.

Import RealFloat.

Lemma positive_iff (x : R) : positive x = true <-> (0 < x)%R.
Proof. unfold positive. destruct (Rlt_dec 0 x); split; auto; discriminate. Qed.

Lemma not_positive (x : R) : (x <= 0)%R -> positive x = false.
Proof. unfold positive. destruct (Rlt_dec 0 x); [lra | reflexivity]. Qed.

Lemma digit_cases (d : N) :
  (d < 10)%N ->
  d = 0%N \/ d = 1%N \/ d = 2%N \/ d = 3%N \/ d = 4%N \/ d = 5%N
  \/ d = 6%N \/ d = 7%N \/ d = 8%N \/ d = 9%N.
Proof. lia. Qed.

Lemma digit_char_spec (d : N) :
  (d < 10)%N ->
  Chars.is_digit (digit_char d) = true /\ digit_val (digit_char d) = d
  /\ Ascii.eqb (digit_char d) "."%char = false.
Proof.
  intro Hd.
  destruct (digit_cases d Hd) as [->|[->|[->|[->|[->|[->|[->|[->|[->| ->]]]]]]]]];
    repeat split.
Qed.

Lemma mod10 (n : N) : (n mod 10 < 10)%N.
Proof. apply N.mod_lt. discriminate. Qed.

Lemma six_digits_digits (r : N) :
  Str.forallb Chars.is_digit (six_digits r) = true.
Proof.
  unfold six_digits. cbn [Str.forallb].
  repeat match goal with
         | |- context [Chars.is_digit (digit_char (?n mod 10))] =>
             rewrite (proj1 (digit_char_spec (n mod 10) (mod10 n)))
         end.
  reflexivity.
Qed.

Lemma six_digits_val (r : N) : (r < 1000000)%N -> digits_val (six_digits r) = r.
Proof.
  intro Hr. unfold digits_val, six_digits. cbn [digits_val_from].
  repeat match goal with
         | |- context [digit_val (digit_char (?n mod 10))] =>
             rewrite (proj1 (proj2 (digit_char_spec (n mod 10) (mod10 n))))
         end.
  pose proof (N.div_mod' r 10). pose proof (N.div_mod' (r / 10) 10).
  pose proof (N.div_mod' (r / 10 / 10) 10).
  pose proof (N.div_mod' (r / 10 / 10 / 10) 10).
  pose proof (N.div_mod' (r / 10 / 10 / 10 / 10) 10).
  pose proof (N.div_mod' (r / 10 / 10 / 10 / 10 / 10) 10).
  assert (r / 10 / 10 / 10 / 10 / 10 / 10 = 0)%N.
  { rewrite !N.Div0.div_div. apply N.div_small. exact Hr. }
  replace (r / 100000)%N with (r / 10 / 10 / 10 / 10 / 10)%N
    by (now rewrite !N.Div0.div_div).
  replace (r / 10000)%N with (r / 10 / 10 / 10 / 10)%N
    by (now rewrite !N.Div0.div_div).
  replace (r / 1000)%N with (r / 10 / 10 / 10)%N
    by (now rewrite !N.Div0.div_div).
  replace (r / 100)%N with (r / 10 / 10)%N by (now rewrite !N.Div0.div_div).
  lia.
Qed.

Lemma six_digits_length (r : N) : String.length (six_digits r) = 6%nat.
Proof. reflexivity. Qed.

Lemma digit_not_point (c : ascii) :
  Chars.is_digit c = true -> negb (Ascii.eqb c "."%char) = true.
Proof. ascii_cases c; intro E; try reflexivity; discriminate E. Qed.

Lemma format6_body (x : R) :
  format6 x
  = (if round6 x <? 0 then "-" else EmptyString) ++ body (Z.abs_N (round6 x)).
Proof. reflexivity. Qed.

Lemma body_plain (a : N) : Str.forallb plain_char (body a) = true.
Proof.
  unfold body. rewrite forallb_app. cbn [Str.forallb].
  apply andb_true_iff. split; [|apply andb_true_iff; split; [reflexivity|]].
  - generalize (digits_of_digits (a / 1000000)). apply forallb_impl, digit_plain.
  - generalize (six_digits_digits (a mod 1000000)).
    apply forallb_impl, digit_plain.
Qed.

Lemma format6_plain (x : R) : Str.forallb plain_char (format6 x) = true.
Proof.
  rewrite format6_body. destruct (round6 x <? 0); cbn [append Str.forallb].
  - now rewrite body_plain.
  - apply body_plain.
Qed.

Lemma body_first_digit (a : N) :
  exists c s, body a = String c s /\ Chars.is_digit c = true.
Proof.
  unfold body. pose proof (digits_of_digits (a / 1000000)) as Hd.
  pose proof (digits_of_nonempty (a / 1000000)) as Hn.
  destruct (digits_of (a / 1000000)) as [|c s]; [congruence|].
  cbn in Hd. apply andb_true_iff in Hd as [Hc _].
  now exists c, (s ++ String "."%char (six_digits (a mod 1000000))).
Qed.

Lemma digitpart_digits (s rest : string) :
  s <> EmptyString -> Str.forallb Chars.is_digit s = true ->
  Builtins.digitpart (s ++ rest) = Some (Builtins.digitpart_tail rest).
Proof.
  intros Hn Hd. destruct s as [|c s]; [congruence|].
  cbn [Str.forallb] in Hd. apply andb_true_iff in Hd as [Hc Hs].
  cbn [append Builtins.digitpart]. rewrite Hc.
  now rewrite digitpart_tail_digits.
Qed.

Lemma after_point (frac : string) :
  frac <> EmptyString -> Str.forallb Chars.is_digit frac = true ->
  Builtins.after_int_digits (String "."%char frac) = true.
Proof.
  intros Hn Hd. unfold Builtins.after_int_digits.
  change (Ascii.eqb "."%char "."%char) with true. cbv iota.
  rewrite <- (append_empty_r frac), digitpart_digits by assumption.
  reflexivity.
Qed.

Lemma body_decimal (a : N) : Builtins.decimal_literal (body a) = true.
Proof.
  unfold Builtins.decimal_literal, body.
  rewrite digitpart_digits
    by (apply digits_of_nonempty || apply digits_of_digits).
  change (Builtins.digitpart_tail (String "."%char ?x))
    with (String "."%char x).
  apply after_point; [discriminate | apply six_digits_digits].
Qed.

Lemma strip_format6 (x : R) : Str.strip (format6 x) = format6 x.
Proof.
  apply strip_no_space. generalize (format6_plain x).
  apply forallb_impl, plain_not_space.
Qed.

Lemma drop_sign_format6 (x : R) :
  Builtins.drop_sign (format6 x) = body (Z.abs_N (round6 x))
  /\ Builtins.is_negative (format6 x) = (round6 x <? 0).
Proof.
  rewrite format6_body. destruct (round6 x <? 0); [now split|].
  cbn [append]. destruct (body_first_digit (Z.abs_N (round6 x)))
    as (c & s & -> & Hc).
  pose proof (digit_not_sign c Hc) as Hs. cbn. rewrite Hs.
  apply orb_false_iff in Hs as [_ ->]. now split.
Qed.

Lemma format6_readable (x : R) : Builtins.float_syntax (format6 x) = true.
Proof.
  unfold Builtins.float_syntax. rewrite strip_format6.
  destruct (drop_sign_format6 x) as [-> _]. now rewrite body_decimal.
Qed.

Lemma nat_val_digits (n : N) : nat_val (digits_of n) = n.
Proof.
  unfold nat_val.
  rewrite remove_underscores_digits by apply digits_of_digits.
  rewrite digits_of_read. apply DecimalN.Unsigned.of_to.
Qed.

Lemma magnitude_body (a : N) :
  magnitude (body a) = (IZR (Z.of_N a) / 1000000)%R.
Proof.
  unfold magnitude, body.
  rewrite split_field.
  2:{ generalize (digits_of_digits (a / 1000000)).
      apply forallb_impl, digit_not_point. }
  rewrite split_no_sep.
  2:{ generalize (six_digits_digits (a mod 1000000)).
      apply forallb_impl, digit_not_point. }
  rewrite nat_val_digits, six_digits_val, six_digits_length
    by (apply N.mod_lt; discriminate).
  pose proof (N.div_mod' a 1000000) as Ha.
  replace (Z.of_N a) with (Z.of_N (a / 1000000) * 1000000
                           + Z.of_N (a mod 1000000)) by lia.
  rewrite plus_IZR, mult_IZR. cbn [pow]. field.
Qed.

Lemma value_format6 (x : R) :
  value (format6 x) = (IZR (round6 x) / 1000000)%R.
Proof.
  unfold value. rewrite strip_format6.
  destruct (drop_sign_format6 x) as [-> ->]. rewrite magnitude_body.
  destruct (Z.ltb_spec (round6 x) 0) as [Hneg|Hpos].
  - replace (Z.of_N (Z.abs_N (round6 x))) with (- round6 x) by lia.
    rewrite opp_IZR. field.
  - replace (Z.of_N (Z.abs_N (round6 x))) with (round6 x) by lia.
    reflexivity.
Qed.

Lemma round6_millionths (k : Z) : round6 (IZR k / 1000000) = k.
Proof.
  unfold round6. symmetry. apply tech_up.
  - replace (IZR k / 1000000 * 1000000)%R with (IZR k) by field. lra.
  - replace (IZR k / 1000000 * 1000000)%R with (IZR k) by field. lra.
Qed.

Lemma format6_canonical (x : R) : format6 (value (format6 x)) = format6 x.
Proof.
  rewrite value_format6, !format6_body. now rewrite round6_millionths.
Qed.

(** The reals, with this way of writing and reading them, meet every
    law. *)
Lemma laws : @PyFloatLaws RealFloat.instance.
Proof.
  constructor; cbn.
  - apply not_positive. lra.
  - apply positive_iff. lra.
  - intros n d Hn Hd. apply positive_iff.
    apply Rdiv_lt_0_compat; now apply IZR_lt.
  - intros d Hd. apply not_positive. unfold Rdiv. rewrite Rmult_0_l. lra.
  - intros n Hn.
    replace (IZR n / IZR n)%R with 1%R; [apply ln_1|].
    field. apply not_0_IZR. lia.
  - apply format6_plain.
  - apply format6_readable.
  - apply format6_canonical.
Qed.

End RealFloatFacts.

(* ================================================================== *)
(** * More of the sources: proofs *)

(* ------------------------------------------------------------------ *)
(** ** The tokenizer *)

Lemma splitchars_from_separator (a : string) (c : ascii) (b run : string) :
  Chars.is_alnum c = false ->
  splitchars_from run (a ++ String c b)
  = (splitchars_from run a ++ splitchars b)%list.
Proof.
  intro Hc. revert run. induction a as [|x a IH]; intro run; simpl.
  - now rewrite Hc.
  - destruct (Chars.is_alnum x).
    + apply IH.
    + rewrite IH. now rewrite app_assoc.
Qed.

Lemma rev_onto_rev_onto (s a b : string) :
  Str.rev_onto (Str.rev_onto s a) b = Str.rev_onto a (s ++ b).
Proof.
  revert a b. induction s as [|c s IH]; intros a b; simpl; [reflexivity|].
  now rewrite IH.
Qed.

Lemma rev_involutive (s : string) : Str.rev (Str.rev s) = s.
Proof.
  unfold Str.rev. rewrite rev_onto_rev_onto. simpl. apply append_empty_r.
Qed.

Lemma splitchars_from_run (t run : string) :
  Str.forallb Chars.is_alnum t = true ->
  splitchars_from run t = flush_run (Str.rev_onto t run).
Proof.
  revert run. induction t as [|c t IH]; intros run Ht; simpl; [reflexivity|].
  simpl in Ht. apply andb_true_iff in Ht as [Hc Ht].
  rewrite Hc. now apply IH.
Qed.

Lemma splitchars_token (t : string) : token_ok t -> splitchars t = [t].
Proof.
  intros [Hne Hal]. unfold splitchars. rewrite splitchars_from_run by exact Hal.
  fold (Str.rev t). unfold flush_run.
  destruct (Str.rev t) as [|c r] eqn:E.
  - exfalso. apply Hne. rewrite <- (rev_involutive t), E. reflexivity.
  - rewrite <- E. now rewrite rev_involutive.
Qed.

(** X1: a character that is neither an ASCII letter nor a digit cuts
    the text in two for the tokenizer: the tokens of the whole are the
    tokens of what comes before it followed by the tokens of what
    comes after. *)
Theorem splitchars_separator (a : string) (c : ascii) (b : string) :
  Chars.is_alnum c = false ->
  splitchars (a ++ String c b) = (splitchars a ++ splitchars b)%list.
Proof. intro Hc. now apply splitchars_from_separator. Qed.

(** X2: tokens joined by a separator that is neither an ASCII letter
    nor a digit are found again, the same and in the same order. *)
Theorem splitchars_join (sep : ascii) (ts : list string) :
  Chars.is_alnum sep = false ->
  Forall token_ok ts ->
  splitchars (String.concat (String sep EmptyString) ts) = ts.
Proof.
  intros Hsep Hts. induction Hts as [|t ts Ht Hts IH]; [reflexivity|].
  destruct ts as [|t' ts].
  - simpl. now apply splitchars_token.
  - change (String.concat (String sep EmptyString) (t :: t' :: ts))
      with (t ++ String sep EmptyString
              ++ String.concat (String sep EmptyString) (t' :: ts)).
    change (String sep EmptyString
              ++ String.concat (String sep EmptyString) (t' :: ts))
      with (String sep (String.concat (String sep EmptyString) (t' :: ts))).
    unfold splitchars in *.
    rewrite splitchars_from_separator by exact Hsep.
    unfold splitchars. rewrite IH.
    fold (splitchars t). now rewrite (splitchars_token t Ht).
Qed.

(* ------------------------------------------------------------------ *)
(** ** Normalizing *)

Lemma lower_space (c : ascii) :
  Chars.is_space (Chars.lower c) = Chars.is_space c.
Proof. ascii_cases c; reflexivity. Qed.

Lemma lower_lower_char (c : ascii) :
  Chars.lower (Chars.lower c) = Chars.lower c.
Proof. ascii_cases c; reflexivity. Qed.

Lemma lower_idempotent (s : string) : Str.lower (Str.lower s) = Str.lower s.
Proof.
  unfold Str.lower. induction s as [|c s IH]; simpl; [reflexivity|].
  now rewrite IH, lower_lower_char.
Qed.

Lemma lower_length (s : string) :
  String.length (Str.lower s) = String.length s.
Proof. unfold Str.lower. induction s as [|c s IH]; simpl; congruence. Qed.

Lemma lower_app (a b : string) :
  Str.lower (a ++ b) = Str.lower a ++ Str.lower b.
Proof. unfold Str.lower. induction a as [|c a IH]; simpl; congruence. Qed.

Lemma lower_lstrip (s : string) :
  Str.lower (Str.lstrip s) = Str.lstrip (Str.lower s).
Proof.
  unfold Str.lower. induction s as [|c s IH]; simpl; [reflexivity|].
  rewrite lower_space. destruct (Chars.is_space c); [exact IH | reflexivity].
Qed.

Lemma lower_rstrip (s : string) :
  Str.lower (Str.rstrip s) = Str.rstrip (Str.lower s).
Proof.
  unfold Str.lower. induction s as [|c s IH]; simpl; [reflexivity|].
  rewrite <- IH, lower_space.
  destruct (Str.rstrip s); simpl; [|reflexivity].
  destruct (Chars.is_space c); reflexivity.
Qed.

Lemma lower_strip (s : string) :
  Str.lower (Str.strip s) = Str.strip (Str.lower s).
Proof. unfold Str.strip. now rewrite lower_rstrip, lower_lstrip. Qed.

Lemma lstrip_starts (s : string) : starts_with_space (Str.lstrip s) = false.
Proof.
  induction s as [|c s IH]; simpl; [reflexivity|].
  destruct (Chars.is_space c) eqn:E; [exact IH | simpl; exact E].
Qed.

Lemma rstrip_starts (s : string) :
  starts_with_space s = false -> starts_with_space (Str.rstrip s) = false.
Proof.
  destruct s as [|c s]; simpl; [reflexivity|]. intro Hc.
  destruct (Str.rstrip s); [rewrite Hc|]; simpl; exact Hc.
Qed.

Lemma rstrip_ends (s : string) : ends_with_space (Str.rstrip s) = false.
Proof.
  induction s as [|c s IH]; simpl; [reflexivity|].
  destruct (Str.rstrip s) as [|d r] eqn:E.
  - destruct (Chars.is_space c) eqn:Hc; simpl; [reflexivity | exact Hc].
  - exact IH.
Qed.

Lemma strip_idempotent (s : string) : Str.strip (Str.strip s) = Str.strip s.
Proof.
  apply strip_tidy; unfold Str.strip.
  - apply rstrip_starts, lstrip_starts.
  - apply rstrip_ends.
Qed.

Lemma normalize_token_lower (t : string) :
  Str.lower (normalize_token t) = normalize_token t.
Proof.
  unfold normalize_token. now rewrite lower_strip, lower_idempotent.
Qed.

(** X3: normalizing a token twice is normalizing it once, and the
    normalized form is its own lower-case form. *)
Theorem normalize_token_idempotent (t : string) :
  normalize_token (normalize_token t) = normalize_token t
  /\ Str.lower (normalize_token t) = normalize_token t.
Proof.
  split; [|apply normalize_token_lower].
  unfold normalize_token at 1. rewrite normalize_token_lower.
  unfold normalize_token. apply strip_idempotent.
Qed.

(* ------------------------------------------------------------------ *)
(** ** The fallback stemmer *)

Lemma take_length (s : string) : Str.take (String.length s) s = s.
Proof. induction s as [|c s IH]; simpl; congruence. Qed.

(** X4: called as the indexer calls it, with the bounds [0] and
    [len(word) - 1], the fallback stemmer [SimpleStemmer] returns the
    lower-case form of the word; on a normalized token it returns the
    token itself, so the terms of the index are the normalized
    tokens. *)
Theorem simple_stemmer_is_lower (word : string) :
  @stem SimpleStemmer word 0 (Z.of_nat (String.length word) - 1)
  = Some (Str.lower word)
  /\ @stem_or_self SimpleStemmer (normalize_token word) = normalize_token word.
Proof.
  assert (E : forall w, @stem SimpleStemmer w 0 (Z.of_nat (String.length w) - 1)
                        = Some (Str.lower w)).
  { intro w. simpl. f_equal. unfold Str.slice_to.
    replace (Z.of_nat (String.length w) - 1 + 1) with
      (Z.of_nat (String.length w)) by lia.
    rewrite (proj2 (Z.leb_le 0 _)) by lia.
    rewrite Nat2Z.id, <- (lower_length w). apply take_length. }
  split; [apply E|].
  unfold stem_or_self. rewrite E. apply normalize_token_lower.
Qed.

(* ------------------------------------------------------------------ *)
(** ** Numbers *)

Lemma int_syntax_decimal (body : string) :
  Builtins.int_syntax body = true -> Builtins.decimal_literal body = true.
Proof.
  unfold Builtins.int_syntax, Builtins.decimal_literal.
  destruct (Builtins.digitpart body) as [[|c r]|]; try discriminate.
  reflexivity.
Qed.

(** X5: whenever [int(s)] returns, [float(s)] returns: the second
    [try] of [is_number] never decides, and [is_number(s)] is true
    exactly when [float(s)] does not raise. *)
Theorem is_number_is_float_syntax (s : string) :
  (forall z, Builtins.py_int s = Some z -> Builtins.float_syntax s = true)
  /\ is_number s = Builtins.float_syntax s.
Proof.
  assert (E : forall z, Builtins.py_int s = Some z ->
                        Builtins.float_syntax s = true).
  { intros z. unfold Builtins.py_int, Builtins.float_syntax.
    destruct (Builtins.int_syntax (Builtins.drop_sign (Str.strip s))) eqn:I;
      [|discriminate].
    intros _. now rewrite (int_syntax_decimal _ I). }
  split; [exact E|].
  unfold is_number. destruct (Builtins.py_int s) as [z|].
  - now rewrite (E z eq_refl).
  - now destruct (Builtins.float_syntax s).
Qed.

Lemma digit_lower (c : ascii) : Chars.is_digit c = true -> Chars.lower c = c.
Proof. ascii_cases c; intro E; try reflexivity; discriminate E. Qed.

Lemma digit_alnum (c : ascii) :
  Chars.is_digit c = true -> Chars.is_alnum c = true.
Proof. ascii_cases c; intro E; try reflexivity; discriminate E. Qed.

Lemma digits_lower (s : string) :
  Str.forallb Chars.is_digit s = true -> Str.lower s = s.
Proof.
  unfold Str.lower. induction s as [|c s IH]; simpl; [reflexivity|].
  rewrite andb_true_iff. intros [Hc Hs]. now rewrite IH, digit_lower.
Qed.

Lemma digits_float_syntax (s : string) :
  s <> EmptyString -> Str.forallb Chars.is_digit s = true ->
  Builtins.float_syntax s = true.
Proof.
  intros Hne Hd. unfold Builtins.float_syntax.
  rewrite strip_no_space.
  2:{ revert Hd. apply forallb_impl. intros c Hc.
      now rewrite (alnum_not_space c (digit_alnum c Hc)). }
  destruct s as [|c s]; [congruence|]. simpl in Hd.
  apply andb_true_iff in Hd as [Hc Hs].
  unfold Builtins.drop_sign. rewrite (digit_not_sign c Hc).
  unfold Builtins.decimal_literal, Builtins.digitpart. rewrite Hc.
  rewrite <- (append_empty_r s), digitpart_tail_digits by exact Hs.
  reflexivity.
Qed.

Lemma reads_as_float_number (t : string) :
  reads_as_float t -> is_number (normalize_token t) = true.
Proof.
  intros [[Hne Hd] | Hin].
  - assert (Hn : normalize_token t = t).
    { unfold normalize_token. rewrite (digits_lower t Hd).
      apply strip_no_space. revert Hd. apply forallb_impl. intros c Hc.
      now rewrite (alnum_not_space c (digit_alnum c Hc)). }
    rewrite Hn. unfold is_number. now rewrite digits_float_syntax.
  - unfold normalize_token.
    simpl in Hin. destruct Hin as [E | [E | [E | []]]]; rewrite <- E;
      reflexivity.
Qed.

Section NumbersDropped.
Context `{Stemmer}.

(** X6: a token made of digits only, and the words [inf], [infinity]
    and [nan] in any case, never reach the term frequencies: the
    indexer and the crawler drop them, whatever the stemmer. *)
Theorem numbers_are_never_indexed (t : string) (st : Stats) (totals : Z * Z)
  (term_freq : Dict.t string Z) :
  reads_as_float t ->
  snd (process_token (st, term_freq) t) = term_freq
  /\ snd (crawler_token (totals, term_freq) t) = term_freq.
Proof.
  intro Ht. pose proof (reads_as_float_number t Ht) as Hn.
  unfold process_token, crawler_token. destruct totals as [total stops].
  destruct (Str.is_empty (normalize_token t)); [split; reflexivity|].
  destruct (is_stop_word (normalize_token t)); [split; reflexivity|].
  destruct (starts_with_punctuation (normalize_token t));
    [split; reflexivity|].
  destruct (is_short (normalize_token t)); [split; reflexivity|].
  rewrite Hn. split; reflexivity.
Qed.

End NumbersDropped.

(* ------------------------------------------------------------------ *)
(** ** Cleaning the extracted text *)

Lemma space_not_alnum (c : ascii) :
  Chars.is_space c = true -> Chars.is_alnum c = false.
Proof.
  intro Hs. destruct (Chars.is_alnum c) eqn:Ha; [|reflexivity].
  rewrite (alnum_not_space c Ha) in Hs. discriminate.
Qed.

Lemma splitchars_from_map (f : ascii -> ascii) (s run : string) :
  (forall c, Chars.is_alnum c = true -> f c = c) ->
  (forall c, Chars.is_alnum c = false -> Chars.is_alnum (f c) = false) ->
  splitchars_from run (Str.map f s) = splitchars_from run s.
Proof.
  intros Hkeep Hsep. revert run.
  induction s as [|c s IH]; intro run; simpl; [reflexivity|].
  destruct (Chars.is_alnum c) eqn:Hc.
  - rewrite (Hkeep c Hc), Hc. apply IH.
  - rewrite (Hsep c Hc). now rewrite IH.
Qed.

Lemma splitchars_from_collapse (s : string) (in_run : bool) (run : string) :
  (in_run = true -> run = EmptyString) ->
  splitchars_from run (Clean.collapse_from in_run s) = splitchars_from run s.
Proof.
  revert in_run run.
  induction s as [|c s IH]; intros in_run run Hrun; simpl; [reflexivity|].
  destruct (Chars.is_space c) eqn:Hs.
  - rewrite (space_not_alnum c Hs). destruct in_run.
    + rewrite (Hrun eq_refl). simpl. now apply IH.
    + simpl. f_equal. now apply IH.
  - simpl. destruct (Chars.is_alnum c).
    + apply IH. discriminate.
    + f_equal. apply IH. discriminate.
Qed.

Lemma splitchars_from_lstrip (s : string) :
  splitchars_from EmptyString (Str.lstrip s) = splitchars_from EmptyString s.
Proof.
  induction s as [|c s IH]; simpl; [reflexivity|].
  destruct (Chars.is_space c) eqn:Hs; [|reflexivity].
  now rewrite (space_not_alnum c Hs).
Qed.

Lemma splitchars_from_rstrip (s run : string) :
  splitchars_from run (Str.rstrip s) = splitchars_from run s.
Proof.
  revert run. induction s as [|c s IH]; intro run; [reflexivity|].
  cbn [Str.rstrip]. destruct (Str.rstrip s) as [|d r] eqn:E.
  - destruct (Chars.is_space c) eqn:Hs.
    + cbn [splitchars_from]. rewrite (space_not_alnum c Hs).
      rewrite <- IH. cbn. now rewrite app_nil_r.
    + cbn [splitchars_from]. destruct (Chars.is_alnum c).
      * now rewrite <- IH.
      * now rewrite <- IH.
  - cbn [splitchars_from]. destruct (Chars.is_alnum c); now rewrite <- IH.
Qed.

Lemma splitchars_strip (s : string) : splitchars (Str.strip s) = splitchars s.
Proof.
  unfold splitchars, Str.strip.
  now rewrite splitchars_from_rstrip, splitchars_from_lstrip.
Qed.

Lemma kept_alnum (c : ascii) : Chars.is_alnum c = true -> Clean.kept c = true.
Proof. intro Hc. unfold Clean.kept, Clean.is_word. now rewrite Hc. Qed.

Lemma splitchars_clean (text : string) :
  splitchars (Str.strip (Clean.replace_special
                           (Clean.collapse_whitespace text)))
  = splitchars text.
Proof.
  rewrite splitchars_strip. unfold splitchars, Clean.replace_special.
  rewrite splitchars_from_map.
  - apply splitchars_from_collapse. discriminate.
  - intros c Hc. now rewrite (kept_alnum c Hc).
  - intros c Hc. destruct (Clean.kept c); [exact Hc | reflexivity].
Qed.

Section CleanedText.
Context `{PyFloat} `{Stemmer}.

(** X7: cleaning a text, by [clean_html_text] of [utils.py] or by
    [clean_text] of [html_parser.py], never changes its tokens; so a
    document is indexed the same whether its text was cleaned or
    not. *)
Theorem cleaning_keeps_tokens (text : string) :
  splitchars (Clean.clean_html_text text) = splitchars text
  /\ splitchars (Clean.clean_text text) = splitchars text
  /\ forall ix doc_path,
       process_document_from_text ix (Clean.clean_text text) doc_path
       = process_document_from_text ix text doc_path.
Proof.
  split; [apply splitchars_clean|]. split; [apply splitchars_clean|].
  intros ix doc_path. unfold process_document_from_text.
  unfold Clean.clean_text. now rewrite splitchars_clean.
Qed.

End CleanedText.

(** *** The shape of a cleaned text *)

Lemma forallb_lstrip (p : ascii -> bool) (s : string) :
  Str.forallb p s = true -> Str.forallb p (Str.lstrip s) = true.
Proof.
  induction s as [|c s IH]; simpl; [reflexivity|].
  rewrite andb_true_iff. intros [Hc Hs].
  destruct (Chars.is_space c); [now apply IH|]. simpl. now rewrite Hc.
Qed.

Lemma forallb_rstrip (p : ascii -> bool) (s : string) :
  Str.forallb p s = true -> Str.forallb p (Str.rstrip s) = true.
Proof.
  induction s as [|c s IH]; simpl; [reflexivity|].
  rewrite andb_true_iff. intros [Hc Hs]. specialize (IH Hs).
  destruct (Str.rstrip s) as [|d r].
  - destruct (Chars.is_space c); [reflexivity|]. simpl. now rewrite Hc.
  - cbn [Str.forallb] in *. now rewrite Hc.
Qed.

Lemma collapse_from_blank (s : string) (in_run : bool) :
  Str.forallb Clean.blank_is_space (Clean.collapse_from in_run s) = true.
Proof.
  revert in_run. induction s as [|c s IH]; intro in_run; simpl; [reflexivity|].
  destruct (Chars.is_space c) eqn:Hs.
  - destruct in_run; [apply IH|]. simpl. apply IH.
  - simpl. rewrite IH. unfold Clean.blank_is_space. now rewrite Hs.
Qed.

Lemma replace_special_tidy (s : string) :
  Str.forallb Clean.blank_is_space s = true ->
  Str.forallb (fun c => Clean.kept c && Clean.blank_is_space c)
              (Clean.replace_special s) = true.
Proof.
  unfold Clean.replace_special. rewrite forallb_map.
  apply forallb_impl. intros c Hc.
  destruct (Clean.kept c) eqn:K; [now rewrite K, Hc | reflexivity].
Qed.

(** X8: in a cleaned text every character is one that the cleaning
    keeps, the only white space is the plain space, and there is none
    at either end. *)
Theorem cleaned_text_is_tidy (text : string) :
  Str.forallb (fun c => Clean.kept c && Clean.blank_is_space c)
              (Clean.clean_html_text text) = true
  /\ starts_with_space (Clean.clean_html_text text) = false
  /\ ends_with_space (Clean.clean_html_text text) = false.
Proof.
  unfold Clean.clean_html_text, Str.strip. repeat split.
  - apply forallb_rstrip, forallb_lstrip, replace_special_tidy.
    apply collapse_from_blank.
  - apply rstrip_starts, lstrip_starts.
  - apply rstrip_ends.
Qed.

(* ------------------------------------------------------------------ *)
(** ** Which URLs are followed *)

Lemma rev_onto_app (a b acc : string) :
  Str.rev_onto (a ++ b) acc = Str.rev_onto b (Str.rev_onto a acc).
Proof.
  revert acc. induction a as [|c a IH]; intro acc; simpl; [reflexivity|].
  apply IH.
Qed.

Lemma rev_onto_acc (s a b : string) :
  Str.rev_onto s (a ++ b) = Str.rev_onto s a ++ b.
Proof.
  revert a. induction s as [|c s IH]; intro a; simpl; [reflexivity|].
  apply (IH (String c a)).
Qed.

Lemma rev_app (a b : string) : Str.rev (a ++ b) = Str.rev b ++ Str.rev a.
Proof.
  unfold Str.rev. rewrite rev_onto_app.
  change (Str.rev_onto a EmptyString)
    with (EmptyString ++ Str.rev_onto a EmptyString) at 1.
  apply rev_onto_acc.
Qed.

Lemma startswith_app (p q : string) : Url.startswith (p ++ q) p = true.
Proof.
  induction p as [|c p IH]; simpl; [reflexivity|].
  now rewrite Ascii.eqb_refl.
Qed.

Lemma endswith_app (a b : string) : Url.endswith (a ++ b) b = true.
Proof. unfold Url.endswith. rewrite rev_app. apply startswith_app. Qed.

(** X9: [should_skip_url] looks at the lower-case form of the URL
    only, and it skips every URL that ends with one of its extensions
    written in any mix of cases. *)
Theorem skipped_extension_any_case (front ext : string) :
  In (Str.lower ext) Url.skip_extensions ->
  Url.should_skip_url (front ++ ext) = true
  /\ forall url, Url.should_skip_url (Str.lower url) = Url.should_skip_url url.
Proof.
  intro Hin. split.
  - unfold Url.should_skip_url.
    destruct (existsb _ Url.skip_prefixes); [reflexivity|].
    replace (existsb (Url.endswith (Str.lower (front ++ ext)))
                     Url.skip_extensions) with true; [reflexivity|].
    symmetry. apply existsb_exists. exists (Str.lower ext). split; [exact Hin|].
    rewrite lower_app. apply endswith_app.
  - intro url. unfold Url.should_skip_url. now rewrite lower_idempotent.
Qed.

Lemma existsb_incl {A} (f : A -> bool) (l1 l2 : list A) :
  incl l1 l2 -> existsb f l1 = true -> existsb f l2 = true.
Proof.
  intros Hincl H. apply existsb_exists in H as [x [Hx Hf]].
  apply existsb_exists. exists x. split; [now apply Hincl | exact Hf].
Qed.

Lemma crawler_extensions_skipped :
  incl Url.crawler_skip_extensions Url.skip_extensions.
Proof.
  intros e He.
  assert (Hall : forallb (fun x => Str.mem x Url.skip_extensions)
                         Url.crawler_skip_extensions = true) by reflexivity.
  rewrite forallb_forall in Hall. specialize (Hall e He).
  unfold Str.mem in Hall. apply existsb_exists in Hall as [x [Hx Hex]].
  apply String.eqb_eq in Hex. now subst x.
Qed.

(** X10: a URL that [utils.should_skip_url] lets through and whose
    scheme is [http] or [https] is valid for the crawler: the
    extensions [WebCrawler.is_valid_url] rejects are among those
    [should_skip_url] skips. *)
Theorem unskipped_http_url_is_valid (scheme_of : string -> string)
  (url : string) :
  Str.mem (scheme_of url) ["http"; "https"] = true ->
  Url.should_skip_url url = false ->
  Url.is_valid_url scheme_of url = true.
Proof.
  intros Hscheme Hskip. unfold Url.is_valid_url. rewrite Hscheme. cbn [negb].
  unfold Url.should_skip_url in Hskip.
  destruct (existsb _ Url.skip_prefixes); [discriminate|].
  destruct (existsb (Url.endswith (Str.lower url)) Url.crawler_skip_extensions)
    eqn:E; [|reflexivity].
  rewrite (existsb_incl _ _ _ crawler_extensions_skipped E) in Hskip.
  discriminate.
Qed.

(* ------------------------------------------------------------------ *)
(** ** The scoring helpers *)

Lemma bind_ext {A B} (m : M A) (k1 k2 : A -> M B) :
  (forall a, k1 a = k2 a) -> bind m k1 = bind m k2.
Proof. intros E. destruct m as [l [e|a]]; cbn; [reflexivity|]. now rewrite E. Qed.

Section ScoringHelperFacts.
Context `{PyFloat}.

(** X11: [compute_idf] never divides by zero, and for [df = 0] it
    returns [0] without any arithmetic; and what the scoring pass of
    the index does for one term is [compute_idf(N, df)] once, then
    [compute_tf_idf(tf, idf)] on each posting, with the same
    arithmetic and the same exceptions. *)
Theorem scoring_pass_uses_the_helpers (N : Z) :
  (forall df_, outcome (compute_idf N df_) <> inl ZeroDivisionError)
  /\ compute_idf N 0 = ret (float_of_int 0)
  /\ forall doc_postings : Dict.t Z posting,
       score_term N doc_postings
       = (idf_ <- compute_idf N (Z.of_nat (List.length doc_postings)) ;;
          ret (List.map
                 (fun e => (fst e,
                            {| tf := compute_tf (tf (snd e));
                               tf_idf := Some (compute_tf_idf (tf (snd e)) idf_);
                               idf := Some idf_;
                               df := Some (Z.of_nat
                                             (List.length doc_postings)) |}))
                 doc_postings)).
Proof.
  split; [|split; [reflexivity|]].
  - intro df_. unfold compute_idf, truediv, math_log.
    destruct (df_ =? 0) eqn:E; cbn; [discriminate|].
    destruct (fgt0 (int_truediv N df_)); cbn; discriminate.
  - intro dp. unfold score_term, compute_idf.
    destruct dp as [|e dp]; [reflexivity|].
    set (df_ := Z.of_nat (List.length (e :: dp))).
    assert (Hdf : 0 < df_) by (unfold df_; cbn [List.length]; lia).
    replace (df_ =? 0) with false by (symmetry; apply Z.eqb_neq; lia).
    replace (0 <? df_) with true by (symmetry; apply Z.ltb_lt; lia).
    apply bind_ext. intro idf_. f_equal.
    apply map_ext. now intros [d p].
Qed.

End ScoringHelperFacts.

(* ------------------------------------------------------------------ *)
(** ** [format_time] *)

Lemma not_colon_digit (c : ascii) :
  Chars.is_digit c = true -> negb (Ascii.eqb c ":") = true.
Proof. ascii_cases c; intro E; try reflexivity; discriminate E. Qed.

Lemma str_of_int_no_colon (z : Z) :
  Str.forallb (fun c => negb (Ascii.eqb c ":")) (Builtins.str_of_int z) = true.
Proof.
  unfold Builtins.str_of_int. fold (digits_of (Z.abs_N z)).
  assert (Hd : Str.forallb (fun c => negb (Ascii.eqb c ":"))
                 (digits_of (Z.abs_N z)) = true).
  { generalize (digits_of_digits (Z.abs_N z)).
    apply forallb_impl, not_colon_digit. }
  destruct (z <? 0); [cbn; now rewrite Hd | exact Hd].
Qed.

Lemma pad2_no_colon (z : Z) :
  Str.forallb (fun c => negb (Ascii.eqb c ":")) (pad2 z) = true.
Proof.
  unfold pad2. pose proof (str_of_int_no_colon z) as Hz.
  destruct (String.length (Builtins.str_of_int z) <? 2)%nat; [|exact Hz].
  cbn. exact Hz.
Qed.

Lemma py_int_leading_zero (n : N) :
  Builtins.py_int (String "0" (digits_of n)) = Some (Z.of_N n).
Proof.
  pose proof (digits_of_digits n) as Hd.
  unfold Builtins.py_int.
  rewrite strip_no_space.
  2:{ cbn. revert Hd. apply forallb_impl. intros c Hc.
      now rewrite (alnum_not_space c (digit_alnum c Hc)). }
  cbn [Builtins.drop_sign Builtins.is_negative]. cbn [Ascii.eqb Bool.eqb orb].
  cbn [Builtins.drop_sign Builtins.is_negative].
  assert (Hs : Builtins.int_syntax (String "0" (digits_of n)) = true).
  { unfold Builtins.int_syntax, Builtins.digitpart.
    change (Chars.is_digit "0") with true. cbv iota.
    rewrite <- (append_empty_r (digits_of n)).
    now rewrite digitpart_tail_digits. }
  rewrite Hs.
  assert (Hr : Builtins.remove_underscores (String "0" (digits_of n))
               = String "0" (digits_of n)).
  { cbn. now rewrite remove_underscores_digits. }
  rewrite Hr. cbn [NilEmpty.uint_of_string]. 
  change (uint_of_char "0" (NilEmpty.uint_of_string (digits_of n)))
    with (option_map Decimal.D0 (NilEmpty.uint_of_string (digits_of n))).
  rewrite digits_of_read. cbn [option_map].
  change (N.of_uint (Decimal.D0 (N.to_uint n))) with (N.of_uint (N.to_uint n)).
  now rewrite DecimalN.Unsigned.of_to.
Qed.

Lemma py_int_pad2 (z : Z) : Builtins.py_int (pad2 z) = Some z.
Proof.
  unfold pad2.
  destruct (String.length (Builtins.str_of_int z) <? 2)%nat eqn:L;
    [|apply py_int_str_of_int].
  apply Nat.ltb_lt in L. unfold Builtins.str_of_int in *.
  fold (digits_of (Z.abs_N z)) in *.
  destruct (Z.ltb_spec z 0) as [Hneg|Hpos].
  - exfalso. pose proof (digits_of_nonempty (Z.abs_N z)) as Hn.
    destruct (digits_of (Z.abs_N z)); [congruence|]. cbn in L. lia.
  - rewrite py_int_leading_zero. f_equal. lia.
Qed.

(** X12: the text [format_time] gives for a whole number of seconds
    has three fields between colons; read back as integers they are
    the hours, the minutes and the seconds, the last two from 0 to 59,
    and they add up to the seconds given. *)
Theorem format_time_reads_back (seconds : Z) :
  exists h m s,
    List.map Builtins.py_int (Str.split ":" (format_time seconds))
    = [Some h; Some m; Some s]
    /\ 0 <= m < 60 /\ 0 <= s < 60
    /\ h * 3600 + m * 60 + s = seconds.
Proof.
  exists (seconds / 3600), (seconds mod 3600 / 60), (seconds mod 3600 mod 60).
  split; [|split; [|split]].
  - unfold format_time. cbv zeta.
    change (pad2 (seconds / 3600) ++ ":" ++ pad2 (seconds mod 3600 / 60)
              ++ ":" ++ pad2 (seconds mod 3600 mod 60))
      with (pad2 (seconds / 3600)
              ++ String ":" (pad2 (seconds mod 3600 / 60)
                               ++ String ":" (pad2 (seconds mod 3600 mod 60)))).
    rewrite split_field by apply pad2_no_colon.
    rewrite split_field by apply pad2_no_colon.
    rewrite split_no_sep by apply pad2_no_colon.
    cbn [List.map]. now rewrite !py_int_pad2.
  - pose proof (Z.mod_pos_bound seconds 3600 ltac:(lia)).
    split; [apply Z.div_pos; lia | apply Z.div_lt_upper_bound; lia].
  - apply Z.mod_pos_bound. lia.
  - pose proof (Z.div_mod seconds 3600 ltac:(lia)).
    pose proof (Z.div_mod (seconds mod 3600) 60 ltac:(lia)). lia.
Qed.

(* ------------------------------------------------------------------ *)
(** ** The set of stop words *)

Lemma mem_in (x : string) (l : list string) : Str.mem x l = true <-> In x l.
Proof.
  unfold Str.mem. rewrite existsb_exists. split.
  - intros [y [Hy E]]. apply String.eqb_eq in E. now subst y.
  - intro Hx. exists x. split; [exact Hx | apply String.eqb_refl].
Qed.

Lemma mem_same (x : string) (l1 l2 : list string) :
  (In x l1 <-> In x l2) -> Str.mem x l1 = Str.mem x l2.
Proof.
  intro E. destruct (Str.mem x l1) eqn:E1, (Str.mem x l2) eqn:E2;
    try reflexivity.
  - apply mem_in, E, mem_in in E1. congruence.
  - apply mem_in, E, mem_in in E2. congruence.
Qed.

Lemma mem_add (S : StopWords.t) (w v : string) :
  Str.mem v (StopWords.add S w) = Str.mem v S || String.eqb v w.
Proof.
  unfold StopWords.add. destruct (Str.mem w S) eqn:Hw.
  - destruct (String.eqb_spec v w) as [->|]; [now rewrite Hw|].
    now rewrite orb_false_r.
  - unfold Str.mem. cbn [existsb]. apply orb_comm.
Qed.

Lemma mem_discard (S : StopWords.t) (w v : string) :
  Str.mem v (List.filter (fun x => negb (String.eqb x w)) S)
  = Str.mem v S && negb (String.eqb v w).
Proof.
  unfold Str.mem. induction S as [|x S IH]; [reflexivity|].
  cbn [List.filter existsb].
  destruct (String.eqb_spec x w) as [->|Hx]; cbn [negb existsb].
  - rewrite IH. destruct (String.eqb_spec v w); cbn; [|reflexivity].
    now rewrite andb_false_r.
  - rewrite IH. destruct (String.eqb_spec v x) as [->|]; cbn; [|reflexivity].
    destruct (String.eqb_spec x w); [contradiction | reflexivity].
Qed.

Lemma initial_is_stop_word (word : string) :
  StopWords.is_stop_word StopWords.initial word = is_stop_word word.
Proof.
  unfold StopWords.is_stop_word, is_stop_word, StopWords.initial.
  apply mem_same. apply nodup_In.
Qed.

(** X13: [add_stop_word] and [remove_stop_word] work on the
    lower-case form of the word.  After adding a word, [is_stop_word]
    is true of it in any case; after removing it, false; and for
    every other word the answer is what it was.  The set the module
    starts with answers as [is_stop_word] does. *)
Theorem stop_word_updates (S : StopWords.t) (word other : string) :
  StopWords.is_stop_word (StopWords.add_stop_word S word) other
  = StopWords.is_stop_word S other
    || String.eqb (Str.lower other) (Str.lower word)
  /\ StopWords.is_stop_word (StopWords.remove_stop_word S word) other
     = StopWords.is_stop_word S other
       && negb (String.eqb (Str.lower other) (Str.lower word))
  /\ StopWords.is_stop_word StopWords.initial other = is_stop_word other.
Proof.
  split; [|split].
  - unfold StopWords.is_stop_word, StopWords.add_stop_word. apply mem_add.
  - unfold StopWords.is_stop_word, StopWords.remove_stop_word.
    apply mem_discard.
  - exact (initial_is_stop_word other).
Qed.

(** *** Saving the stop words and loading them again *)

Lemma in_insert_sorted (x w : string) (l : list string) :
  In x (StopWords.insert_sorted w l) <-> x = w \/ In x l.
Proof.
  induction l as [|y l IH]; cbn; [intuition congruence|].
  destruct (String.leb w y); cbn; [intuition congruence|].
  rewrite IH. intuition congruence.
Qed.

Lemma in_sorted (x : string) (l : list string) :
  In x (StopWords.sorted l) <-> In x l.
Proof.
  unfold StopWords.sorted. induction l as [|y l IH]; cbn; [reflexivity|].
  rewrite in_insert_sorted, IH. intuition congruence.
Qed.

Lemma stop_word_ok_spec (w : string) :
  stop_word_ok w = true ->
  line_ok w /\ forall S, StopWords.load_line S w = StopWords.add S w.
Proof.
  unfold stop_word_ok. rewrite !andb_true_iff.
  intros [[[Hne Hnl] Hstrip] Hlow].
  apply String.eqb_eq in Hstrip. apply String.eqb_eq in Hlow.
  split; [exact Hnl|]. intro S. unfold StopWords.load_line.
  rewrite Hstrip, Hlow. now destruct w.
Qed.

Lemma load_lines_members (ws : list string) :
  Forall (fun w => stop_word_ok w = true) ws ->
  forall (S : StopWords.t) (v : string),
  Str.mem v (fold_left StopWords.load_line ws S) = Str.mem v S || Str.mem v ws.
Proof.
  induction 1 as [|w ws Hw Hws IH]; intros S v; cbn [fold_left].
  - cbn. now rewrite orb_false_r.
  - destruct (stop_word_ok_spec w Hw) as [_ ->].
    rewrite IH, mem_add. unfold Str.mem at 4. cbn [existsb].
    now rewrite orb_assoc.
Qed.

Lemma load_lines_known (S : StopWords.t) (ws : list string) :
  Forall (fun w => stop_word_ok w = true) ws ->
  Forall (fun w => In w S) ws ->
  fold_left StopWords.load_line ws S = S.
Proof.
  induction 1 as [|w ws Hw Hws IH]; intro Hin; [reflexivity|].
  inversion Hin as [|? ? HwS HwsS]; subst. cbn [fold_left].
  destruct (stop_word_ok_spec w Hw) as [_ ->].
  unfold StopWords.add. apply mem_in in HwS. rewrite HwS. now apply IH.
Qed.

Lemma sorted_forall (P : string -> Prop) (l : list string) :
  Forall P l -> Forall P (StopWords.sorted l).
Proof.
  rewrite !Forall_forall. intros Hl x Hx. now apply Hl, in_sorted.
Qed.

(** X14: the file [save_stop_words] writes, one word per line in
    ascending order, is read back by [load_custom_stop_words] word by
    word: loaded into any set it adds exactly the saved words, and
    loaded into the set it was saved from it changes nothing.  The
    words must be ones a line can carry: not empty, without a line
    break or white space around them, in lower case. *)
Theorem stop_words_save_load (S : StopWords.t) :
  forallb stop_word_ok S = true ->
  StopWords.load_custom_stop_words S (Some (StopWords.save_stop_words S))
  = (S, true)
  /\ forall (S' : StopWords.t) (word : string),
       StopWords.is_stop_word
         (fst (StopWords.load_custom_stop_words S'
                 (Some (StopWords.save_stop_words S)))) word
       = StopWords.is_stop_word S' word || StopWords.is_stop_word S word.
Proof.
  intro Hok. rewrite forallb_forall in Hok.
  assert (HS : Forall (fun w => stop_word_ok w = true) S)
    by now apply Forall_forall.
  pose proof (sorted_forall _ S HS) as Hsorted.
  assert (Hlines : readlines (StopWords.save_stop_words S)
                   = StopWords.sorted S).
  { unfold StopWords.save_stop_words. apply readlines_unlines.
    revert Hsorted. apply Forall_impl. intros w Hw.
    now destruct (stop_word_ok_spec w Hw). }
  unfold StopWords.load_custom_stop_words. rewrite Hlines. split.
  - f_equal. apply load_lines_known; [exact Hsorted|].
    apply Forall_forall. intros w Hw. now apply in_sorted.
  - intros S' word. cbn [fst]. unfold StopWords.is_stop_word.
    rewrite load_lines_members by exact Hsorted. f_equal.
    apply mem_same, in_sorted.
Qed.

(* ------------------------------------------------------------------ *)
(** ** More on dictionaries *)

Section DictMore.
Context {K V : Type} `{EqKey K}.

Lemma get_in (d : Dict.t K V) (k : K) (v : V) :
  Dict.get d k = Some v -> In (k, v) d.
Proof.
  induction d as [|[k0 v0] d IH]; cbn; [discriminate|].
  destruct (keqb k0 k) eqn:E.
  - apply keqb_eq in E. subst k0. intros [= ->]. now left.
  - intro Hg. right. now apply IH.
Qed.

Lemma in_get (d : Dict.t K V) (k : K) (v : V) :
  Dict.wf d -> In (k, v) d -> Dict.get d k = Some v.
Proof.
  unfold Dict.wf, Dict.keys.
  induction d as [|[k0 v0] d IH]; cbn; intros Hnd Hin; [destruct Hin|].
  inversion Hnd as [|? ? Hk0 Hnd']; subst.
  destruct Hin as [[= -> ->]|Hin].
  - now rewrite keqb_refl.
  - rewrite keqb_neq; [now apply IH|].
    intros ->. apply Hk0. apply (in_map fst) in Hin. exact Hin.
Qed.

Lemma get_some_in_keys (d : Dict.t K V) (k : K) (v : V) :
  Dict.get d k = Some v -> In k (Dict.keys d).
Proof. intro Hg. apply get_in in Hg. now apply (in_map fst) in Hg. Qed.

Lemma get_not_none_in_keys (d : Dict.t K V) (k : K) :
  In k (Dict.keys d) -> Dict.get d k <> None.
Proof.
  induction d as [|[k0 v0] d IH]; cbn; [tauto|].
  intros [->|Hin]; [now rewrite keqb_refl|].
  destruct (keqb k0 k); [discriminate | now apply IH].
Qed.

Lemma keys_set_present (d : Dict.t K V) (k : K) (v : V) :
  In k (Dict.keys d) -> Dict.keys (Dict.set d k v) = Dict.keys d.
Proof.
  induction d as [|[k0 v0] d IH]; cbn; [tauto|]. intro Hin.
  destruct (keqb k0 k) eqn:E; [reflexivity|]. cbn. f_equal.
  apply IH. destruct Hin as [->|Hin]; [|exact Hin].
  now rewrite keqb_refl in E.
Qed.

Lemma set_wf (d : Dict.t K V) (k : K) (v : V) :
  Dict.wf d -> Dict.wf (Dict.set d k v).
Proof.
  intro Hwf. unfold Dict.wf in *.
  destruct (in_dec (fun a b => match Bool.bool_dec (keqb a b) true with
                               | left E => left (proj1 (keqb_eq a b) E)
                               | right N =>
                                   right (fun E => N (proj2 (keqb_eq a b) E))
                               end) k (Dict.keys d)) as [Hin|Hnin].
  - now rewrite keys_set_present.
  - rewrite set_fresh by exact Hnin. rewrite keys_app. cbn.
    apply NoDup_app; [exact Hwf | constructor; [tauto | constructor] |].
    intros a Ha [<-|[]]. contradiction.
Qed.

Lemma set_forall (P : K * V -> Prop) (d : Dict.t K V) (k : K) (v : V) :
  Forall P d -> P (k, v) -> Forall P (Dict.set d k v).
Proof.
  intros Hd Hkv. induction Hd as [|[k0 v0] d H0 Hd IH]; cbn.
  - constructor; [exact Hkv | constructor].
  - destruct (keqb k0 k) eqn:E.
    + apply keqb_eq in E. subst k0. now constructor.
    + now constructor.
Qed.


Lemma set_length_fresh (d : Dict.t K V) (k : K) (v : V) :
  Dict.get d k = None -> List.length (Dict.set d k v) = S (List.length d).
Proof.
  induction d as [|[k0 v0] d IH]; cbn; [reflexivity|].
  destruct (keqb k0 k); cbn; [discriminate|]. intro Hg. now rewrite IH.
Qed.

Lemma get_none_fresh (d : Dict.t K V) (k : K) :
  Dict.get d k = None -> ~ In k (Dict.keys d).
Proof. intros Hg Hin. now apply get_not_none_in_keys in Hin. Qed.

Lemma sum_values_set (f : V -> Z) (d : Dict.t K V) (k : K) (v : V) :
  sum_values f (Dict.set d k v)
  = sum_values f d
    - match Dict.get d k with Some old => f old | None => 0 end
    + f v.
Proof.
  unfold sum_values. induction d as [|[k0 v0] d IH]; cbn; [lia|].
  destruct (keqb k0 k); cbn; [lia|]. rewrite IH. lia.
Qed.


End DictMore.

Lemma in_ids_to (n : nat) (z : Z) :
  In z (ids_to n) <-> 1 <= z <= Z.of_nat n.
Proof.
  unfold ids_to. rewrite in_map_iff. split.
  - intros [k [<- Hk]]. apply in_seq in Hk. lia.
  - intros Hz. exists (Z.to_nat z). split; [lia|]. apply in_seq. lia.
Qed.

Lemma ids_to_nodup (n : nat) : NoDup (ids_to n).
Proof.
  unfold ids_to. generalize (seq_NoDup n 1).
  induction 1 as [|k l Hk Hl IH]; cbn; constructor; [|exact IH].
  rewrite in_map_iff. intros [k' [E Hk']].
  apply Nat2Z.inj in E. now subst k'.
Qed.

Lemma ids_to_succ (n : nat) :
  ids_to (S n) = (ids_to n ++ [Z.of_nat n + 1])%list.
Proof.
  unfold ids_to. rewrite seq_S, map_app. cbn [List.map]. do 2 f_equal. lia.
Qed.

Lemma get_injective {K : Type} `{EqKey K} (d : Dict.t K Z) (a b : K) (v : Z) :
  NoDup (Dict.values d) ->
  Dict.get d a = Some v -> Dict.get d b = Some v -> a = b.
Proof.
  unfold Dict.values.
  induction d as [|[k0 v0] d IH]; cbn; [discriminate|]. intros Hnd Ha Hb.
  inversion Hnd as [|? ? Hv0 Hnd']; subst.
  destruct (keqb k0 a) eqn:Ea, (keqb k0 b) eqn:Eb.
  - apply keqb_eq in Ea, Eb. congruence.
  - injection Ha as ->. apply get_in in Hb. apply (in_map snd) in Hb.
    contradiction.
  - injection Hb as ->. apply get_in in Ha. apply (in_map snd) in Ha.
    contradiction.
  - now apply IH.
Qed.

Lemma keys_swap {A B : Type} (d : list (A * B)) :
  List.map fst (List.map swap d) = List.map snd d.
Proof. rewrite map_map. reflexivity. Qed.

(* ------------------------------------------------------------------ *)
(** ** The term frequencies of a document *)

Section TermFrequencies.
Context `{Stemmer}.

Lemma process_token_freq (st : Stats) (tfq : Dict.t string Z) (t : string) :
  snd (process_token (st, tfq) t)
  = if kept_token t then increment tfq (stem_or_self (normalize_token t))
    else tfq.
Proof.
  unfold process_token, kept_token. cbv zeta.
  destruct (Str.is_empty (normalize_token t)); [reflexivity|].
  destruct (is_stop_word (normalize_token t)); [reflexivity|].
  destruct (starts_with_punctuation (normalize_token t)); [reflexivity|].
  destruct (is_short (normalize_token t)); [reflexivity|].
  destruct (is_number (normalize_token t)); reflexivity.
Qed.

Lemma process_token_balance (st : Stats) (tfq : Dict.t string Z) (t : string) :
  indexed_tokens (fst (process_token (st, tfq) t))
  = indexed_tokens st + (if kept_token t then 1 else 0).
Proof.
  destruct st as [n1 n2 n3 n4 n5].
  unfold process_token, kept_token, indexed_tokens, count_token,
    count_stop_word, count_punctuation, count_short_word, count_number.
  cbv zeta.
  destruct (Str.is_empty (normalize_token t)),
    (is_stop_word (normalize_token t)),
    (starts_with_punctuation (normalize_token t)),
    (is_short (normalize_token t)),
    (is_number (normalize_token t)); cbn; lia.
Qed.

Lemma crawler_token_freq (totals : Z * Z) (tfq : Dict.t string Z) (t : string) :
  snd (crawler_token (totals, tfq) t)
  = if kept_token t then increment tfq (stem_or_self (normalize_token t))
    else tfq.
Proof.
  destruct totals as [total stops]. unfold crawler_token, kept_token. cbv zeta.
  destruct (Str.is_empty (normalize_token t)); [reflexivity|].
  destruct (is_stop_word (normalize_token t)); [reflexivity|].
  destruct (starts_with_punctuation (normalize_token t)); [reflexivity|].
  destruct (is_short (normalize_token t)); [reflexivity|].
  destruct (is_number (normalize_token t)); reflexivity.
Qed.

Lemma freq_of_increment (tfq : Dict.t string Z) (s s' : string) :
  freq_of (increment tfq s) s'
  = freq_of tfq s' + (if String.eqb s s' then 1 else 0).
Proof.
  unfold freq_of, increment. destruct (String.eqb_spec s s') as [<-|Hne].
  - now rewrite get_set_same.
  - rewrite get_set_other by exact Hne. destruct (Dict.get tfq s'); lia.
Qed.

Lemma counts_ok_increment (tfq : Dict.t string Z) (s : string) :
  counts_ok tfq -> counts_ok (increment tfq s).
Proof.
  intros [Hwf Hpos]. unfold increment. split; [now apply set_wf|].
  apply set_forall; [exact Hpos|]. cbn [snd].
  destruct (Dict.get tfq s) as [n|] eqn:E; [|lia].
  apply get_in in E. rewrite Forall_forall in Hpos.
  specialize (Hpos _ E). cbn in Hpos. lia.
Qed.

Lemma mass_increment (tfq : Dict.t string Z) (s : string) :
  sum_values (fun n => n) (increment tfq s)
  = sum_values (fun n => n) tfq + 1.
Proof.
  unfold increment. rewrite sum_values_set.
  destruct (Dict.get tfq s); lia.
Qed.

(** The stems of a list of tokens. *)
Lemma occurrences_cons (s x : string) (l : list string) :
  occurrences s (x :: l)
  = (if String.eqb x s then 1 else 0) + occurrences s l.
Proof.
  unfold occurrences. cbn [count_occ].
  destruct (String.string_dec x s) as [->|Hne].
  - rewrite String.eqb_refl. lia.
  - destruct (String.eqb_spec x s); [contradiction|]. lia.
Qed.

Lemma term_freq_spec (ts : list string) (st : Stats) (tfq : Dict.t string Z) :
  counts_ok tfq ->
  let stems := List.map (fun t => stem_or_self (normalize_token t))
                        (List.filter kept_token ts) in
  let r := fold_left process_token ts (st, tfq) in
  counts_ok (snd r)
  /\ (forall s, freq_of (snd r) s = freq_of tfq s + occurrences s stems)
  /\ sum_values (fun n => n) (snd r)
     = sum_values (fun n => n) tfq + Z.of_nat (List.length stems)
  /\ indexed_tokens (fst r) = indexed_tokens st + Z.of_nat (List.length stems).
Proof.
  revert st tfq. induction ts as [|t ts IH]; intros st tfq Hok; cbv zeta.
  - cbn [fold_left fst snd List.filter List.map List.length].
    split; [exact Hok|].
    split; [intro s; unfold occurrences; cbn; lia|]. split; cbn; lia.
  - cbn [fold_left List.filter].
    pose proof (process_token_freq st tfq t) as Hf.
    pose proof (process_token_balance st tfq t) as Hb.
    destruct (process_token (st, tfq) t) as [st1 tfq1]. cbn [fst snd] in Hf, Hb.
    assert (Hok1 : counts_ok tfq1).
    { subst tfq1. destruct (kept_token t); [now apply counts_ok_increment|].
      exact Hok. }
    destruct (IH st1 tfq1 Hok1) as (I1 & I2 & I3 & I4).
    split; [exact I1|]. split; [|split].
    + intro s. rewrite I2, Hf. destruct (kept_token t); cbn [List.map].
      * rewrite freq_of_increment, occurrences_cons. lia.
      * reflexivity.
    + rewrite I3, Hf. destruct (kept_token t); cbn [List.map List.length].
      * rewrite mass_increment. lia.
      * reflexivity.
    + rewrite I4, Hb. destruct (kept_token t); cbn [List.map List.length]; lia.
Qed.


End TermFrequencies.

(* ------------------------------------------------------------------ *)
(** ** Recording the terms of a document *)

Section Recording.
Context `{PyFloat} `{Stemmer}.

Lemma posting_in_set_same (pt : Dict.t Z (Dict.t Z posting)) (t d : Z)
  (p : posting) :
  posting_in (set_posting pt t d p) t d = Some p.
Proof.
  unfold posting_in, set_posting. rewrite get_set_same. apply get_set_same.
Qed.

Lemma posting_in_set_other (pt : Dict.t Z (Dict.t Z posting)) (t d : Z)
  (p : posting) (t' d' : Z) :
  t' <> t \/ d' <> d ->
  posting_in (set_posting pt t d p) t' d' = posting_in pt t' d'.
Proof.
  intro Hne. unfold posting_in, set_posting.
  destruct (Z.eq_dec t' t) as [->|Ht].
  - rewrite get_set_same.
    rewrite get_set_other by (intros ->; destruct Hne; congruence).
    now destruct (Dict.get pt t).
  - rewrite get_set_other by congruence. reflexivity.
Qed.

Lemma total_set_posting (pt : Dict.t Z (Dict.t Z posting)) (t d : Z)
  (p : posting) :
  posting_in pt t d = None ->
  sum_values (sum_values tf) (set_posting pt t d p)
  = sum_values (sum_values tf) pt + tf p.
Proof.
  unfold posting_in, set_posting. intro Hnone.
  rewrite sum_values_set, sum_values_set.
  destruct (Dict.get pt t) as [old|]; [rewrite Hnone|]; cbn; lia.
Qed.

Lemma set_nonempty {K V : Type} `{EqKey K} (d : Dict.t K V) (k : K) (v : V) :
  Dict.set d k v <> [].
Proof. destruct d as [|[k0 v0] d]; cbn; [|destruct (keqb k0 k)]; discriminate. Qed.

Lemma terms_consistent_nodup (ix : Indexer) :
  terms_consistent ix -> NoDup (Dict.values (terms ix)).
Proof. intros [E _ _ _]. rewrite E. apply ids_to_nodup. Qed.

Lemma terms_consistent_bound (ix : Indexer) (s : string) (t : Z) :
  terms_consistent ix -> Dict.get (terms ix) s = Some t ->
  1 <= t < next_term_id ix.
Proof.
  intros [E C _ _] Hg. apply get_in in Hg. apply (in_map snd) in Hg.
  cbn [snd] in Hg. fold (Dict.values (terms ix)) in Hg.
  rewrite E in Hg. apply in_ids_to in Hg. lia.
Qed.

Lemma terms_consistent_ext (ix ix' : Indexer) :
  terms ix' = terms ix -> terms_inv ix' = terms_inv ix ->
  next_term_id ix' = next_term_id ix ->
  terms_consistent ix -> terms_consistent ix'.
Proof.
  intros E1 E2 E3 [Hids Hcnt Hnd Hinv].
  constructor; rewrite ?E1, ?E2, ?E3; assumption.
Qed.

(** What one turn of the loop over [term_freq.items()] does. *)
Lemma record_term_spec (doc_id : Z) (ix : Indexer) (term : string) (freq : Z) :
  terms_consistent ix ->
  let ix' := record_term doc_id ix (term, freq) in
  exists term_id,
    Dict.get (terms ix') term = Some term_id
    /\ postings ix'
       = set_posting (postings ix) term_id doc_id
           (mkPosting freq None None None)
    /\ terms_consistent ix'
    /\ next_term_id ix <= next_term_id ix'
    /\ (forall s t, Dict.get (terms ix) s = Some t ->
                    Dict.get (terms ix') s = Some t)
    /\ (Z.of_nat (List.length (terms ix')) - next_term_id ix'
        = Z.of_nat (List.length (terms ix)) - next_term_id ix)
    /\ documents ix' = documents ix
    /\ documents_inv ix' = documents_inv ix
    /\ doc_lengths ix' = doc_lengths ix
    /\ next_doc_id ix' = next_doc_id ix
    /\ total_docs ix' = total_docs ix
    /\ total_terms ix' = total_terms ix
    /\ stats ix' = stats ix.
Proof.
  intros Hc. cbv zeta. unfold record_term.
  destruct (Dict.get (terms ix) term) as [t|] eqn:E.
  - exists t. cbn.
    split; [exact E|]. split; [reflexivity|].
    split; [now apply (terms_consistent_ext ix)|]. split; [lia|].
    split; [auto|]. repeat split; reflexivity.
  - exists (next_term_id ix). cbn.
    pose proof (get_none_fresh _ _ E) as Hfresh.
    destruct Hc as [Hids Hcnt Hnd Hinv].
    assert (Hlen : List.length (Dict.set (terms ix) term (next_term_id ix))
                   = S (List.length (terms ix)))
      by now apply set_length_fresh.
    split; [apply get_set_same|]. split; [reflexivity|].
    split; [|split; [lia|split; [|split; [|repeat split; reflexivity]]]].
    + constructor; cbn [terms terms_inv next_term_id].
      * rewrite Hlen, ids_to_succ, <- Hids, Hcnt.
        rewrite set_fresh by exact Hfresh.
        unfold Dict.values. rewrite map_app. cbn. do 2 f_equal.
      * rewrite Hlen. lia.
      * now apply set_wf.
      * rewrite Hinv, (set_fresh (terms ix)) by exact Hfresh.
        rewrite map_app. cbn [List.map]. apply set_fresh.
        unfold Dict.keys. rewrite keys_swap. fold (Dict.values (terms ix)).
        rewrite Hids. rewrite in_ids_to. cbn [snd]. lia.
    + intros s t Hs. rewrite get_set_other; [exact Hs|].
      intros ->. congruence.
    + rewrite Hlen. lia.
Qed.

Lemma postings_within_set (ix ix' : Indexer) (bound t d : Z) (p : posting) :
  postings_within ix bound ->
  postings ix' = set_posting (postings ix) t d p ->
  next_term_id ix <= next_term_id ix' ->
  1 <= t < next_term_id ix' -> 1 <= d < bound -> 1 <= tf p ->
  postings_within ix' bound.
Proof.
  intros [Hwf Hall] Hpt Hnext Ht Hd Hp. unfold postings_within.
  rewrite Hpt. unfold set_posting. split; [now apply set_wf|].
  apply set_forall.
  - revert Hall. apply Forall_impl. intros e He. intuition lia.
  - cbn [fst snd]. split; [exact Ht|].
    assert (Hold : Dict.wf (match Dict.get (postings ix) t with
                            | Some dp => dp | None => [] end)
                   /\ Forall (fun dp => 1 <= fst dp < bound /\ 1 <= tf (snd dp))
                        (match Dict.get (postings ix) t with
                         | Some dp => dp | None => [] end)).
    { destruct (Dict.get (postings ix) t) as [dp|] eqn:E.
      - apply get_in in E. rewrite Forall_forall in Hall.
        specialize (Hall _ E). cbn in Hall. tauto.
      - split; constructor. }
    destruct Hold as [Hw Hf].
    split; [now apply set_wf|]. split; [apply set_nonempty|].
    apply set_forall; [exact Hf|]. cbn. split; assumption.
Qed.

Lemma recorded_step (doc_id : Z) (done : Dict.t string Z) (ix ix' : Indexer)
  (term : string) (freq term_id : Z) :
  recorded doc_id done ix ->
  ~ In term (Dict.keys done) ->
  NoDup (Dict.values (terms ix')) ->
  (forall s t, Dict.get (terms ix) s = Some t ->
               Dict.get (terms ix') s = Some t) ->
  Dict.get (terms ix') term = Some term_id ->
  postings ix'
  = set_posting (postings ix) term_id doc_id (mkPosting freq None None None) ->
  recorded doc_id (done ++ [(term, freq)])%list ix'
  /\ posting_of ix term_id doc_id = None.
Proof.
  intros [Q1 Q2] Hfresh Hnd Hgrow Hterm Hpt.
  assert (Hother : forall s f t, In (s, f) done ->
            Dict.get (terms ix) s = Some t -> t <> term_id).
  { intros s f t Hin Hs ->. apply Hfresh.
    rewrite (get_injective _ _ _ _ Hnd Hterm (Hgrow _ _ Hs)).
    apply (in_map fst) in Hin. exact Hin. }
  split; [split|].
  - intros s f Hin. apply in_app_iff in Hin as [Hin|[[= -> ->]|[]]].
    + destruct (Q1 s f Hin) as [t [Hs Hp]]. exists t. split; [now apply Hgrow|].
      unfold posting_of in *. rewrite Hpt.
      rewrite posting_in_set_other; [exact Hp|]. left. now apply (Hother s f).
    + exists term_id. split; [exact Hterm|]. unfold posting_of. rewrite Hpt.
      apply posting_in_set_same.
  - intros t p Hp. unfold posting_of in Hp. rewrite Hpt in Hp.
    destruct (Z.eq_dec t term_id) as [->|Ht].
    + rewrite posting_in_set_same in Hp. injection Hp as <-.
      exists term, freq. split; [apply in_app_iff; right; now left|].
      now split.
    + rewrite posting_in_set_other in Hp by now left.
      destruct (Q2 t p Hp) as (s & f & Hin & Hs & ->).
      exists s, f. split; [apply in_app_iff; now left|]. split; [|reflexivity].
      now apply Hgrow.
  - destruct (posting_of ix term_id doc_id) as [p|] eqn:E; [|reflexivity].
    destruct (Q2 _ _ E) as (s & f & Hin & Hs & _).
    exfalso. now apply (Hother s f term_id Hin Hs).
Qed.

(** The loop over [term_freq.items()]. *)
Lemma record_terms_spec (doc_id : Z) (tfq : Dict.t string Z) :
  1 <= doc_id ->
  forall (done : Dict.t string Z) (ix : Indexer),
  Dict.wf (done ++ tfq)%list ->
  Forall (fun e => 1 <= snd e) tfq ->
  terms_consistent ix ->
  postings_within ix (doc_id + 1) ->
  recorded doc_id done ix ->
  let ix' := fold_left (record_term doc_id) tfq ix in
  terms_consistent ix'
  /\ postings_within ix' (doc_id + 1)
  /\ recorded doc_id (done ++ tfq)%list ix'
  /\ total_tf ix' = total_tf ix + sum_values (fun n => n) tfq
  /\ (forall t d, d <> doc_id -> posting_of ix' t d = posting_of ix t d)
  /\ (forall s t, Dict.get (terms ix) s = Some t ->
                  Dict.get (terms ix') s = Some t)
  /\ (Z.of_nat (List.length (terms ix')) - next_term_id ix'
      = Z.of_nat (List.length (terms ix)) - next_term_id ix)
  /\ documents ix' = documents ix
  /\ documents_inv ix' = documents_inv ix
  /\ doc_lengths ix' = doc_lengths ix
  /\ next_doc_id ix' = next_doc_id ix
  /\ total_docs ix' = total_docs ix
  /\ total_terms ix' = total_terms ix
  /\ stats ix' = stats ix.
Proof.
  intro Hid. induction tfq as [|[term freq] tfq IH];
    intros done ix Hwf Hpos Hc Hw Hrec; cbv zeta.
  - cbn [fold_left]. rewrite app_nil_r. cbn.
    repeat split; try assumption; try reflexivity; try lia;
      try apply Hrec; try apply Hw; try apply Hc; auto.
  - cbn [fold_left].
    destruct (record_term_spec doc_id ix term freq Hc)
      as (t & Hterm & Hpt & Hc1 & Hnext & Hgrow & Hlen & F1 & F2 & F3 & F4
          & F5 & F6 & F7).
    set (ix1 := record_term doc_id ix (term, freq)) in *.
    inversion Hpos as [|? ? Hfreq Hpos']; subst. cbn [snd] in Hfreq.
    assert (Hfresh : ~ In term (Dict.keys done)).
    { unfold Dict.wf in Hwf. rewrite keys_app in Hwf. cbn in Hwf.
      apply NoDup_remove_2 in Hwf. rewrite in_app_iff in Hwf. tauto. }
    destruct (recorded_step doc_id done ix ix1 term freq t Hrec Hfresh
                (terms_consistent_nodup ix1 Hc1) Hgrow Hterm Hpt)
      as [Hrec1 Hnone].
    assert (Hw1 : postings_within ix1 (doc_id + 1)).
    { apply (postings_within_set ix ix1 (doc_id + 1) t doc_id
               (mkPosting freq None None None)); try assumption.
      - now apply (terms_consistent_bound ix1 term).
      - lia. }
    assert (Hwf1 : Dict.wf ((done ++ [(term, freq)]) ++ tfq)%list)
      by now rewrite <- app_assoc.
    destruct (IH (done ++ [(term, freq)])%list ix1 Hwf1 Hpos' Hc1 Hw1 Hrec1)
      as (I1 & I2 & I3 & I4 & I5 & I6 & I7 & G1 & G2 & G3 & G4 & G5 & G6 & G7).
    rewrite <- app_assoc in I3. cbn [app] in I3.
    split; [exact I1|]. split; [exact I2|]. split; [exact I3|].
    split; [|split; [|split; [|split; [|repeat split; congruence]]]].
    + rewrite I4. unfold total_tf. rewrite Hpt.
      rewrite total_set_posting by exact Hnone.
      change (sum_values (fun n : Z => n) ((term, freq) :: tfq))
        with (freq + sum_values (fun n : Z => n) tfq).
      cbn [tf]. fold (total_tf ix). lia.
    + intros t' d Hd. rewrite I5 by exact Hd. unfold posting_of. rewrite Hpt.
      apply posting_in_set_other. now right.
    + intros s t' Hs. apply I6. now apply Hgrow.
    + lia.
Qed.

End Recording.

(* ------------------------------------------------------------------ *)
(** ** Processing a document *)

Section Processing.
Context `{PyFloat} `{Stemmer}.

Lemma posting_of_within (ix : Indexer) (bound t d : Z) (p : posting) :
  postings_within ix bound -> posting_of ix t d = Some p ->
  1 <= t < next_term_id ix /\ 1 <= d < bound /\ 1 <= tf p.
Proof.
  intros [_ Hall] Hp. unfold posting_of, posting_in in Hp.
  destruct (Dict.get (postings ix) t) as [dp|] eqn:E; [|discriminate].
  apply get_in in E. apply get_in in Hp. rewrite Forall_forall in Hall.
  destruct (Hall _ E) as (Ht & _ & _ & Hdp). cbn [fst snd] in *.
  rewrite Forall_forall in Hdp. specialize (Hdp _ Hp). cbn in Hdp. tauto.
Qed.

Lemma postings_within_weaken (ix ix' : Indexer) (b b' : Z) :
  postings ix' = postings ix -> next_term_id ix' = next_term_id ix ->
  b <= b' -> postings_within ix b -> postings_within ix' b'.
Proof.
  intros E1 E2 Hb [Hwf Hall]. unfold postings_within. rewrite E1, E2.
  split; [exact Hwf|]. revert Hall. apply Forall_impl.
  intros e (Ht & Hw & Hne & Hdp). repeat split; try tauto.
  revert Hdp. apply Forall_impl. intros dp Hdp. lia.
Qed.

Lemma documents_consistent_ext (ix ix' : Indexer) :
  documents ix' = documents ix -> documents_inv ix' = documents_inv ix ->
  next_doc_id ix' = next_doc_id ix ->
  documents_consistent ix -> documents_consistent ix'.
Proof.
  intros E1 E2 E3 [A B C D E].
  constructor; rewrite ?E1, ?E2, ?E3; assumption.
Qed.

Lemma documents_consistent_add (ix ix' : Indexer) (path : string) :
  documents_consistent ix ->
  documents ix' = Dict.set (documents ix) path (next_doc_id ix) ->
  documents_inv ix' = Dict.set (documents_inv ix) (next_doc_id ix) path ->
  next_doc_id ix' = next_doc_id ix + 1 ->
  documents_consistent ix'
  /\ List.length (documents_inv ix') = S (List.length (documents_inv ix)).
Proof.
  intros [Hids Hcnt Hnd Hpaths Hknown] E1 E2 E3.
  assert (Hfresh : ~ In (next_doc_id ix) (Dict.keys (documents_inv ix))).
  { rewrite Hids, in_ids_to. lia. }
  assert (Hlen : List.length (documents_inv ix')
                 = S (List.length (documents_inv ix))).
  { rewrite E2. apply set_length_fresh. now apply get_none_not_in. }
  split; [|exact Hlen]. constructor.
  - rewrite Hlen, ids_to_succ, <- Hids, <- Hcnt, E2.
    rewrite set_fresh by exact Hfresh. now rewrite keys_app.
  - rewrite E3, Hlen. lia.
  - rewrite E1. now apply set_wf.
  - intros p id. rewrite E1, E2.
    destruct (String.eqb_spec path p) as [<-|Hne].
    + rewrite get_set_same. intros [= <-]. apply get_set_same.
    + rewrite get_set_other by exact Hne. intro Hp.
      rewrite get_set_other; [now apply Hpaths|].
      intros <-. apply Hfresh. eapply get_some_in_keys. eauto.
  - intros id p. rewrite E1, E2.
    destruct (Z.eq_dec (next_doc_id ix) id) as [<-|Hne].
    + rewrite get_set_same. intros [= <-]. exists (next_doc_id ix).
      apply get_set_same.
    + rewrite get_set_other by exact Hne. intro Hp.
      destruct (Hknown _ _ Hp) as [id' Hid'].
      destruct (String.eqb_spec path p) as [<-|Hp'].
      * exists (next_doc_id ix). apply get_set_same.
      * exists id'. now rewrite get_set_other.
Qed.

Lemma record_term_posted (doc_id : Z) (ix : Indexer) (e : string * Z) :
  terms_posted ix -> terms_posted (record_term doc_id ix e).
Proof.
  destruct e as [term freq]. intros Hp s t. unfold record_term.
  assert (Hset : forall pt t0 (p : posting),
            (exists dp, Dict.get pt t = Some dp) \/ t = t0 ->
            exists dp, Dict.get (set_posting pt t0 doc_id p) t = Some dp).
  { intros pt t0 p Hcase. unfold set_posting.
    destruct (Z.eq_dec t0 t) as [->|Hne].
    - rewrite get_set_same. eauto.
    - rewrite get_set_other by exact Hne.
      destruct Hcase as [Hdp | ->]; [exact Hdp | contradiction]. }
  destruct (Dict.get (terms ix) term) as [t0|] eqn:E; cbn.
  - intro Hs. apply Hset. left. now apply (Hp s).
  - destruct (String.eqb_spec term s) as [<-|Hne].
    + rewrite get_set_same. intros [= <-]. apply Hset. now right.
    + rewrite get_set_other by exact Hne. intro Hs. apply Hset. left.
      now apply (Hp s).
Qed.

Lemma record_terms_posted (doc_id : Z) (tfq : Dict.t string Z) (ix : Indexer) :
  terms_posted ix -> terms_posted (fold_left (record_term doc_id) tfq ix).
Proof.
  revert ix. induction tfq as [|e tfq IH]; intros ix Hp; [exact Hp|].
  cbn [fold_left]. apply IH. now apply record_term_posted.
Qed.

(** The term frequencies of the text, as an entry list. *)
Lemma term_freq_entries (text : string) (st : Stats) :
  let r := fold_left process_token (splitchars text) (st, []) in
  counts_ok (snd r)
  /\ (forall term freq,
        In (term, freq) (snd r)
        <-> freq = occurrences term (stems_of text) /\ 1 <= freq)
  /\ sum_values (fun n => n) (snd r) = Z.of_nat (List.length (stems_of text))
  /\ indexed_tokens (fst r)
     = indexed_tokens st + Z.of_nat (List.length (stems_of text)).
Proof.
  cbv zeta.
  destruct (term_freq_spec (splitchars text) st [])
    as ([Hwf Hpos] & Hfreq & Hmass & Hbal).
  { split; constructor. }
  fold (stems_of text) in Hfreq, Hmass, Hbal.
  split; [now split|]. split; [|split; [exact Hmass | exact Hbal]].
  intros term freq. specialize (Hfreq term).
  unfold freq_of at 2 in Hfreq. cbn [Dict.get] in Hfreq.
  split.
  - intro Hin. rewrite Forall_forall in Hpos.
    pose proof (Hpos _ Hin) as Hf. cbn [snd] in Hf.
    apply (in_get _ _ _ Hwf) in Hin. unfold freq_of in Hfreq.
    rewrite Hin in Hfreq. split; [lia | exact Hf].
  - intros [-> Hf]. apply get_in. unfold freq_of in Hfreq.
    destruct (Dict.get _ term) as [n|]; [f_equal; lia | lia].
Qed.

(** What [process_document_from_text] does to a consistent index. *)
Lemma process_document_from_text_spec (ix : Indexer) (text path : string) :
  consistent ix ->
  let doc_id := next_doc_id ix in
  let ix' := fst (process_document_from_text ix text path) in
  snd (process_document_from_text ix text path) = doc_id
  /\ consistent ix'
  /\ next_doc_id ix' = doc_id + 1
  /\ List.length (documents_inv ix') = S (List.length (documents_inv ix))
  /\ Dict.get (documents ix') path = Some doc_id
  /\ (forall term, 1 <= occurrences term (stems_of text) ->
        exists term_id,
          Dict.get (terms ix') term = Some term_id
          /\ posting_of ix' term_id doc_id
             = Some (mkPosting (occurrences term (stems_of text))
                               None None None))
  /\ (forall term_id p, posting_of ix' term_id doc_id = Some p ->
        exists term,
          Dict.get (terms ix') term = Some term_id
          /\ 1 <= occurrences term (stems_of text)
          /\ p = mkPosting (occurrences term (stems_of text)) None None None)
  /\ (forall t d, d <> doc_id -> posting_of ix' t d = posting_of ix t d)
  /\ (forall s t, Dict.get (terms ix) s = Some t ->
                  Dict.get (terms ix') s = Some t)
  /\ total_tf ix' = total_tf ix + Z.of_nat (List.length (stems_of text))
  /\ indexed_tokens (stats ix')
     = indexed_tokens (stats ix) + Z.of_nat (List.length (stems_of text))
  /\ (terms_posted ix -> terms_posted ix')
  /\ doc_lengths ix' = doc_lengths ix.
Proof.
  intros [Hdocs Hterms Hposts]. cbv zeta.
  unfold process_document_from_text.
  destruct (term_freq_entries text (stats ix))
    as ([Hwf Hpos] & Hentries & Hmass & Hbal).
  destruct (fold_left process_token (splitchars text) (stats ix, []))
    as [st tfq] eqn:Etok.
  cbn [fst snd] in *.
  set (ix1 := mkIndexer (Dict.set (documents ix) path (next_doc_id ix))
                (Dict.set (documents_inv ix) (next_doc_id ix) path)
                (terms ix) (terms_inv ix) (postings ix) (doc_lengths ix)
                (next_doc_id ix + 1) (next_term_id ix)
                (total_docs ix) (total_terms ix) st).
  assert (Hid : 1 <= next_doc_id ix) by (rewrite (doc_counter ix Hdocs); lia).
  destruct (documents_consistent_add ix ix1 path Hdocs eq_refl eq_refl eq_refl)
    as [Hdocs1 Hlen1].
  assert (Hterms1 : terms_consistent ix1)
    by now apply (terms_consistent_ext ix).
  assert (Hposts1 : postings_within ix1 (next_doc_id ix + 1))
    by (apply (postings_within_weaken ix ix1 (next_doc_id ix));
        [reflexivity | reflexivity | lia | exact Hposts]).
  assert (Hrec1 : recorded (next_doc_id ix) [] ix1).
  { split; [intros ? ? []|]. intros t p Hp.
    destruct (posting_of_within ix (next_doc_id ix) t (next_doc_id ix) p
                Hposts Hp) as (_ & Hd & _). lia. }
  destruct (record_terms_spec (next_doc_id ix) tfq Hid [] ix1 Hwf Hpos
              Hterms1 Hposts1 Hrec1)
    as (I1 & I2 & [Q1 Q2] & I4 & I5 & I6 & I7 & G1 & G2 & G3 & G4 & G5 & G6
        & G7).
  cbn [app] in Q1, Q2.
  set (ix2 := fold_left (record_term (next_doc_id ix)) tfq ix1) in *.
  split; [reflexivity|]. split; [|split; [exact G4|]].
  { constructor.
    - now apply (documents_consistent_ext ix1).
    - exact I1.
    - rewrite G4. exact I2. }
  split; [now rewrite G2|].
  split; [rewrite G1; apply get_set_same|].
  split.
  { intros term Hocc. apply Q1. apply Hentries. now split. }
  split.
  { intros t p Hp. destruct (Q2 t p Hp) as (term & freq & Hin & Ht & ->).
    apply Hentries in Hin as [-> Hf]. exists term. now repeat split. }
  split; [exact I5|]. split; [exact I6|].
  split; [rewrite I4, Hmass; reflexivity|].
  split; [rewrite G7; exact Hbal|].
  split; [|exact G3].
  intro Hp. now apply record_terms_posted.
Qed.

Lemma new_indexer_consistent : consistent new_indexer /\ terms_posted new_indexer.
Proof.
  split; [constructor|].
  - constructor; cbn; try reflexivity; try constructor; try discriminate.
  - constructor; cbn; try reflexivity; constructor.
  - split; constructor.
  - intros term t. cbn. discriminate.
Qed.

(** The indexes a session builds from scratch. *)
Lemma index_texts_spec (docs : list (string * string)) (ix : Indexer) :
  consistent ix -> terms_posted ix ->
  let ix' := index_texts docs ix in
  consistent ix' /\ terms_posted ix'
  /\ List.length (documents_inv ix')
     = (List.length (documents_inv ix) + List.length docs)%nat
  /\ total_tf ix' = total_tf ix + Z.of_nat (List.length (all_stems docs))
  /\ indexed_tokens (stats ix')
     = indexed_tokens (stats ix) + Z.of_nat (List.length (all_stems docs))
  /\ doc_lengths ix' = doc_lengths ix.
Proof.
  revert ix. induction docs as [|[text path] docs IH]; intros ix Hc Hp;
    cbv zeta.
  - cbn. repeat split; try assumption; try apply Hc; lia.
  - change (index_texts ((text, path) :: docs) ix)
      with (index_texts docs (fst (process_document_from_text ix text path))).
    destruct (process_document_from_text_spec ix text path Hc)
      as (_ & Hc1 & _ & Hlen & _ & _ & _ & _ & _ & Htf & Hbal & Hp1 & Hdl).
    destruct (IH _ Hc1 (Hp1 Hp)) as (J1 & J2 & J3 & J4 & J5 & J6).
    split; [exact J1|]. split; [exact J2|].
    unfold all_stems. cbn [flat_map fst]. rewrite length_app.
    fold (all_stems docs).
    split; [rewrite J3, Hlen; cbn; lia|].
    split; [lia|]. split; [lia | congruence].
Qed.

End Processing.

(* ------------------------------------------------------------------ *)
(** ** What an index built from scratch looks like *)

Section BuiltIndexes.
Context `{PyFloat} `{Stemmer}.

(** X15: in an index built from scratch every processed token is
    accounted for: it was rejected as a stop word, as short, as a
    number or for its punctuation, or it is counted in the [tf] of
    exactly one posting.  The [tf] of all postings add up to the
    number of tokens of the texts that pass the tests. *)
Theorem token_accounting (docs : list (string * string)) :
  let ix := index_texts docs new_indexer in
  tokens_processed (stats ix)
  = stop_words_matched (stats ix) + short_words_ignored (stats ix)
    + numbers_ignored (stats ix) + punctuation_words_ignored (stats ix)
    + total_tf ix
  /\ total_tf ix = Z.of_nat (List.length (all_stems docs)).
Proof.
  destruct new_indexer_consistent as [Hc Hp].
  destruct (index_texts_spec docs new_indexer Hc Hp)
    as (_ & _ & _ & Htf & Hbal & _).
  cbv zeta in *. unfold indexed_tokens in Hbal.
  change (total_tf new_indexer) with 0 in Htf.
  change (stats new_indexer) with (mkStats 0 0 0 0 0) in Hbal.
  cbn [tokens_processed stop_words_matched short_words_ignored
       numbers_ignored punctuation_words_ignored] in Hbal.
  split; lia.
Qed.

(** X16: in an index built from scratch the document ids are 1, 2,
    ... in the order of processing, one per processed document, and
    the term ids are 1, 2, ... in the order in which the terms were
    first met; [next_doc_id] and [next_term_id] are the next free
    ids, [terms_inv] is [terms] turned around, and [documents_inv]
    maps the id of every path back to the path. *)
Theorem ids_are_contiguous (docs : list (string * string)) :
  let ix := index_texts docs new_indexer in
  Dict.keys (documents_inv ix) = ids_to (List.length docs)
  /\ next_doc_id ix = Z.of_nat (List.length docs) + 1
  /\ Dict.values (terms ix) = ids_to (List.length (terms ix))
  /\ next_term_id ix = Z.of_nat (List.length (terms ix)) + 1
  /\ terms_inv ix = List.map swap (terms ix)
  /\ (forall path id, Dict.get (documents ix) path = Some id ->
                      Dict.get (documents_inv ix) id = Some path).
Proof.
  destruct new_indexer_consistent as [Hc Hp].
  destruct (index_texts_spec docs new_indexer Hc Hp)
    as ([[D1 D2 D3 D4 D5] [T1 T2 T3 T4] _] & _ & Hlen & _).
  cbv zeta in *. change (documents_inv new_indexer) with (@nil (Z * string)) in Hlen.
  cbn [List.length Nat.add] in Hlen. rewrite Hlen in D1, D2.
  repeat split; assumption.
Qed.

Lemma record_terms_documents (doc_id : Z) (tfq : Dict.t string Z)
  (ix : Indexer) :
  documents (fold_left (record_term doc_id) tfq ix) = documents ix.
Proof.
  revert ix. induction tfq as [|[term freq] tfq IH]; intro ix; [reflexivity|].
  cbn [fold_left]. rewrite IH. unfold record_term.
  destruct (Dict.get (terms ix) term); reflexivity.
Qed.

Lemma record_terms_documents_inv (doc_id : Z) (tfq : Dict.t string Z)
  (ix : Indexer) :
  documents_inv (fold_left (record_term doc_id) tfq ix) = documents_inv ix.
Proof.
  revert ix. induction tfq as [|[term freq] tfq IH]; intro ix; [reflexivity|].
  cbn [fold_left]. rewrite IH. unfold record_term.
  destruct (Dict.get (terms ix) term); reflexivity.
Qed.

(** The two assignments [documents[doc_path] = doc_id] and
    [documents_inv[doc_id] = doc_path]. *)
Lemma process_document_from_text_documents (ix : Indexer)
  (text path : string) :
  let ix' := fst (process_document_from_text ix text path) in
  documents ix' = Dict.set (documents ix) path (next_doc_id ix)
  /\ documents_inv ix' = Dict.set (documents_inv ix) (next_doc_id ix) path.
Proof.
  cbv zeta. unfold process_document_from_text.
  destruct (fold_left process_token (splitchars text) (stats ix, []))
    as [st tfq].
  cbn [fst]. rewrite record_terms_documents, record_terms_documents_inv.
  split; reflexivity.
Qed.

(** When no path is processed twice, [documents] has each path under
    the id under which [documents_inv] has it. *)
Lemma index_texts_distinct_paths (docs : list (string * string))
  (ix : Indexer) :
  NoDup (List.map snd docs) ->
  (forall d, In d docs -> Dict.get (documents ix) (snd d) = None) ->
  (forall id path, Dict.get (documents_inv ix) id = Some path ->
                   Dict.get (documents ix) path = Some id) ->
  forall id path,
    Dict.get (documents_inv (index_texts docs ix)) id = Some path ->
    Dict.get (documents (index_texts docs ix)) path = Some id.
Proof.
  revert ix. induction docs as [|[text path0] docs IH];
    intros ix Hnd Hfresh Hinv; [exact Hinv|].
  change (index_texts ((text, path0) :: docs) ix)
    with (index_texts docs (fst (process_document_from_text ix text path0))).
  cbn [List.map snd] in Hnd. inversion Hnd as [|? ? Hnotin Hnd']; subst.
  destruct (process_document_from_text_documents ix text path0) as [E1 E2].
  cbv zeta in E1, E2.
  assert (Hpath0 : Dict.get (documents ix) path0 = None)
    by (apply (Hfresh (text, path0)); now left).
  apply IH; [exact Hnd'| |].
  - intros d Hd. rewrite E1, get_set_other; [apply Hfresh; now right|].
    intros ->. apply Hnotin. now apply in_map.
  - intros id path. rewrite E1, E2.
    destruct (Z.eq_dec (next_doc_id ix) id) as [<-|Hne].
    + rewrite get_set_same. intros [= <-]. apply get_set_same.
    + rewrite get_set_other by exact Hne. intro Hp.
      rewrite get_set_other; [now apply Hinv|].
      intros <-. apply Hinv in Hp. congruence.
Qed.

(** X17: in an index built from scratch every posting belongs to a
    term of both term tables and to a document that [documents_inv]
    has, under a path that [documents] has; when no path was
    processed twice, [documents] has that path under the same id, so
    that the document is in both document tables.  The [tf] of the
    posting is at least 1, and every term has a posting. *)
Theorem postings_refer_to_known_ids (docs : list (string * string))
  (term_id doc_id : Z) (p : posting) :
  let ix := index_texts docs new_indexer in
  posting_of ix term_id doc_id = Some p ->
  (exists term, Dict.get (terms_inv ix) term_id = Some term
                /\ Dict.get (terms ix) term = Some term_id)
  /\ (exists path id, Dict.get (documents_inv ix) doc_id = Some path
                      /\ Dict.get (documents ix) path = Some id
                      /\ (NoDup (List.map snd docs) -> id = doc_id))
  /\ 1 <= tf p
  /\ (forall term t, Dict.get (terms ix) term = Some t ->
        exists doc_postings,
          Dict.get (postings ix) t = Some doc_postings
          /\ doc_postings <> []).
Proof.
  destruct new_indexer_consistent as [Hc Hp].
  destruct (index_texts_spec docs new_indexer Hc Hp)
    as ([[D1 D2 D3 D4 D5] [T1 T2 T3 T4] Hw] & Hposted & _).
  pose proof (index_texts_distinct_paths docs new_indexer) as Hdistinct.
  cbv zeta in *. set (ix := index_texts docs new_indexer) in *.
  intro Hpost.
  destruct (posting_of_within ix _ _ _ _ Hw Hpost) as (Ht & Hd & Htf).
  split; [|split; [|split; [exact Htf|]]].
  - assert (Hin : In term_id (Dict.values (terms ix)))
      by (rewrite T1; apply in_ids_to; lia).
    unfold Dict.values in Hin. apply in_map_iff in Hin as [[term t] [E Hin]].
    cbn in E. subst t. exists term. split; [|now apply in_get].
    apply in_get.
    + unfold Dict.wf, Dict.keys. rewrite T4, keys_swap.
      fold (Dict.values (terms ix)). rewrite T1. apply ids_to_nodup.
    + rewrite T4. apply in_map_iff. now exists (term, term_id).
  - assert (Hin : In doc_id (Dict.keys (documents_inv ix)))
      by (rewrite D1; apply in_ids_to; lia).
    apply get_not_none_in_keys in Hin.
    destruct (Dict.get (documents_inv ix) doc_id) as [path|] eqn:E;
      [|congruence].
    destruct (D5 _ _ E) as [id Hid]. exists path, id.
    split; [reflexivity|]. split; [exact Hid|]. intro Hnd.
    assert (Hsame : Dict.get (documents ix) path = Some doc_id).
    { apply Hdistinct; [exact Hnd | reflexivity | discriminate | exact E]. }
    congruence.
  - intros term t Hterm. destruct (Hposted _ _ Hterm) as [dp Hdp].
    exists dp. split; [exact Hdp|].
    destruct Hw as [_ Hall]. rewrite Forall_forall in Hall.
    apply get_in in Hdp. specialize (Hall _ Hdp). cbn in Hall. tauto.
Qed.

(** X18: processing one more document gives it the next id, and for
    each term of its text one posting under that id whose [tf] is the
    number of tokens of the text with that stem; there is no other
    posting under that id, and the postings of the documents
    processed before are as they were. *)
Theorem term_frequency_recorded (docs : list (string * string))
  (text path : string) :
  let ix := index_texts docs new_indexer in
  let ix' := fst (process_document_from_text ix text path) in
  let doc_id := snd (process_document_from_text ix text path) in
  doc_id = Z.of_nat (List.length docs) + 1
  /\ Dict.get (documents ix') path = Some doc_id
  /\ (forall term, 1 <= occurrences term (stems_of text) ->
        exists term_id,
          Dict.get (terms ix') term = Some term_id
          /\ posting_of ix' term_id doc_id
             = Some (mkPosting (occurrences term (stems_of text))
                               None None None))
  /\ (forall term_id p, posting_of ix' term_id doc_id = Some p ->
        exists term,
          Dict.get (terms ix') term = Some term_id
          /\ 1 <= occurrences term (stems_of text)
          /\ tf p = occurrences term (stems_of text))
  /\ (forall t d, d <> doc_id -> posting_of ix' t d = posting_of ix t d).
Proof.
  destruct new_indexer_consistent as [Hc Hp].
  destruct (index_texts_spec docs new_indexer Hc Hp)
    as (Hc1 & _ & Hlen & _).
  cbv zeta in *. set (ix := index_texts docs new_indexer) in *.
  destruct (process_document_from_text_spec ix text path Hc1)
    as (S1 & _ & _ & _ & S5 & S6 & S7 & S8 & _).
  rewrite S1.
  split; [|split; [exact S5|split; [exact S6|split; [|exact S8]]]].
  - rewrite (doc_counter ix (consistent_documents ix Hc1)), Hlen. cbn. lia.
  - intros t p Hpost. destruct (S7 t p Hpost) as (term & Ht & Hocc & ->).
    exists term. now repeat split.
Qed.

End BuiltIndexes.

(* ------------------------------------------------------------------ *)
(** ** The crawler and the indexer *)

Section CrawlerAndIndexer.
Context `{PyFloat} `{Stemmer}.

Lemma crawler_token_totals (st : Stats) (total stops : Z)
  (tfq : Dict.t string Z) (t : string) :
  let rc := crawler_token ((total, stops), tfq) t in
  let rp := process_token (st, tfq) t in
  fst (fst rc) - total = tokens_processed (fst rp) - tokens_processed st
  /\ snd (fst rc) - stops
     = stop_words_matched (fst rp) - stop_words_matched st.
Proof.
  destruct st as [n1 n2 n3 n4 n5].
  unfold crawler_token, process_token, count_token, count_stop_word,
    count_punctuation, count_short_word, count_number. cbv zeta.
  destruct (Str.is_empty (normalize_token t)),
    (is_stop_word (normalize_token t)),
    (starts_with_punctuation (normalize_token t)),
    (is_short (normalize_token t)),
    (is_number (normalize_token t)); cbn; lia.
Qed.

Lemma crawler_tokens_totals (ts : list string) (st : Stats) (total stops : Z)
  (tfq : Dict.t string Z) :
  let rc := fold_left crawler_token ts ((total, stops), tfq) in
  let rp := fold_left process_token ts (st, tfq) in
  fst (fst rc) - total = tokens_processed (fst rp) - tokens_processed st
  /\ snd (fst rc) - stops
     = stop_words_matched (fst rp) - stop_words_matched st
  /\ snd rc = snd rp.
Proof.
  revert st total stops tfq.
  induction ts as [|t ts IH]; intros st total stops tfq; cbv zeta.
  - cbn. repeat split; lia.
  - cbn [fold_left].
    pose proof (crawler_token_totals st total stops tfq t) as [A1 A2].
    pose proof (crawler_token_freq (total, stops) tfq t) as A3.
    pose proof (process_token_freq st tfq t) as A4.
    destruct (crawler_token ((total, stops), tfq) t) as [[total1 stops1] tfq1].
    destruct (process_token (st, tfq) t) as [st1 tfq2].
    cbn [fst snd] in *. assert (E12 : tfq2 = tfq1) by congruence.
    clear A3 A4. subst tfq2.
    destruct (IH st1 total1 stops1 tfq1) as (I1 & I2 & I3).
    repeat split; [lia | lia | exact I3].
Qed.

Lemma crawler_record_term_same (doc_id : Z) (ixc ixi : Indexer) (unique : Z)
  (e : string * Z) :
  same_tables ixc ixi ->
  same_tables (fst (crawler_record_term doc_id (ixc, unique) e))
              (record_term doc_id ixi e).
Proof.
  intros (E1 & E2 & E3 & E4 & E5). destruct e as [term freq].
  unfold crawler_record_term, record_term. rewrite E2.
  destruct (Dict.get (terms ixi) term); cbn [fst]; unfold same_tables; cbn;
    rewrite ?E1, ?E2, ?E3, ?E4, ?E5; repeat split.
Qed.

Lemma crawler_record_terms_same (doc_id : Z) (tfq : Dict.t string Z)
  (ixc ixi : Indexer) (unique : Z) :
  same_tables ixc ixi ->
  same_tables (fst (fold_left (crawler_record_term doc_id) tfq (ixc, unique)))
              (fold_left (record_term doc_id) tfq ixi).
Proof.
  revert ixc ixi unique.
  induction tfq as [|e tfq IH]; intros ixc ixi unique Hs; [exact Hs|].
  cbn [fold_left].
  pose proof (crawler_record_term_same doc_id ixc ixi unique e Hs) as Hs1.
  destruct (crawler_record_term doc_id (ixc, unique) e) as [ixc1 u1].
  now apply IH.
Qed.

(** X19: on the same text and under the same name, the crawler's
    [process_document] and the indexer's
    [process_document_from_text] do the same to the documents, the
    terms, the postings and the two id counters; and the crawler's
    [total_tokens] and [stop_words_matched] grow as the indexer's
    [tokens_processed] and [stop_words_matched] do. *)
Theorem crawler_indexes_as_indexer (c : WebCrawler) (ix : Indexer)
  (url text : string) :
  same_tables (indexer c) ix ->
  let c' := process_document c url text in
  let ix' := fst (process_document_from_text ix text url) in
  same_tables (indexer c') ix'
  /\ CStats.total_tokens (cstats c') - CStats.total_tokens (cstats c)
     = tokens_processed (stats ix') - tokens_processed (stats ix)
  /\ CStats.stop_words_matched (cstats c')
     - CStats.stop_words_matched (cstats c)
     = stop_words_matched (stats ix') - stop_words_matched (stats ix).
Proof.
  intros Hs. pose proof Hs as (E1 & E2 & E3 & E4 & E5). cbv zeta.
  unfold process_document, process_document_from_text.
  pose proof (crawler_tokens_totals (splitchars text) (stats ix)
                (CStats.total_tokens (cstats c))
                (CStats.stop_words_matched (cstats c)) []) as Htok.
  cbv zeta in Htok.
  destruct (fold_left crawler_token (splitchars text) _)
    as [[total stops] tfq].
  destruct (fold_left process_token (splitchars text) _) as [st tfq'].
  cbn [fst snd] in Htok. destruct Htok as (T1 & T2 & <-).
  match goal with
  | |- context [fold_left (crawler_record_term ?d) tfq (?ixc1, ?u)] =>
      pose proof (fun ixi1 Hs1 =>
                    crawler_record_terms_same d tfq ixc1 ixi1 u Hs1) as Hrec;
      destruct (fold_left (crawler_record_term d) tfq (ixc1, u))
        as [ixc2 u2] eqn:Efold
  end.
  cbn [fst snd indexer cstats CStats.total_tokens CStats.stop_words_matched].
  rewrite record_terms_stats. cbn [stats].
  split; [|split; assumption].
  rewrite <- E4. apply Hrec. unfold same_tables. cbn.
  rewrite E1, E2, E3, E4, E5. repeat split.
Qed.

End CrawlerAndIndexer.

(* ------------------------------------------------------------------ *)
(** ** The statistics of a crawl *)

Section CrawlStatistics.
Context `{PyFloat} `{Stemmer}.
Variable normalize_url : string -> string.

Lemma crawler_record_terms_counts (doc_id : Z) (tfq : Dict.t string Z)
  (ix : Indexer) (unique : Z) :
  let r := fold_left (crawler_record_term doc_id) tfq (ix, unique) in
  snd r - Z.of_nat (List.length (terms (fst r)))
  = unique - Z.of_nat (List.length (terms ix))
  /\ next_term_id (fst r) - Z.of_nat (List.length (terms (fst r)))
     = next_term_id ix - Z.of_nat (List.length (terms ix))
  /\ next_doc_id (fst r) = next_doc_id ix.
Proof.
  revert ix unique. induction tfq as [|[term freq] tfq IH]; intros ix unique;
    cbv zeta.
  - cbn. repeat split; lia.
  - cbn [fold_left].
    destruct (crawler_record_term doc_id (ix, unique) (term, freq))
      as [ix1 u1] eqn:E.
    destruct (IH ix1 u1) as (I1 & I2 & I3). rewrite I1, I2, I3.
    unfold crawler_record_term in E.
    destruct (Dict.get (terms ix) term) eqn:G; injection E as <- <-; cbn.
    + repeat split; lia.
    + rewrite (set_length_fresh _ _ _ G). repeat split; lia.
Qed.

Lemma process_document_stats (c : WebCrawler) (url text : string) :
  stats_agree c -> stats_agree (process_document c url text).
Proof.
  intros (A1 & A2 & A3 & A4). unfold process_document.
  destruct (fold_left crawler_token _ _) as [[total stops] tfq].
  match goal with
  | |- context [fold_left (crawler_record_term ?d) tfq (?ix1, ?u)] =>
      pose proof (crawler_record_terms_counts d tfq ix1 u) as (C1 & C2 & C3);
      destruct (fold_left (crawler_record_term d) tfq (ix1, u)) as [ix2 u2]
  end.
  cbn [fst snd terms next_term_id next_doc_id] in C1, C2, C3.
  unfold stats_agree. cbn. repeat split; lia.
Qed.

Lemma push_links_unique (depth : Z) (ls : list string) (m : URLManager.t)
  (c : WebCrawler) :
  CStats.unique_terms
    (cstats (snd (fold_left (push_link normalize_url depth) ls (m, c))))
  = CStats.unique_terms (cstats c).
Proof.
  revert m c. induction ls as [|l ls IH]; intros m c; [reflexivity|].
  cbn [fold_left].
  destruct (push_link normalize_url depth (m, c) l) as [m1 c1] eqn:E.
  unfold push_link in E.
  destruct (CStats.urls_in_frontier (cstats c) <? max_urls c);
    injection E as <- <-; now rewrite IH.
Qed.

Lemma crawl_step_stats (s : crawl_state) (ev : event) :
  stats_agree (crawler s) ->
  stats_agree (crawler (crawl_step normalize_url s ev)).
Proof.
  intros Hs. unfold crawl_step.
  destruct (status s); try exact Hs.
  destruct (URLManager.is_empty (url_manager s)); [exact Hs|].
  destruct (URLManager.get_next_url (url_manager s)) as [[[url depth] m]|];
    [|exact Hs].
  destruct ev as [|r]; [exact Hs|].
  destruct (max_depth (crawler s) <? depth); [exact Hs|].
  destruct r as [| |text links]; try exact Hs.
  pose proof (process_document_stats (crawler s) url text Hs) as Hc1.
  set (c1 := process_document (crawler s) url text) in *.
  assert (Hpush : forall c2,
             indexer c2 = indexer c1 ->
             CStats.documents_processed (cstats c2)
             = CStats.documents_processed (cstats c1) ->
             CStats.unique_terms (cstats c2) = CStats.unique_terms (cstats c1) ->
             CStats.urls_crawled (cstats c2) = CStats.urls_crawled (cstats c1) ->
             CStats.urls_crawled (cstats c1)
             < CStats.documents_processed (cstats c1) ->
             stats_agree (count_crawled c2)).
  { intros c2 E1 E2 E3 E4 Hlt. destruct Hc1 as (A1 & A2 & A3 & A4).
    unfold stats_agree. cbn. rewrite E1, E2, E3, E4. repeat split; lia. }
  assert (Hlt : CStats.urls_crawled (cstats c1)
                < CStats.documents_processed (cstats c1)).
  { destruct (process_document_spec (crawler s) url text)
      as (_ & _ & P3 & _ & P5 & _).
    fold c1 in P3, P5. destruct Hs as (_ & _ & _ & A4). lia. }
  destruct (CStats.urls_crawled (cstats c1) <? max_urls c1).
  - destruct links as [ls|]; [|exact Hc1].
    destruct (push_links_spec normalize_url depth ls m c1)
      as (_ & _ & Q1 & Q4 & Q2).
    pose proof (push_links_unique depth ls m c1) as Q3.
    destruct (fold_left (push_link normalize_url depth) ls (m, c1))
      as [m2 c2].
    cbn [snd] in Q1, Q2, Q3, Q4.
    destruct (max_urls (count_crawled c2) <=? _); cbn [crawler];
      now apply Hpush.
  - destruct (max_urls (count_crawled c1) <=? _); cbn [crawler];
      now apply Hpush.
Qed.

(** X20: at every moment of a crawl the statistics say what the index
    holds: [documents_processed] is the number of document ids given
    out, [unique_terms] is the number of terms and of term ids given
    out, and no more URLs are counted as crawled than documents were
    processed. *)
Theorem crawl_statistics_agree (mu md : Z) (start_url : string)
  (evs : list event) :
  let c := crawler (crawl_run normalize_url
                      (crawl_start normalize_url (new_crawler mu md)
                         start_url) evs) in
  next_doc_id (indexer c) = CStats.documents_processed (cstats c) + 1
  /\ CStats.unique_terms (cstats c)
     = Z.of_nat (List.length (terms (indexer c)))
  /\ next_term_id (indexer c) = CStats.unique_terms (cstats c) + 1
  /\ 0 <= CStats.urls_crawled (cstats c)
     <= CStats.documents_processed (cstats c).
Proof.
  cbv zeta.
  assert (Hrun : forall evs s, stats_agree (crawler s) ->
            stats_agree (crawler (crawl_run normalize_url s evs))).
  { clear evs. intro evs. induction evs as [|ev evs IH]; intros s Hs;
      [exact Hs|].
    cbn [crawl_run fold_left]. apply IH. now apply crawl_step_stats. }
  apply Hrun. unfold stats_agree. cbn. repeat split; lia.
Qed.

(** *** Every processed page is a document of its own *)

Lemma add_url_frontier (m : URLManager.t) (docs : list string)
  (link : string) (depth : Z) :
  NoDup (pending_urls m) ->
  incl (pending_urls m) (URLManager.seen m) ->
  (forall u, In u docs ->
     In u (URLManager.seen m) /\ ~ In u (pending_urls m)) ->
  let m' := URLManager.add_url normalize_url m link depth in
  NoDup (pending_urls m')
  /\ incl (pending_urls m') (URLManager.seen m')
  /\ (forall u, In u docs ->
        In u (URLManager.seen m') /\ ~ In u (pending_urls m')).
Proof.
  intros Hnd Hincl Hdocs. cbv zeta. unfold URLManager.add_url.
  destruct (Str.mem (normalize_url link) (URLManager.seen m)) eqn:Hmem;
    cbn [orb]; [split; [|split]; assumption|].
  destruct (URLManager.max_urls m <=? _); [split; [|split]; assumption|].
  assert (Hnew : ~ In (normalize_url link) (URLManager.seen m)).
  { intro Hin. apply mem_in in Hin. congruence. }
  unfold pending_urls in *. cbn. split; [|split].
  - constructor; [|exact Hnd]. intro Hin. apply Hnew. now apply Hincl.
  - intros u [<-|Hu]; [now left | right; now apply Hincl].
  - intros u Hu. destruct (Hdocs u Hu) as [G1 G2]. split; [now right|].
    intros [<-|Hin]; [now apply Hnew | now apply G2].
Qed.

Lemma push_links_frontier (depth : Z) (docs : list string) (ls : list string) :
  forall (m : URLManager.t) (c : WebCrawler),
  NoDup (pending_urls m) ->
  incl (pending_urls m) (URLManager.seen m) ->
  (forall u, In u docs ->
     In u (URLManager.seen m) /\ ~ In u (pending_urls m)) ->
  let r := fold_left (push_link normalize_url depth) ls (m, c) in
  NoDup (pending_urls (fst r))
  /\ incl (pending_urls (fst r)) (URLManager.seen (fst r))
  /\ (forall u, In u docs ->
        In u (URLManager.seen (fst r)) /\ ~ In u (pending_urls (fst r))).
Proof.
  induction ls as [|l ls IH]; intros m c H1 H2 H3; cbv zeta;
    [cbn; split; [|split]; assumption|].
  cbn [fold_left].
  destruct (push_link normalize_url depth (m, c) l) as [m1 c1] eqn:E.
  unfold push_link in E.
  destruct (CStats.urls_in_frontier (cstats c) <? max_urls c);
    injection E as <- <-.
  - destruct (add_url_frontier m docs l (depth + 1) H1 H2 H3)
      as (A1 & A2 & A3).
    now apply IH.
  - now apply IH.
Qed.

Lemma crawl_step_frontier (s : crawl_state) (ev : event) :
  frontier_ok s -> frontier_ok (crawl_step normalize_url s ev).
Proof.
  intros Hs. pose proof Hs as (F1 & F2 & F3 & F4). unfold crawl_step.
  destruct (status s); try exact Hs.
  destruct (URLManager.is_empty (url_manager s)); [exact Hs|].
  unfold URLManager.get_next_url.
  unfold pending_urls in F1, F2, F3.
  destruct (URLManager.pending (url_manager s)) as [|[url depth] rest] eqn:Ep;
    [exact Hs|].
  cbn [List.map fst] in F1, F2, F3.
  set (m := URLManager.mk (URLManager.max_urls (url_manager s)) rest
              (URLManager.seen (url_manager s))).
  assert (Hnd : NoDup (pending_urls m)) by now inversion F1.
  assert (Hfresh : ~ In url (pending_urls m)) by now inversion F1.
  assert (Hincl : incl (pending_urls m) (URLManager.seen m)).
  { intros u Hu. apply F2. now right. }
  assert (Hseen : In url (URLManager.seen m)) by (apply F2; now left).
  assert (Hdocs : forall u,
            In u (Dict.keys (documents (indexer (crawler s)))) ->
            In u (URLManager.seen m) /\ ~ In u (pending_urls m)).
  { intros u Hu. destruct (F3 u Hu) as [G1 G2]. split; [exact G1|].
    intro Hin. apply G2. now right. }
  assert (Hskip : frontier_ok (mkCrawl m (crawler s) Crawling))
    by (unfold frontier_ok; cbn [url_manager crawler];
        split; [|split; [|split]]; assumption).
  destruct ev as [|r]; [exact Hs|].
  destruct (max_depth (crawler s) <? depth); [exact Hskip|].
  destruct r as [| |text links]; try exact Hskip.
  destruct (process_document_spec (crawler s) url text)
    as (_ & _ & _ & _ & P5 & P6 & _).
  set (c1 := process_document (crawler s) url text) in *.
  cbv zeta in P5, P6.
  assert (Hnew : Dict.get (documents (indexer (crawler s))) url = None).
  { apply get_none_not_in. intro Hin. apply (proj2 (F3 url Hin)). now left. }
  assert (Hdocs1 : forall u,
            In u (Dict.keys (documents (indexer c1))) ->
            In u (URLManager.seen m) /\ ~ In u (pending_urls m)).
  { intros u. rewrite P6. rewrite set_fresh by now apply get_none_fresh.
    rewrite keys_app. rewrite in_app_iff. intros [Hu|[<-|[]]].
    - now apply Hdocs.
    - now split. }
  assert (Hlen1 : Z.of_nat (List.length (documents (indexer c1)))
                  = CStats.documents_processed (cstats c1)).
  { rewrite P5, P6, (set_length_fresh _ _ _ Hnew). lia. }
  assert (Hdone : forall m2 c2,
            NoDup (pending_urls m2)
            /\ incl (pending_urls m2) (URLManager.seen m2)
            /\ (forall u, In u (Dict.keys (documents (indexer c1))) ->
                  In u (URLManager.seen m2) /\ ~ In u (pending_urls m2)) ->
            indexer c2 = indexer c1 ->
            CStats.documents_processed (cstats c2)
            = CStats.documents_processed (cstats c1) ->
            forall st, frontier_ok (mkCrawl m2 (count_crawled c2) st)).
  { intros m2 c2 (G1 & G2 & G3) E1 E2 st. unfold frontier_ok.
    cbn. rewrite E1, E2. split; [|split; [|split]]; assumption. }
  destruct (CStats.urls_crawled (cstats c1) <? max_urls c1).
  - destruct links as [ls|].
    + pose proof (push_links_frontier depth _ ls m c1 Hnd Hincl Hdocs1)
        as Hpush.
      destruct (push_links_spec normalize_url depth ls m c1)
        as (_ & _ & Q3 & _ & Q5).
      destruct (fold_left (push_link normalize_url depth) ls (m, c1))
        as [m2 c2].
      cbn [fst snd] in Hpush, Q3, Q5.
      destruct (max_urls (count_crawled c2) <=? _); now apply Hdone.
    + unfold frontier_ok. cbn [url_manager crawler].
      split; [|split; [|split]]; assumption.
  - destruct (max_urls (count_crawled c1) <=? _); now apply Hdone.
Qed.

(** X21: with the frontier as the specification describes it, no URL
    is processed twice: at every moment of a crawl the documents
    table has one entry per processed page.  So the [N] of the
    crawler's scoring pass, [documents_processed], is the [N] of the
    indexer's, [len(documents)], and the two passes do the same. *)
Theorem crawled_pages_are_distinct (mu md : Z) (start_url : string)
  (evs : list event) :
  let c := crawler (crawl_run normalize_url
                      (crawl_start normalize_url (new_crawler mu md)
                         start_url) evs) in
  Z.of_nat (List.length (documents (indexer c)))
  = CStats.documents_processed (cstats c)
  /\ crawler_calculate_tf_idf c
     = (ix' <- calculate_tf_idf (indexer c) ;; ret (with_indexer c ix')).
Proof.
  cbv zeta.
  assert (Hrun : forall evs s, frontier_ok s ->
            frontier_ok (crawl_run normalize_url s evs)).
  { clear evs. intro evs. induction evs as [|ev evs IH]; intros s Hs;
      [exact Hs|].
    cbn [crawl_run fold_left]. apply IH. now apply crawl_step_frontier. }
  assert (Hstart : frontier_ok
            (crawl_start normalize_url (new_crawler mu md) start_url)).
  { unfold crawl_start, frontier_ok. cbn [url_manager crawler].
    assert (A : NoDup (pending_urls (URLManager.new mu))
                /\ incl (pending_urls (URLManager.new mu))
                        (URLManager.seen (URLManager.new mu))
                /\ forall u, In u (@nil string) ->
                     In u (URLManager.seen (URLManager.new mu))
                     /\ ~ In u (pending_urls (URLManager.new mu))).
    { split; [constructor|]. split; [intros u []|intros u []]. }
    destruct A as (A1 & A2 & A3).
    destruct (add_url_frontier (URLManager.new mu) [] start_url 0 A1 A2 A3)
      as (B1 & B2 & B3).
    cbn [max_urls new_crawler indexer documents Dict.keys List.map
         cstats CStats.documents_processed CStats.zero List.length].
    split; [exact B1|]. split; [exact B2|]. split; [exact B3|reflexivity]. }
  destruct (Hrun evs _ Hstart) as (_ & _ & _ & Hlen).
  split; [exact Hlen|].
  unfold crawler_calculate_tf_idf, calculate_tf_idf. rewrite Hlen.
  destruct (score_postings _ _) as [tr [e|pt]]; cbn; rewrite ?app_nil_r;
    reflexivity.
Qed.

End CrawlStatistics.

(* ------------------------------------------------------------------ *)
(** ** Building the index from a corpus *)

Section Building.
Context `{PyFloat} `{Stemmer}.

Lemma read_documents_index_texts (doc_files : list (string * option string))
  (ix : Indexer) :
  fold_left read_document doc_files ix = index_texts (readable doc_files) ix.
Proof.
  revert ix. induction doc_files as [|[path [content|]] fs IH]; intro ix;
    [reflexivity| |]; cbn [fold_left]; unfold read_document at 2;
    cbn [fst snd]; rewrite IH; reflexivity.
Qed.

Lemma add_square_returns (doc_id : Z) (e : Z * Dict.t Z posting) (acc : float) :
  Forall (fun dp => tf_idf (snd dp) <> None) (snd e) ->
  exists acc', add_square doc_id e acc = ret acc'.
Proof.
  intro Hs. unfold add_square.
  destruct (Dict.get (snd e) doc_id) as [p|] eqn:E; [|now exists acc].
  apply get_in in E. rewrite Forall_forall in Hs. specialize (Hs _ E).
  cbn in Hs. destruct (tf_idf p) as [w|]; [|congruence]. eexists. reflexivity.
Qed.

Lemma length_squared_returns (pt : Dict.t Z (Dict.t Z posting)) (doc_id : Z) :
  all_scored pt -> exists x, length_squared_of pt doc_id = ret x.
Proof.
  intro Hs. unfold all_scored in Hs. unfold length_squared_of.
  generalize (float_of_int 0).
  induction Hs as [|e pt He Hpt IH]; intro acc; [now exists acc|].
  cbn [for_each]. destruct (add_square_returns doc_id e acc He) as [acc' ->].
  rewrite bind_ret. apply IH.
Qed.

Lemma length_of_returns (x : float) :
  exists tr len, length_of x = (tr, inr len).
Proof.
  unfold length_of. destruct (fgt0 x); cbn; eexists _, _; reflexivity.
Qed.

Lemma document_lengths_return (pt : Dict.t Z (Dict.t Z posting))
  (ids : list Z) :
  all_scored pt ->
  forall dl, exists tr dl',
    for_each (document_length pt) ids dl = (tr, inr dl').
Proof.
  intro Hs. induction ids as [|k ids IH]; intro dl.
  - now exists [], dl.
  - cbn [for_each]. unfold document_length at 1.
    destruct (length_squared_returns pt k Hs) as [x ->]. rewrite bind_ret.
    destruct (length_of_returns x) as (tr1 & len & ->).
    destruct (IH (Dict.set dl k len)) as (tr2 & dl' & E).
    cbn. rewrite E. eexists _, _. reflexivity.
Qed.

Lemma document_lengths_keys (pt : Dict.t Z (Dict.t Z posting))
  (ids : list Z) :
  forall dl tr dl',
  for_each (document_length pt) ids dl = (tr, inr dl') ->
  NoDup ids -> (forall k, In k ids -> ~ In k (Dict.keys dl)) ->
  Dict.keys dl' = (Dict.keys dl ++ ids)%list.
Proof.
  induction ids as [|k ids IH]; intros dl tr dl' E Hnd Hnew.
  - injection E as _ <-. now rewrite app_nil_r.
  - apply for_each_returns in E as (t1 & dl1 & t2 & E1 & E2).
    apply document_length_returns in E1 as (ls & len & _ & _ & ->).
    inversion Hnd as [|? ? Hk Hnd']; subst.
    rewrite (IH _ _ _ E2 Hnd').
    + rewrite set_fresh by (apply Hnew; now left).
      rewrite keys_app. cbn. now rewrite <- app_assoc.
    + intros k' Hk'. rewrite set_fresh by (apply Hnew; now left).
      rewrite keys_app, in_app_iff. cbn. intros [Hin|[<-|[]]].
      * revert Hin. apply Hnew. now right.
      * contradiction.
Qed.

Lemma scored_all_scored (N : Z) (pt : Dict.t Z (Dict.t Z posting)) :
  all_scored (List.map (fun e => (fst e, scored N (snd e))) pt).
Proof.
  unfold all_scored. apply Forall_forall. intros e He.
  apply in_map_iff in He as [[t dp] [<- _]]. cbn [snd].
  apply Forall_forall. intros x Hx. unfold scored in Hx.
  apply in_map_iff in Hx as [[d p] [<- _]]. cbn. discriminate.
Qed.

Lemma no_documents_no_postings (ix : Indexer) :
  consistent ix -> documents ix = [] -> postings ix = [].
Proof.
  intros [[D1 D2 D3 D4 D5] _ [_ Hall]] Hnone.
  assert (Hinv : documents_inv ix = []).
  { destruct (documents_inv ix) as [|[id path] rest] eqn:E; [reflexivity|].
    destruct (D5 id path) as [id' Hid'].
    - cbn. now rewrite Z.eqb_refl.
    - rewrite Hnone in Hid'. discriminate. }
  rewrite Hinv in D2. cbn in D2.
  destruct (postings ix) as [|[t dp] rest]; [reflexivity|].
  inversion Hall as [|? ? (_ & _ & Hne & Hdp) _]; subst. cbn [snd] in *.
  destruct dp as [|[d p] dp]; [congruence|].
  inversion Hdp as [|? ? [Hd _] _]; subst. cbn in Hd. lia.
Qed.

Context `{!PyFloatLaws}.

Lemma calculate_tf_idf_consistent (ix : Indexer) :
  consistent ix ->
  exists tr,
    calculate_tf_idf ix
    = (tr, inr (with_postings ix
                  (List.map (fun e => (fst e,
                                       scored (Z.of_nat (List.length
                                                           (documents ix)))
                                              (snd e)))
                            (postings ix)))).
Proof.
  intro Hc. unfold calculate_tf_idf.
  destruct (documents ix) as [|d ds] eqn:E.
  - rewrite (no_documents_no_postings ix Hc E). cbn. now exists [].
  - set (N := Z.of_nat (List.length (d :: ds))).
    assert (HN : 0 < N) by (unfold N; cbn [List.length]; lia).
    pose proof (score_postings_scored N (postings ix) HN) as Hs.
    unfold outcome in Hs. destruct (score_postings N (postings ix)) as [tr r].
    cbn [snd] in Hs. subst r. cbn. eexists. reflexivity.
Qed.

(** What [build_index] leaves, written out. *)
Lemma build_index_builds (doc_files : list (string * option string)) :
  let ix1 := index_texts (readable doc_files) new_indexer in
  let pt := List.map (fun e => (fst e,
                                scored (Z.of_nat (List.length (documents ix1)))
                                       (snd e)))
                     (postings ix1) in
  exists tr tr2 dl,
    build_index (Some doc_files) new_indexer
    = (tr, inr (with_counters (next_doc_id ix1) (next_term_id ix1)
                  (Z.of_nat (List.length (documents ix1)))
                  (Z.of_nat (List.length (terms ix1)))
                  (with_doc_lengths (with_postings ix1 pt) dl),
                true))
    /\ for_each (document_length pt) (Dict.keys (documents_inv ix1)) []
       = (tr2, inr dl)
    /\ Dict.keys dl = Dict.keys (documents_inv ix1)
    /\ consistent ix1
    /\ List.length (documents_inv ix1) = List.length (readable doc_files).
Proof.
  cbv zeta. unfold build_index.
  rewrite read_documents_index_texts.
  destruct new_indexer_consistent as [Hc Hp].
  destruct (index_texts_spec (readable doc_files) new_indexer Hc Hp)
    as (Hc1 & _ & Hlen & _ & _ & Hdl).
  cbv zeta in Hc1, Hlen, Hdl.
  set (ix1 := index_texts (readable doc_files) new_indexer) in *.
  change (doc_lengths new_indexer) with (@nil (Z * float)) in Hdl.
  change (documents_inv new_indexer) with (@nil (Z * string)) in Hlen.
  cbn [List.length Nat.add] in Hlen.
  destruct (calculate_tf_idf_consistent ix1 Hc1) as (tr1 & E1).
  rewrite E1.
  set (pt := List.map _ (postings ix1)) in *.
  pose proof (doc_ids ix1 (consistent_documents ix1 Hc1)) as Hids.
  destruct (document_lengths_return pt (Dict.keys (documents_inv ix1))
              (scored_all_scored _ _) [])
    as (tr2 & dl & E2).
  assert (E3 : calculate_document_lengths (with_postings ix1 pt)
               = (tr2, inr (with_doc_lengths (with_postings ix1 pt) dl))).
  { unfold calculate_document_lengths.
    cbn [with_postings postings documents_inv doc_lengths].
    rewrite Hdl, E2. cbn. now rewrite app_nil_r. }
  cbn [bind]. rewrite E3. cbn [ret].
  eexists _, tr2, dl. split; [reflexivity|]. split; [exact E2|].
  split; [|split; [exact Hc1 | exact Hlen]].
  rewrite (document_lengths_keys _ _ _ _ _ E2); [reflexivity| |intros ? ? []].
  rewrite Hids. apply ids_to_nodup.
Qed.

(** X22: [build_index] on a fresh indexer never raises, whatever
    files the corpus holds and whichever of them can be read.  It
    returns [True] and leaves an index in which every document has a
    length, computed from the sum of the squares of its [tf_idf]
    weights, every posting is scored, and the totals are the sizes of
    the documents and terms tables; without a corpus it returns
    [False] and leaves the index alone. *)
Theorem build_index_returns (doc_files : list (string * option string)) :
  build_index None new_indexer = ret (new_indexer, false)
  /\ exists tr ix,
       build_index (Some doc_files) new_indexer = (tr, inr (ix, true))
       /\ Dict.keys (doc_lengths ix) = Dict.keys (documents_inv ix)
       /\ Dict.keys (documents_inv ix)
          = ids_to (List.length (readable doc_files))
       /\ (forall doc_id, In doc_id (Dict.keys (documents_inv ix)) ->
             exists length_squared len,
               outcome (length_squared_of (postings ix) doc_id)
               = inr length_squared
               /\ outcome (length_of length_squared) = inr len
               /\ Dict.get (doc_lengths ix) doc_id = Some len)
       /\ all_scored (postings ix)
       /\ total_docs ix = Z.of_nat (List.length (documents ix))
       /\ total_terms ix = Z.of_nat (List.length (terms ix)).
Proof.
  split; [reflexivity|].
  destruct (build_index_builds doc_files)
    as (tr & tr2 & dl & E & E2 & Hkeys & Hc1 & Hlen).
  cbv zeta in *.
  eexists _, _. split; [exact E|].
  cbn [with_counters with_doc_lengths with_postings doc_lengths documents_inv
       postings total_docs total_terms documents terms].
  split; [exact Hkeys|].
  split; [now rewrite (doc_ids _ (consistent_documents _ Hc1)), Hlen|].
  split; [|split; [apply scored_all_scored | split; reflexivity]].
  intros doc_id Hin. now apply (document_lengths_stored _ _ _ _ _ E2).
Qed.

(** X23: scoring an index that has documents a second time changes
    nothing: [calculate_tf_idf] returns, and run again on what it
    returned it returns the same index. *)
Theorem scoring_twice_is_scoring_once (ix : Indexer) :
  documents ix <> [] ->
  exists ix1,
    outcome (calculate_tf_idf ix) = inr ix1
    /\ outcome (calculate_tf_idf ix1) = inr ix1.
Proof.
  intro Hdocs. unfold calculate_tf_idf.
  set (N := Z.of_nat (List.length (documents ix))).
  assert (HN : 0 < N).
  { unfold N. destruct (documents ix); [congruence | cbn [List.length]; lia]. }
  rewrite !outcome_bind, score_postings_scored by exact HN.
  eexists. split; [reflexivity|].
  cbn [with_postings documents postings outcome ret snd]. fold N.
  rewrite outcome_bind, score_postings_scored by exact HN.
  cbn [outcome ret snd]. unfold with_postings. cbn. do 2 f_equal.
  rewrite map_map. apply map_ext. intros [t dp]. cbn [fst snd]. f_equal.
  unfold scored. rewrite map_map, length_map. apply map_ext.
  intros [d p]. reflexivity.
Qed.

End Building.

(* ------------------------------------------------------------------ *)
(** ** What a load gives back *)

Section Reloading.
Context `{PyFloat}.

Lemma fold_set_document_inv (d : Dict.t string Z) (ix : Indexer) :
  documents_inv (fold_left (fun ix e => set_document e ix) d ix)
  = fold_left (fun di e => Dict.set di (fst e) (snd e)) (List.map swap d)
              (documents_inv ix).
Proof.
  revert ix. induction d as [|e d IH]; intro ix; [reflexivity|].
  cbn [fold_left List.map]. now rewrite IH.
Qed.

Lemma fold_set_term_inv (d : Dict.t string Z) (ix : Indexer) :
  terms_inv (fold_left (fun ix e => set_term e ix) d ix)
  = fold_left (fun di e => Dict.set di (fst e) (snd e)) (List.map swap d)
              (terms_inv ix).
Proof.
  revert ix. induction d as [|e d IH]; intro ix; [reflexivity|].
  cbn [fold_left List.map]. now rewrite IH.
Qed.

Lemma load_documents_saved_tables (ix ix0 : Indexer) :
  Dict.wf (documents ix) -> keys_ok (documents ix) ->
  exists ix1,
    load_documents (save_index ix) ix0 = (ix1, inr tt)
    /\ documents ix1 = documents ix
    /\ (NoDup (Dict.values (documents ix)) ->
        documents_inv ix1 = List.map swap (documents ix)).
Proof.
  intros Hwf Hok. unfold load_documents, bindT, modify, open_lines, retT.
  cbn [save_index documents_dat]. unfold documents_lines.
  rewrite key_lines_form, readlines_unlines by now apply key_lines_ok.
  rewrite (for_lines_updates key_line set_document).
  - eexists. split; [reflexivity|]. split.
    + rewrite fold_set_document. cbn [documents with_documents].
      now apply fold_set_appends.
    + intro Hnd. rewrite fold_set_document_inv.
      cbn [documents_inv with_documents].
      apply fold_set_appends. cbn [app]. unfold Dict.keys.
      now rewrite keys_swap.
  - intros e jx Hin. apply load_document_line_reads.
    unfold keys_ok in Hok. rewrite Forall_forall in Hok. now apply Hok.
Qed.

Lemma load_terms_saved_tables (ix ix0 : Indexer) :
  Dict.wf (terms ix) -> keys_ok (terms ix) ->
  exists ix1,
    load_terms (save_index ix) ix0 = (ix1, inr tt)
    /\ terms ix1 = terms ix
    /\ (NoDup (Dict.values (terms ix)) ->
        terms_inv ix1 = List.map swap (terms ix)).
Proof.
  intros Hwf Hok. unfold load_terms, bindT, modify, open_lines, retT.
  cbn [save_index terms_dat]. unfold terms_lines.
  rewrite key_lines_form, readlines_unlines by now apply key_lines_ok.
  rewrite (for_lines_updates key_line set_term).
  - eexists. split; [reflexivity|]. split.
    + rewrite fold_set_term. cbn [terms with_terms].
      now apply fold_set_appends.
    + intro Hnd. rewrite fold_set_term_inv.
      cbn [terms_inv with_terms].
      apply fold_set_appends. cbn [app]. unfold Dict.keys.
      now rewrite keys_swap.
  - intros e jx Hin. apply load_term_line_reads.
    unfold keys_ok in Hok. rewrite Forall_forall in Hok. now apply Hok.
Qed.

Lemma get_reload_entries (dp : Dict.t Z posting) (d : Z) :
  Dict.get (List.map reload_entry dp) d = option_map reload (Dict.get dp d).
Proof.
  induction dp as [|[d0 p0] dp IH]; [reflexivity|]. cbn.
  destruct (d0 =? d); [reflexivity | exact IH].
Qed.

Lemma reloaded_keys (pt : Dict.t Z (Dict.t Z posting)) (t : Z) :
  In t (Dict.keys (reloaded pt)) -> In t (Dict.keys pt).
Proof.
  induction pt as [|[t0 dp] pt IH]; [tauto|].
  rewrite reloaded_cons. rewrite keys_app, in_app_iff. cbn [Dict.keys List.map fst].
  intros [Hin|Hin]; [|right; now apply IH].
  unfold reloaded in Hin.
  destruct dp; cbn in Hin; [destruct Hin | destruct Hin as [->|[]]; now left].
Qed.

Lemma posting_in_reloaded (pt : Dict.t Z (Dict.t Z posting)) (t d : Z) :
  Dict.wf pt ->
  posting_in (reloaded pt) t d = option_map reload (posting_in pt t d).
Proof.
  unfold posting_in, Dict.wf.
  induction pt as [|[t0 dp] pt IH]; intro Hwf; [reflexivity|].
  cbn [Dict.keys List.map fst] in Hwf.
  inversion Hwf as [|? ? Ht0 Hwf']; subst.
  rewrite reloaded_cons. cbn [Dict.get keqb EqKey_Z].
  destruct (Z.eqb_spec t0 t) as [->|Hne].
  - destruct dp as [|e dp].
    + cbn [reloaded flat_map snd app]. cbn.
      rewrite get_none_not_in; [reflexivity|].
      intro Hin. apply Ht0. now apply reloaded_keys.
    + unfold reloaded at 1. cbn [flat_map snd fst app Dict.get keqb EqKey_Z].
      rewrite Z.eqb_refl. apply get_reload_entries.
  - destruct dp as [|e dp].
    + cbn [reloaded flat_map snd app]. now apply IH.
    + unfold reloaded at 1. cbn [flat_map snd fst app Dict.get keqb EqKey_Z].
      destruct (Z.eqb_spec t0 t); [contradiction|]. now apply IH.
Qed.

Context `{!PyFloatLaws}.

Lemma load_postings_saved_table (ix ix0 : Indexer) :
  Dict.wf (postings ix) ->
  Forall (fun e => Dict.wf (snd e)) (postings ix) ->
  exists ix1,
    load_postings (save_index ix) ix0 = (ix1, inr tt)
    /\ postings ix1 = reloaded (postings ix).
Proof.
  intros Hwf Hin. unfold load_postings, bindT, modify, open_lines, retT.
  cbn [save_index postings_dat]. unfold postings_lines at 1.
  rewrite postings_lines_flatten, readlines_unlines.
  2:{ apply Forall_map, Forall_forall. intros e _. apply posting_line_parse. }
  rewrite (for_lines_updates (fun e => posting_line (fst e) (snd e))
             set_posting_entry)
    by (intros; apply load_posting_line_reads).
  eexists. split; [reflexivity|].
  rewrite fold_set_posting_entry. cbn [postings with_postings].
  now rewrite add_postings_of_table by assumption.
Qed.

Lemma load_doc_lengths_saved_table (ix ix0 : Indexer) :
  Dict.wf (doc_lengths ix) ->
  exists ix1,
    load_doc_lengths (save_index ix) ix0 = (ix1, inr tt)
    /\ doc_lengths ix1 = List.map reread (doc_lengths ix).
Proof.
  intros Hwf. unfold load_doc_lengths, bindT, modify, open_lines, retT.
  cbn [save_index doc_lengths_dat]. unfold doc_lengths_lines at 1.
  rewrite length_lines_form, readlines_unlines.
  2:{ apply Forall_map, Forall_forall. intros e _.
      apply length_line_parse. }
  rewrite (for_lines_updates length_line set_length)
    by (intros; apply load_doc_length_line_reads).
  eexists. split; [reflexivity|].
  rewrite fold_set_length. cbn [doc_lengths with_doc_lengths].
  rewrite fold_set_appends; [reflexivity|].
  cbn [app]. unfold Dict.keys. rewrite map_map. exact Hwf.
Qed.

Lemma load_saved_index_spec (ix ix0 : Indexer) :
  storable ix ->
  exists ix1,
    load_index (save_index ix) ix0 = (ix1, true)
    /\ documents ix1 = documents ix
    /\ terms ix1 = terms ix
    /\ postings ix1 = reloaded (postings ix)
    /\ (forall term_id doc_id,
          posting_in (postings ix1) term_id doc_id
          = option_map reload (posting_in (postings ix) term_id doc_id))
    /\ doc_lengths ix1 = List.map reread (doc_lengths ix)
    /\ (NoDup (Dict.values (documents ix)) ->
        documents_inv ix1 = List.map swap (documents ix))
    /\ (NoDup (Dict.values (terms ix)) ->
        terms_inv ix1 = List.map swap (terms ix))
    /\ next_doc_id ix1 = next_id (documents ix)
    /\ next_term_id ix1 = next_id (terms ix)
    /\ total_docs ix1 = Z.of_nat (List.length (documents ix))
    /\ total_terms ix1 = Z.of_nat (List.length (terms ix))
    /\ stats ix1 = stats ix0.
Proof.
  intros [D1 D2 T1 T2 P1 P2 L1].
  destruct (load_documents_saved_tables ix ix0 D1 D2) as (i1 & E1 & R1 & R1').
  destruct (load_terms_saved_tables ix i1 T1 T2) as (i2 & E2 & R2 & R2').
  destruct (load_postings_saved_table ix i2 P1 P2) as (i3 & E3 & R3).
  destruct (load_doc_lengths_saved_table ix i3 L1) as (i4 & E4 & R4).
  exists (update_counters i4).
  pose proof (load_documents_frame (save_index ix) ix0) as F1.
  pose proof (load_terms_frame (save_index ix) i1) as F2.
  pose proof (load_postings_frame (save_index ix) i2) as F3.
  pose proof (load_doc_lengths_frame (save_index ix) i3) as F4.
  rewrite E1 in F1. rewrite E2 in F2. rewrite E3 in F3. rewrite E4 in F4.
  cbn [fst] in *.
  injection F1 as _ _ _ _ _ _ _ _ Z9.
  injection F2 as A1 A2 _ _ _ _ _ _ A9.
  injection F3 as B1 B2 B3 B4 _ _ _ _ _ B10.
  injection F4 as C1 C2 C3 C4 C5 _ _ _ _ C10.
  split.
  { unfold load_index, load_index_try, bindT. now rewrite E1, E2, E3, E4. }
  assert (Hdocs : documents i4 = documents ix) by congruence.
  assert (Hterms : terms i4 = terms ix) by congruence.
  assert (Hposts : postings i4 = reloaded (postings ix)) by congruence.
  cbn [update_counters with_counters documents terms postings doc_lengths
       documents_inv terms_inv next_doc_id next_term_id total_docs
       total_terms stats].
  rewrite Hdocs, Hterms, Hposts.
  split; [reflexivity|]. split; [reflexivity|]. split; [reflexivity|].
  split; [intros t d; now apply posting_in_reloaded|].
  split; [exact R4|].
  split; [intro Hnd; rewrite C2, B2, A2; now apply R1'|].
  split; [intro Hnd; rewrite C4, B4; now apply R2'|].
  repeat split; congruence.
Qed.

(** X24: loading what [save_index] wrote gives back the documents
    and the terms with their ids, in the same order, and every posting
    under the same term id and document id with the same [tf]; the
    weights and the lengths come back as [float()] reads their six
    decimals, a missing [tf_idf], [idf] or [df] as zero, and a term
    without postings is gone from the postings table.  The id
    counters are one more than the greatest id and the totals are the
    sizes of the tables; the statistics are those of the index loaded
    into.  The index must be one whose document paths and terms fit on
    a line. *)
Theorem load_restores_saved_index (ix ix0 : Indexer) :
  storable ix ->
  exists ix1,
    load_index (save_index ix) ix0 = (ix1, true)
    /\ documents ix1 = documents ix
    /\ terms ix1 = terms ix
    /\ postings ix1 = reloaded (postings ix)
    /\ (forall term_id doc_id,
          posting_in (postings ix1) term_id doc_id
          = option_map reload (posting_in (postings ix) term_id doc_id))
    /\ doc_lengths ix1 = List.map reread (doc_lengths ix)
    /\ (NoDup (Dict.values (documents ix)) ->
        documents_inv ix1 = List.map swap (documents ix))
    /\ (NoDup (Dict.values (terms ix)) ->
        terms_inv ix1 = List.map swap (terms ix))
    /\ next_doc_id ix1 = next_id (documents ix)
    /\ next_term_id ix1 = next_id (terms ix)
    /\ total_docs ix1 = Z.of_nat (List.length (documents ix))
    /\ total_terms ix1 = Z.of_nat (List.length (terms ix))
    /\ stats ix1 = stats ix0.
Proof. apply load_saved_index_spec. Qed.

(** *** A load does not look at the index it loads into *)

Lemma for_lines_same {X} (f : Indexer -> X) (body : string -> T unit) :
  (forall line ix jx, f ix = f jx ->
     f (fst (body line ix)) = f (fst (body line jx))
     /\ snd (body line ix) = snd (body line jx)) ->
  forall lines ix jx, f ix = f jx ->
    f (fst (for_lines body lines ix)) = f (fst (for_lines body lines jx))
    /\ snd (for_lines body lines ix) = snd (for_lines body lines jx).
Proof.
  intros Hbody lines. induction lines as [|l lines IH]; intros ix jx E;
    [now split|].
  cbn [for_lines]. unfold bindT. destruct (Hbody l ix jx E) as [E1 E2].
  destruct (body l ix) as [ix1 [e|[]]], (body l jx) as [jx1 [e'|[]]];
    cbn [fst snd] in *; try discriminate; [now split|].
  now apply IH.
Qed.

Lemma block_same {X} (f : Indexer -> X) (reset : Indexer -> Indexer)
  (file : option string) (body : string -> T unit) :
  (forall ix jx, f (reset ix) = f (reset jx)) ->
  (forall line ix jx, f ix = f jx ->
     f (fst (body line ix)) = f (fst (body line jx))
     /\ snd (body line ix) = snd (body line jx)) ->
  forall ix jx,
    let block := bindT (modify reset) (fun _ =>
                 bindT (open_lines file) (fun lines =>
                 for_lines body lines)) in
    f (fst (block ix)) = f (fst (block jx))
    /\ snd (block ix) = snd (block jx).
Proof.
  intros Hreset Hbody ix jx. cbv zeta. unfold bindT, modify, open_lines.
  destruct file as [s|]; cbn; [|split; [apply Hreset | reflexivity]].
  pose proof (for_lines_same f body Hbody (readlines s) (reset ix) (reset jx)
                (Hreset ix jx)) as [F1 F2].
  destruct (for_lines body (readlines s) (reset ix)) as [ix1 [e|[]]],
    (for_lines body (readlines s) (reset jx)) as [jx1 [e'|[]]];
    cbn [fst snd] in *; now split.
Qed.

Ltac line_same :=
  let line := fresh "line" in
  let ix := fresh "ix" in
  let jx := fresh "jx" in
  let E := fresh "E" in
  intros line ix jx E;
  match goal with
  | |- context [Str.split comma (Str.strip line)] =>
      destruct (Str.split comma (Str.strip line))
        as [|? [|? [|? [|? [|? [|? [|? ?]]]]]]]
  end; try (split; [exact E | reflexivity]);
  unfold bindT, intT, floatT;
  repeat match goal with
         | |- context [Builtins.py_int ?s] => destruct (Builtins.py_int s)
         | |- context [py_float ?s] => destruct (py_float s)
         end; try (split; [exact E | reflexivity]);
  cbn; split; [|reflexivity].

Lemma load_documents_same (files : Files) (ix jx : Indexer) :
  documents_tables (fst (load_documents files ix))
  = documents_tables (fst (load_documents files jx))
  /\ snd (load_documents files ix) = snd (load_documents files jx).
Proof.
  apply (block_same documents_tables); [reflexivity|].
  unfold load_document_line, documents_tables. line_same.
  injection E as -> ->. reflexivity.
Qed.

Lemma load_terms_same (files : Files) (ix jx : Indexer) :
  terms_tables (fst (load_terms files ix))
  = terms_tables (fst (load_terms files jx))
  /\ snd (load_terms files ix) = snd (load_terms files jx).
Proof.
  apply (block_same terms_tables); [reflexivity|].
  unfold load_term_line, terms_tables. line_same.
  injection E as -> ->. reflexivity.
Qed.

Lemma load_postings_same (files : Files) (ix jx : Indexer) :
  postings (fst (load_postings files ix))
  = postings (fst (load_postings files jx))
  /\ snd (load_postings files ix) = snd (load_postings files jx).
Proof.
  apply (block_same postings); [reflexivity|].
  unfold load_posting_line. line_same. now rewrite E.
Qed.

Lemma load_doc_lengths_same (files : Files) (ix jx : Indexer) :
  doc_lengths (fst (load_doc_lengths files ix))
  = doc_lengths (fst (load_doc_lengths files jx))
  /\ snd (load_doc_lengths files ix) = snd (load_doc_lengths files jx).
Proof.
  apply (block_same doc_lengths); [reflexivity|].
  unfold load_doc_length_line. line_same. now rewrite E.
Qed.

(** X25: a load that succeeds replaces all six tables, the two id
    counters and the two totals by what the files say, whatever the
    index held before: loaded into any other index, the same files
    give the same tables, counters and totals.  The statistics alone
    are those of the index loaded into. *)
Theorem load_forgets_the_index (files : Files) (ix jx ix1 : Indexer) :
  load_index files ix = (ix1, true) ->
  stats ix1 = stats ix
  /\ exists jx1,
       load_index files jx = (jx1, true)
       /\ tables jx1 = tables ix1
       /\ id_counters jx1 = id_counters ix1
       /\ stats jx1 = stats jx.
Proof.
  unfold load_index.
  destruct (load_index_try files ix) as [r [e|[]]] eqn:E; intros [= <-].
  unfold load_index_try, bindT in *.
  pose proof (load_documents_frame files ix) as F1.
  pose proof (load_documents_frame files jx) as G1.
  destruct (load_documents_same files ix jx) as [S1 R1].
  destruct (load_documents files ix) as [i1 [e1|[]]]; [discriminate|].
  destruct (load_documents files jx) as [j1 [e1|[]]]; [discriminate|].
  pose proof (load_terms_frame files i1) as F2.
  pose proof (load_terms_frame files j1) as G2.
  destruct (load_terms_same files i1 j1) as [S2 R2].
  destruct (load_terms files i1) as [i2 [e2|[]]]; [discriminate|].
  destruct (load_terms files j1) as [j2 [e2|[]]]; [discriminate|].
  pose proof (load_postings_frame files i2) as F3.
  pose proof (load_postings_frame files j2) as G3.
  destruct (load_postings_same files i2 j2) as [S3 R3].
  destruct (load_postings files i2) as [i3 [e3|[]]]; [discriminate|].
  destruct (load_postings files j2) as [j3 [e3|[]]]; [discriminate|].
  pose proof (load_doc_lengths_frame files i3) as F4.
  pose proof (load_doc_lengths_frame files j3) as G4.
  destruct (load_doc_lengths_same files i3 j3) as [S4 R4].
  destruct (load_doc_lengths files i3) as [i4 [e4|[]]]; [discriminate|].
  destruct (load_doc_lengths files j3) as [j4 [e4|[]]]; [discriminate|].
  cbn [fst snd] in *. injection E as <-.
  unfold documents_tables in S1. unfold terms_tables in S2.
  injection S1 as S1a S1b. injection S2 as S2a S2b.
  injection F1 as _ _ _ _ _ _ _ _ F1s.
  injection F2 as F2a F2b _ _ _ _ _ _ F2s.
  injection F3 as F3a F3b F3c F3d _ _ _ _ _ F3s.
  injection F4 as F4a F4b F4c F4d F4e _ _ _ _ F4s.
  injection G1 as _ _ _ _ _ _ _ _ G1s.
  injection G2 as G2a G2b _ _ _ _ _ _ G2s.
  injection G3 as G3a G3b G3c G3d _ _ _ _ _ G3s.
  injection G4 as G4a G4b G4c G4d G4e _ _ _ _ G4s.
  split; [cbn; congruence|].
  exists (update_counters j4). split; [reflexivity|].
  assert (Hd : documents j4 = documents i4) by congruence.
  assert (Hdi : documents_inv j4 = documents_inv i4) by congruence.
  assert (Ht : terms j4 = terms i4) by congruence.
  assert (Hti : terms_inv j4 = terms_inv i4) by congruence.
  assert (Hp : postings j4 = postings i4) by congruence.
  assert (Hl : doc_lengths j4 = doc_lengths i4) by congruence.
  unfold tables, id_counters. cbn. rewrite Hd, Hdi, Ht, Hti, Hp, Hl.
  repeat split; congruence.
Qed.

End Reloading.

(* ------------------------------------------------------------------ *)
(** ** From a corpus to the files and back *)

Lemma alnum_key_char (c : ascii) :
  Chars.is_alnum c = true -> not_comma c && not_newline c = true.
Proof. ascii_cases c; intro E; try reflexivity; discriminate E. Qed.

Lemma token_key_ok (t : string) : token_ok t -> key_ok t = true.
Proof.
  intros [Hne Hal]. unfold key_ok. apply andb_true_iff. split.
  - revert Hal. apply forallb_impl, alnum_key_char.
  - destruct t as [|c t]; [reflexivity|]. cbn in *.
    apply andb_true_iff in Hal as [Hc _].
    now rewrite (alnum_not_space c Hc).
Qed.

Lemma simple_stemmer_clean : @clean_stems SimpleStemmer.
Proof.
  intros t Ht. destruct (normalize_token_ok t Ht) as [_ Hok].
  unfold stem_or_self. cbn [stem SimpleStemmer].
  unfold Str.slice_to.
  replace (Z.of_nat (String.length (normalize_token t)) - 1 + 1)
    with (Z.of_nat (String.length (normalize_token t))) by lia.
  rewrite (proj2 (Z.leb_le 0 _)) by lia.
  rewrite Nat2Z.id, normalize_token_lower, take_length.
  now apply token_key_ok.
Qed.

Lemma next_id_of_ids {K : Type} (d : Dict.t K Z) (n : Z) :
  (forall v, In v (Dict.values d) -> v <= n) ->
  (d = [] /\ n = 0) \/ In n (Dict.values d) ->
  next_id d = n + 1.
Proof.
  intros Hle Hin. unfold next_id.
  destruct (Dict.values d) as [|x xs] eqn:E.
  - destruct Hin as [[_ ->]|[]]. reflexivity.
  - destruct Hin as [[-> _]|Hin]; [discriminate|].
    destruct (max_of_spec xs x) as [Hmax Hall].
    rewrite Forall_forall in Hall.
    specialize (Hall n Hin). specialize (Hle _ Hmax). lia.
Qed.

Lemma readable_paths (doc_files : list (string * option string)) :
  Forall (fun f => key_ok (fst f) = true) doc_files ->
  Forall (fun d => key_ok (snd d) = true) (readable doc_files).
Proof.
  unfold readable. induction 1 as [|[path [c|]] fs Hp Hfs IH]; cbn;
    [constructor | constructor; [exact Hp | exact IH] | exact IH].
Qed.

Section CorpusRoundTrip.
Context `{PyFloat} `{Stemmer}.

Lemma record_terms_keys (doc_id : Z) (tfq : Dict.t string Z) (ix : Indexer) :
  keys_ok tfq -> keys_ok (terms ix) ->
  keys_ok (terms (fold_left (record_term doc_id) tfq ix)).
Proof.
  revert ix. induction tfq as [|[term freq] tfq IH]; intros ix Hq Ht;
    [exact Ht|].
  inversion Hq as [|? ? Hterm Hq']; subst. cbn [fst] in Hterm.
  cbn [fold_left]. apply IH; [exact Hq'|]. unfold record_term.
  destruct (Dict.get (terms ix) term); cbn [terms]; [exact Ht|].
  now apply set_forall.
Qed.

Lemma term_freq_keys (ts : list string) (st : Stats) (tfq : Dict.t string Z) :
  clean_stems -> Forall token_ok ts -> keys_ok tfq ->
  keys_ok (snd (fold_left process_token ts (st, tfq))).
Proof.
  intros Hclean Hts. revert st tfq.
  induction Hts as [|t ts Ht Hts IH]; intros st tfq Hq; [exact Hq|].
  cbn [fold_left].
  pose proof (process_token_freq st tfq t) as Hf.
  destruct (process_token (st, tfq) t) as [st1 tfq1]. cbn [snd] in Hf.
  apply IH. subst tfq1. destruct (kept_token t); [|exact Hq].
  unfold increment. apply set_forall; [exact Hq|]. cbn [fst].
  now apply Hclean.
Qed.

Lemma index_texts_keys (docs : list (string * string)) (ix : Indexer) :
  clean_stems ->
  Forall (fun d => key_ok (snd d) = true) docs ->
  keys_ok (documents ix) -> keys_ok (terms ix) ->
  keys_ok (documents (index_texts docs ix))
  /\ keys_ok (terms (index_texts docs ix)).
Proof.
  intros Hclean Hdocs. revert ix.
  induction Hdocs as [|[text path] docs Hpath Hdocs IH]; intros ix Hd Ht;
    [now split|].
  change (index_texts ((text, path) :: docs) ix)
    with (index_texts docs (fst (process_document_from_text ix text path))).
  cbn [snd] in Hpath.
  pose proof (term_freq_keys (splitchars text) (stats ix) [] Hclean
                (splitchars_ok text) (Forall_nil _)) as Hq0.
  apply IH; unfold process_document_from_text;
    destruct (fold_left process_token (splitchars text) (stats ix, []))
      as [st tfq] eqn:E;
    assert (Hq : keys_ok tfq)
      by (pose proof (f_equal snd E) as E'; cbn [snd] in E';
          rewrite <- E'; exact Hq0);
    cbn [fst snd] in *.
  - rewrite record_terms_documents. cbn [documents]. now apply set_forall.
  - apply record_terms_keys; [exact Hq | exact Ht].
Qed.

Lemma consistent_next_term_id (ix : Indexer) :
  terms_consistent ix -> next_id (terms ix) = next_term_id ix.
Proof.
  intros [Hids Hcnt _ _]. rewrite Hcnt.
  apply next_id_of_ids.
  - intros v Hv. rewrite Hids in Hv. apply in_ids_to in Hv. lia.
  - destruct (terms ix) as [|e d] eqn:E; [now left|]. right.
    rewrite Hids. apply in_ids_to. cbn [List.length]. lia.
Qed.

Lemma index_texts_next_doc_id (docs : list (string * string)) (ix : Indexer) :
  consistent ix -> terms_posted ix ->
  next_id (documents ix) = next_doc_id ix ->
  next_id (documents (index_texts docs ix))
  = next_doc_id (index_texts docs ix).
Proof.
  revert ix. induction docs as [|[text path] docs IH]; intros ix Hc Hp Hn;
    [exact Hn|].
  change (index_texts ((text, path) :: docs) ix)
    with (index_texts docs (fst (process_document_from_text ix text path))).
  destruct (process_document_from_text_spec ix text path Hc)
    as (_ & Hc1 & Hnext & _ & Hget & _ & _ & _ & _ & _ & _ & Hp1 & _).
  cbv zeta in *.
  apply IH; [exact Hc1 | now apply Hp1|].
  set (ix1 := fst (process_document_from_text ix text path)) in *.
  rewrite Hnext. apply next_id_of_ids.
  - intros v Hv. unfold Dict.values in Hv.
    apply in_map_iff in Hv as [[p v'] [E Hin]]. cbn in E. subst v'.
    destruct Hc1 as [[D1 D2 D3 D4 D5] _ _].
    apply (in_get _ _ _ D3) in Hin. apply D4 in Hin.
    apply get_some_in_keys in Hin. rewrite D1 in Hin.
    apply in_ids_to in Hin. lia.
  - right. apply get_in in Hget. apply (in_map snd) in Hget. exact Hget.
Qed.

Lemma scored_keys (N : Z) (dp : Dict.t Z posting) :
  Dict.keys (scored N dp) = Dict.keys dp.
Proof. unfold scored, Dict.keys. rewrite map_map. reflexivity. Qed.

Lemma scored_posting_in (N : Z) (pt : Dict.t Z (Dict.t Z posting)) (t d : Z)
  (p : posting) :
  posting_in (List.map (fun e => (fst e, scored N (snd e))) pt) t d = Some p ->
  exists n, df p = Some n.
Proof.
  unfold posting_in. induction pt as [|[t0 dp] pt IH]; [discriminate|].
  cbn [List.map Dict.get fst snd keqb EqKey_Z].
  destruct (t0 =? t); [|exact IH]. intro Hg. apply get_in in Hg.
  unfold scored in Hg. apply in_map_iff in Hg as [[d0 p0] [[= _ <-] _]].
  cbn. eauto.
Qed.

Context `{!PyFloatLaws}.

(** X26: an index built from a corpus, saved and loaded into a fresh
    indexer comes back with its documents, its terms and their ids,
    its id counters and totals, a length for each document, and each
    posting under the same ids with the same [tf] and [df].  What
    does not come back are the token statistics: they are not saved,
    and the loaded index reports zeros.  The paths of the files and
    the stems must fit on a line, as those of the fallback stemmer
    do. *)
Theorem built_index_survives_save_and_load
  (doc_files : list (string * option string)) :
  clean_stems ->
  Forall (fun f => key_ok (fst f) = true) doc_files ->
  exists tr ix ix1,
    build_index (Some doc_files) new_indexer = (tr, inr (ix, true))
    /\ load_index (save_index ix) new_indexer = (ix1, true)
    /\ documents ix1 = documents ix
    /\ terms ix1 = terms ix
    /\ terms_inv ix1 = terms_inv ix
    /\ next_doc_id ix1 = next_doc_id ix
    /\ next_term_id ix1 = next_term_id ix
    /\ total_docs ix1 = total_docs ix
    /\ total_terms ix1 = total_terms ix
    /\ Dict.keys (doc_lengths ix1) = Dict.keys (doc_lengths ix)
    /\ (forall term_id doc_id p,
          posting_of ix term_id doc_id = Some p ->
          exists p1, posting_of ix1 term_id doc_id = Some p1
                     /\ tf p1 = tf p /\ df p1 = df p)
    /\ stats ix1 = mkStats 0 0 0 0 0.
Proof.
  intros Hclean Hpaths.
  destruct (build_index_builds doc_files)
    as (tr & tr2 & dl & E & E2 & Hkeys & Hc1 & Hlen).
  cbv zeta in *.
  set (ix1 := index_texts (readable doc_files) new_indexer) in *.
  set (pt := List.map _ (postings ix1)) in *.
  set (ix := with_counters _ _ _ _ _) in E.
  pose proof (readable_paths doc_files Hpaths) as Hreadable.
  destruct (index_texts_keys (readable doc_files) new_indexer Hclean Hreadable
              (Forall_nil _) (Forall_nil _)) as [Kd Kt].
  fold ix1 in Kd, Kt.
  destruct Hc1 as [Hdocs Hterms [Pwf Pall]].
  assert (Hst : storable ix).
  { constructor; cbn.
    - apply (documents_nodup ix1 Hdocs).
    - exact Kd.
    - apply (terms_nodup ix1 Hterms).
    - exact Kt.
    - unfold Dict.wf, Dict.keys, pt. rewrite map_map. exact Pwf.
    - unfold pt. apply Forall_map. revert Pall. apply Forall_impl.
      intros e (_ & Hw & _). cbn [snd]. unfold Dict.wf.
      now rewrite scored_keys.
    - unfold Dict.wf. rewrite Hkeys, (doc_ids ix1 Hdocs).
      apply ids_to_nodup. }
  destruct (load_saved_index_spec ix new_indexer Hst)
    as (jx & L & L1 & L2 & L3 & L4 & L5 & L6 & L7 & L8 & L9 & L10 & L11 & L12).
  exists tr, ix, jx. split; [exact E|]. split; [exact L|].
  split; [exact L1|]. split; [exact L2|].
  assert (Hnd : NoDup (Dict.values (terms ix1)))
    by (rewrite (term_ids ix1 Hterms); apply ids_to_nodup).
  split; [rewrite (L7 Hnd); cbn; symmetry; apply (terms_inverse ix1 Hterms)|].
  split.
  { rewrite L8. cbn.
    destruct new_indexer_consistent as [Hc0 Hp0].
    now apply index_texts_next_doc_id. }
  split; [rewrite L9; cbn; now apply consistent_next_term_id|].
  split; [exact L10|]. split; [exact L11|].
  split.
  { rewrite L5. unfold Dict.keys. rewrite map_map. reflexivity. }
  split; [|exact L12].
  intros t d p Hp. unfold posting_of in *. rewrite L4.
  cbn [ix with_counters with_doc_lengths with_postings postings] in Hp |- *.
  rewrite Hp. cbn [option_map]. eexists. split; [reflexivity|].
  split; [reflexivity|]. cbn [reload df].
  destruct (scored_posting_in _ _ _ _ _ Hp) as [n ->]. reflexivity.
Qed.

End CorpusRoundTrip.

(* ------------------------------------------------------------------ *)
(** ** Files that do not load *)

Section Unreadable.
Context `{PyFloat}.

Lemma for_lines_fails (body : string -> T unit) (line : string)
  (lines : list string) :
  In line lines ->
  (forall jx, exists jx' e, body line jx = (jx', inl e)) ->
  forall ix, exists ix' e, for_lines body lines ix = (ix', inl e).
Proof.
  intros Hin Hbad. induction lines as [|l lines IH]; [destruct Hin|].
  intro ix. cbn [for_lines]. unfold bindT.
  destruct Hin as [->|Hin].
  - destruct (Hbad ix) as (jx' & e & ->). now exists jx', e.
  - destruct (body l ix) as [ix1 [e|[]]]; [now exists ix1, e|].
    now apply IH.
Qed.

Lemma block_fails (fields : nat) (reset : Indexer -> Indexer)
  (file : option string) (body : string -> T unit) :
  unreadable fields file ->
  (forall line jx,
     List.length (Str.split comma (Str.strip line)) <> fields ->
     exists jx' e, body line jx = (jx', inl e)) ->
  forall ix, exists ix' e,
    bindT (modify reset) (fun _ =>
    bindT (open_lines file) (fun lines =>
    for_lines body lines)) ix = (ix', inl e).
Proof.
  intros Hfile Hbody ix. unfold bindT, modify, open_lines.
  destruct file as [s|]; cbn; [|now eexists _, _].
  destruct Hfile as (line & Hin & Hlen).
  apply (for_lines_fails body line); [exact Hin|].
  intro jx. now apply Hbody.
Qed.

Ltac wrong_fields :=
  let line := fresh "line" in
  let jx := fresh "jx" in
  let Hlen := fresh "Hlen" in
  intros line jx Hlen;
  match goal with
  | |- context [Str.split comma (Str.strip line)] =>
      destruct (Str.split comma (Str.strip line))
        as [|? [|? [|? [|? [|? [|? [|? ?]]]]]]]
  end;
  first [ exists jx, ValueError; reflexivity
        | exfalso; apply Hlen; reflexivity ].

Lemma load_documents_fails (files : Files) (ix : Indexer) :
  unreadable 2 (documents_dat files) ->
  exists ix' e, load_documents files ix = (ix', inl e).
Proof.
  intro Hf. apply (block_fails 2); [exact Hf|].
  unfold load_document_line. wrong_fields.
Qed.

Lemma load_terms_fails (files : Files) (ix : Indexer) :
  unreadable 2 (terms_dat files) ->
  exists ix' e, load_terms files ix = (ix', inl e).
Proof.
  intro Hf. apply (block_fails 2); [exact Hf|].
  unfold load_term_line. wrong_fields.
Qed.

Lemma load_postings_fails (files : Files) (ix : Indexer) :
  unreadable 6 (postings_dat files) ->
  exists ix' e, load_postings files ix = (ix', inl e).
Proof.
  intro Hf. apply (block_fails 6); [exact Hf|].
  unfold load_posting_line. wrong_fields.
Qed.

Lemma load_doc_lengths_fails (files : Files) (ix : Indexer) :
  unreadable 2 (doc_lengths_dat files) ->
  exists ix' e, load_doc_lengths files ix = (ix', inl e).
Proof.
  intro Hf. apply (block_fails 2); [exact Hf|].
  unfold load_doc_length_line. wrong_fields.
Qed.

(** X27: [load_index] returns [False] as soon as one of the four
    files is missing or holds a line that does not have the number of
    fields of its table, two, two, six and two: a blank line, a line
    without a comma, a path or a term with a comma in it. *)
Theorem malformed_file_fails_the_load (files : Files) (ix : Indexer) :
  unreadable 2 (documents_dat files)
  \/ unreadable 2 (terms_dat files)
  \/ unreadable 6 (postings_dat files)
  \/ unreadable 2 (doc_lengths_dat files) ->
  snd (load_index files ix) = false.
Proof.
  intro Hbad. unfold load_index, load_index_try, bindT.
  destruct (load_documents files ix) as [i1 [e1|[]]] eqn:E1; [reflexivity|].
  destruct (load_terms files i1) as [i2 [e2|[]]] eqn:E2; [reflexivity|].
  destruct (load_postings files i2) as [i3 [e3|[]]] eqn:E3; [reflexivity|].
  destruct (load_doc_lengths files i3) as [i4 [e4|[]]] eqn:E4; [reflexivity|].
  exfalso. destruct Hbad as [Hb|[Hb|[Hb|Hb]]].
  - destruct (load_documents_fails files ix Hb) as (? & ? & E). congruence.
  - destruct (load_terms_fails files i1 Hb) as (? & ? & E). congruence.
  - destruct (load_postings_fails files i2 Hb) as (? & ? & E). congruence.
  - destruct (load_doc_lengths_fails files i3 Hb) as (? & ? & E). congruence.
Qed.

End Unreadable.

(* ------------------------------------------------------------------ *)
(** ** The text of a page *)

Lemma splitchars_joined (pieces : list string) :
  splitchars (String.concat " " pieces) = List.flat_map splitchars pieces.
Proof.
  induction pieces as [|x pieces IH]; [reflexivity|].
  destruct pieces as [|y pieces].
  - cbn. now rewrite app_nil_r.
  - change (String.concat " " (x :: y :: pieces))
      with (x ++ String " " (String.concat " " (y :: pieces))).
    rewrite splitchars_separator by reflexivity.
    now rewrite IH.
Qed.

Lemma splitchars_blank (s : string) :
  Str.strip s = EmptyString -> splitchars s = [].
Proof. intro E. now rewrite <- splitchars_strip, E. Qed.

Lemma extractor_tokens (events : list Html.event) (x : Html.extractor) :
  List.flat_map splitchars (Html.text (fold_left Html.handle events x))
  = (List.flat_map splitchars (Html.text x)
     ++ List.flat_map splitchars
          (visible_data (Html.current_tag x) events))%list.
Proof.
  revert x. induction events as [|ev events IH]; intro x.
  - cbn. now rewrite app_nil_r.
  - cbn [fold_left]. rewrite IH.
    destruct ev as [tag|tag|data]; cbn [Html.handle visible_data].
    + reflexivity.
    + unfold Html.handle_endtag. cbn [Html.text Html.current_tag].
      destruct (Str.mem (Str.lower tag) Html.spaced_tags); [|reflexivity].
      rewrite flat_map_app. cbn [flat_map].
      change (splitchars " ") with (@nil string). now rewrite !app_nil_r.
    + unfold Html.handle_data.
      destruct (Html.ignored (Html.current_tag x)); [reflexivity|].
      destruct (Str.strip data) as [|c r] eqn:E; cbn [Str.is_empty].
      * cbn [flat_map]. now rewrite (splitchars_blank data E).
      * cbn [Html.text Html.current_tag]. rewrite flat_map_app.
        cbn [flat_map]. rewrite <- E, splitchars_strip, app_nil_r.
        now rewrite <- app_assoc.
Qed.

(** X28: the tokens of the text [extract_text_from_html] returns are
    the tokens of the pieces of text of the page, piece by piece and
    in order, leaving out the pieces that come directly after the
    start tag of a [script], [style], [head], [meta] or [link]
    element: stripping the pieces, joining them with blanks, the
    blanks added after block tags and the final cleaning neither
    join two tokens nor cut one. *)
Theorem extracted_text_tokens (events : list Html.event) :
  splitchars (Html.extract_text_from_html events)
  = List.flat_map splitchars (visible_data None events).
Proof.
  unfold Html.extract_text_from_html, Clean.clean_text, Html.get_text.
  rewrite splitchars_clean, splitchars_joined.
  now rewrite extractor_tokens.
Qed.

(* ------------------------------------------------------------------ *)
(** ** Computing the lengths again *)

Section LengthsAgain.
Context `{PyFloat}.

Lemma set_same {K V : Type} `{EqKey K} (d : Dict.t K V) (k : K) (v : V) :
  Dict.get d k = Some v -> Dict.set d k v = d.
Proof.
  induction d as [|[k0 v0] d IH]; cbn; [discriminate|].
  destruct (keqb k0 k); [now intros [= ->]|].
  intro Hg. now rewrite IH.
Qed.

Lemma document_length_any (pt : Dict.t Z (Dict.t Z posting)) (doc_id : Z)
  (dl dl1 : Dict.t Z float) (tr : list arith) :
  document_length pt doc_id dl = (tr, inr dl1) ->
  exists len,
    dl1 = Dict.set dl doc_id len
    /\ forall dl2,
         document_length pt doc_id dl2 = (tr, inr (Dict.set dl2 doc_id len)).
Proof.
  unfold document_length.
  destruct (length_squared_of pt doc_id) as [ta [e|ls]]; [discriminate|].
  cbn [bind]. destruct (length_of ls) as [tb [e|len]]; [discriminate|].
  cbn. intros [= <- <-]. exists len. split; reflexivity.
Qed.

Lemma document_lengths_rerun (pt : Dict.t Z (Dict.t Z posting))
  (ids : list Z) :
  forall dl tr dl',
  for_each (document_length pt) ids dl = (tr, inr dl') ->
  forall dl2,
    (forall d, In d ids -> Dict.get dl2 d = Dict.get dl' d) ->
    for_each (document_length pt) ids dl2 = (tr, inr dl2).
Proof.
  induction ids as [|k ids IH]; intros dl tr dl' E dl2 Hsame.
  - cbn in *. now injection E as <- _.
  - pose proof (document_lengths_stored _ _ _ _ _ E k (or_introl eq_refl))
      as (ls0 & len0 & O1 & O2 & Hk).
    cbn [for_each] in E |- *.
    apply bind_returns in E as (t1 & dl1 & t2 & E1 & E2 & ->).
    pose proof (document_length_returns _ _ _ _ _ E1)
      as (ls1 & len1 & P1 & P2 & Hdl1).
    destruct (document_length_any _ _ _ _ _ E1) as (len & Hset & Hany).
    assert (len = len0).
    { assert (Some len = Some len1).
      { rewrite <- (get_set_same dl k len), <- Hset, Hdl1.
        apply get_set_same. }
      rewrite P1 in O1. injection O1 as <-. rewrite P2 in O2. congruence. }
    subst len0.
    rewrite (Hany dl2).
    rewrite set_same by (rewrite Hsame; [exact Hk | now left]).
    cbn [bind]. rewrite (IH _ _ _ E2 dl2); [reflexivity|].
    intros d Hd. apply Hsame. now right.
Qed.

(** X29: computing the document lengths a second time changes
    nothing: if [calculate_document_lengths] returns, then run again
    on the index it left it returns that same index, after the same
    arithmetic. *)
Theorem document_lengths_twice (ix ix1 : Indexer) (tr : list arith) :
  calculate_document_lengths ix = (tr, inr ix1) ->
  calculate_document_lengths ix1 = (tr, inr ix1).
Proof.
  intro E. apply calculate_document_lengths_returns in E as (dl & E & ->).
  unfold calculate_document_lengths.
  cbn [with_doc_lengths postings documents_inv doc_lengths].
  rewrite (document_lengths_rerun _ _ _ _ _ E dl) by reflexivity.
  cbn. rewrite app_nil_r. reflexivity.
Qed.

End LengthsAgain.

(* ------------------------------------------------------------------ *)
(** ** What a failed load leaves *)

Section PartialLoading.
Context `{PyFloat}.

(** A loop whose body reads an entry from each line and stops at the
    first line it cannot read. *)
Lemma for_lines_reads {E} (parse : string -> option E)
  (update : E -> Indexer -> Indexer) (body : string -> T unit) :
  (forall line ix,
     body line ix = match parse line with
                    | Some e => (update e ix, inr tt)
                    | None => (ix, inl ValueError)
                    end) ->
  forall lines ix,
    fst (for_lines body lines ix)
    = fold_left (fun ix e => update e ix) (entries_read parse lines) ix.
Proof.
  intros Hbody lines.
  induction lines as [|line lines IH]; intro ix; [reflexivity|].
  cbn [for_lines entries_read]. unfold bindT. rewrite Hbody.
  destruct (parse line) as [e|]; [|reflexivity].
  cbn [fold_left]. apply IH.
Qed.

Lemma block_reads {E} (parse : string -> option E)
  (update : E -> Indexer -> Indexer) (body : string -> T unit)
  (reset : Indexer -> Indexer) (file : option string) :
  (forall line ix,
     body line ix = match parse line with
                    | Some e => (update e ix, inr tt)
                    | None => (ix, inl ValueError)
                    end) ->
  forall ix,
    fst (bindT (modify reset) (fun _ =>
         bindT (open_lines file) (fun lines =>
         for_lines body lines)) ix)
    = fold_left (fun ix e => update e ix)
                (entries_read parse (lines_of file)) (reset ix).
Proof.
  intros Hbody ix. unfold bindT, modify, open_lines.
  destruct file as [s|]; cbn [lines_of retT raiseT]; [|reflexivity].
  pose proof (for_lines_reads parse update body Hbody (readlines s) (reset ix))
    as F.
  destruct (for_lines body (readlines s) (reset ix)) as [ix1 [e|[]]];
    exact F.
Qed.

Lemma load_document_line_entry (line : string) (ix : Indexer) :
  load_document_line line ix
  = match key_entry line with
    | Some e => (set_document e ix, inr tt)
    | None => (ix, inl ValueError)
    end.
Proof.
  unfold load_document_line, key_entry.
  destruct (Str.split comma (Str.strip line)) as [|a [|b [|c l]]];
    try reflexivity.
  unfold bindT, intT. destruct (Builtins.py_int b); reflexivity.
Qed.

Lemma load_term_line_entry (line : string) (ix : Indexer) :
  load_term_line line ix
  = match key_entry line with
    | Some e => (set_term e ix, inr tt)
    | None => (ix, inl ValueError)
    end.
Proof.
  unfold load_term_line, key_entry.
  destruct (Str.split comma (Str.strip line)) as [|a [|b [|c l]]];
    try reflexivity.
  unfold bindT, intT. destruct (Builtins.py_int b); reflexivity.
Qed.

Lemma load_posting_line_entry (line : string) (ix : Indexer) :
  load_posting_line line ix
  = match posting_entry line with
    | Some e => (set_posting_read e ix, inr tt)
    | None => (ix, inl ValueError)
    end.
Proof.
  unfold load_posting_line, posting_entry.
  destruct (Str.split comma (Str.strip line))
    as [|a [|b [|c [|d [|e [|f [|g l]]]]]]]; try reflexivity.
  unfold bindT, intT, floatT.
  destruct (Builtins.py_int a); [|reflexivity].
  destruct (Builtins.py_int b); [|reflexivity].
  destruct (py_float c); [|reflexivity].
  destruct (Builtins.py_int d); [|reflexivity].
  destruct (py_float e); [|reflexivity].
  destruct (Builtins.py_int f); reflexivity.
Qed.

Lemma load_doc_length_line_entry (line : string) (ix : Indexer) :
  load_doc_length_line line ix
  = match length_entry line with
    | Some e => (set_length_read e ix, inr tt)
    | None => (ix, inl ValueError)
    end.
Proof.
  unfold load_doc_length_line, length_entry.
  destruct (Str.split comma (Str.strip line)) as [|a [|b [|c l]]];
    try reflexivity.
  unfold bindT, intT, floatT.
  destruct (py_float b), (Builtins.py_int a); reflexivity.
Qed.

Lemma fold_set_posting_read (es : list (Z * (Z * posting))) (ix : Indexer) :
  postings (fold_left (fun ix e => set_posting_read e ix) es ix)
  = fold_left (fun pt e => set_posting pt (fst e) (fst (snd e)) (snd (snd e)))
              es (postings ix).
Proof. revert ix. induction es as [|e es IH]; intro ix; [reflexivity|]. apply IH. Qed.

Lemma fold_set_length_read (es : list (Z * float)) (ix : Indexer) :
  doc_lengths (fold_left (fun ix e => set_length_read e ix) es ix)
  = fold_left (fun d e => Dict.set d (fst e) (snd e)) es (doc_lengths ix).
Proof. revert ix. induction es as [|e es IH]; intro ix; [reflexivity|]. apply IH. Qed.

(** Each block, whether it ends or raises, leaves in its tables what
    it has read. *)
Lemma load_documents_reads (files : Files) (ix : Indexer) :
  documents_read files (fst (load_documents files ix)).
Proof.
  unfold load_documents, documents_read. cbv zeta.
  rewrite (block_reads key_entry set_document)
    by apply load_document_line_entry.
  rewrite fold_set_document, fold_set_document_inv. split; reflexivity.
Qed.

Lemma load_terms_reads (files : Files) (ix : Indexer) :
  terms_read files (fst (load_terms files ix)).
Proof.
  unfold load_terms, terms_read. cbv zeta.
  rewrite (block_reads key_entry set_term) by apply load_term_line_entry.
  rewrite fold_set_term, fold_set_term_inv. split; reflexivity.
Qed.

Lemma load_postings_reads (files : Files) (ix : Indexer) :
  postings_read files (fst (load_postings files ix)).
Proof.
  unfold load_postings, postings_read.
  rewrite (block_reads posting_entry set_posting_read)
    by apply load_posting_line_entry.
  now rewrite fold_set_posting_read.
Qed.

Lemma load_doc_lengths_reads (files : Files) (ix : Indexer) :
  doc_lengths_read files (fst (load_doc_lengths files ix)).
Proof.
  unfold load_doc_lengths, doc_lengths_read.
  rewrite (block_reads length_entry set_length_read)
    by apply load_doc_length_line_entry.
  now rewrite fold_set_length_read.
Qed.

(** C3, amended: a load that fails is reported as failed; the id
    counters, the totals and the statistics are as before the call,
    and so is every table whose file comes after the one during which
    the load failed.  The tables of the failing file and of the files
    before it are replaced by what was read until the error: the
    entries of the lines of each file up to the first line that
    cannot be read, none for a missing file. *)
Theorem failed_load_leaves_what_was_read (files : Files) (ix ix' : Indexer) :
  load_index files ix = (ix', false) ->
  counters ix' = counters ix
  /\ exists st,
       failing_stage files ix = Some st
       /\ later_tables_kept st ix ix'
       /\ earlier_tables_read st files ix'.
Proof.
  unfold load_index, failing_stage.
  destruct (load_index_try files ix) as [r [e|[]]] eqn:E; intros [= <-].
  unfold load_index_try, bindT in E.
  pose proof (load_documents_frame files ix) as F1.
  pose proof (load_documents_reads files ix) as R1.
  destruct (load_documents files ix) as [i1 [e1|[]]]; cbn [fst] in F1, R1;
    injection F1 as A1 A2 A3 A4 A5 A6 A7 A8 A9.
  { injection E as <- _. split; [unfold counters; congruence|].
    exists AtDocuments. split; [reflexivity|]. split; [|exact R1].
    cbn. now repeat split. }
  pose proof (load_terms_frame files i1) as F2.
  pose proof (load_terms_reads files i1) as R2.
  destruct (load_terms files i1) as [i2 [e2|[]]]; cbn [fst] in F2, R2;
    injection F2 as B1 B2 B3 B4 B5 B6 B7 B8 B9.
  { injection E as <- _. split; [unfold counters; congruence|].
    exists AtTerms. split; [reflexivity|]. split.
    - cbn. split; congruence.
    - split; [|exact R2]. unfold documents_read in *. now rewrite B1, B2. }
  pose proof (load_postings_frame files i2) as F3.
  pose proof (load_postings_reads files i2) as R3.
  destruct (load_postings files i2) as [i3 [e3|[]]]; cbn [fst] in F3, R3;
    injection F3 as C1 C2 C3 C4 C5 C6 C7 C8 C9 C10.
  { injection E as <- _. split; [unfold counters; congruence|].
    exists AtPostings. split; [reflexivity|]. split.
    - cbn. congruence.
    - split; [|split; [|exact R3]].
      + unfold documents_read in *. now rewrite C1, C2, B1, B2.
      + unfold terms_read in *. now rewrite C3, C4. }
  pose proof (load_doc_lengths_frame files i3) as F4.
  pose proof (load_doc_lengths_reads files i3) as R4.
  destruct (load_doc_lengths files i3) as [i4 [e4|[]]]; cbn [fst] in F4, R4;
    injection F4 as D1 D2 D3 D4 D5 D6 D7 D8 D9 D10.
  { injection E as <- _. split; [unfold counters; congruence|].
    exists AtDocLengths. split; [reflexivity|]. split; [exact I|].
    split; [|split; [|split; [|exact R4]]].
    - unfold documents_read in *. now rewrite D1, D2, C1, C2, B1, B2.
    - unfold terms_read in *. now rewrite D3, D4, C3, C4.
    - unfold postings_read in *. now rewrite D5. }
  discriminate E.
Qed.

End PartialLoading.

(* ------------------------------------------------------------------ *)
(** ** The length of a crawled document *)

Section CrawledLengths.
Context `{PyFloat} `{Stemmer} `{!PyFloatLaws}.
Variable normalize_url : string -> string.

(** C6, as the code has it for a crawled document: whatever a crawl
    has fetched, the steps that end it return, and a document of the
    crawl whose sum of squared [tf_idf] is zero has no length in the
    index they leave and save: not the length 1.0, and no other.
    [WebCrawler.process_document] does not enter the document in
    [documents_inv], over which the lengths are computed. *)
Theorem crawled_zero_mass_document_has_no_length (mu md : Z)
  (start_url : string) (evs : list event) :
  let c :=
    crawler (crawl_run normalize_url
               (crawl_start normalize_url (new_crawler mu md) start_url)
               evs) in
  exists c' files,
    outcome (crawl_finish c) = inr (c', files)
    /\ forall url doc_id,
         Dict.get (documents (indexer c')) url = Some doc_id ->
         outcome (length_squared_of (postings (indexer c')) doc_id)
         = inr (float_of_int 0) ->
         Dict.get (doc_lengths (indexer c')) doc_id = None
         /\ Dict.get (doc_lengths (indexer c')) doc_id
            <> Some (float_of_int 1)
         /\ doc_lengths_dat files = Some EmptyString.
Proof.
  intro c.
  assert (Hc : crawled c).
  { apply crawl_run_crawled. repeat split; cbn; auto; lia. }
  destruct (crawler_calculate_tf_idf_returns c Hc) as [pt Hpt].
  destruct Hc as (_ & _ & C3 & C4).
  unfold crawl_finish. rewrite outcome_bind, Hpt.
  unfold crawler_save_index. rewrite outcome_bind.
  rewrite calculate_document_lengths_no_inverse by exact C3.
  cbn [outcome ret snd]. eexists _, _. split; [reflexivity|].
  intros url doc_id _ _. cbn. rewrite C4.
  split; [reflexivity|]. split; [discriminate | reflexivity].
Qed.

End CrawledLengths.

(* ================================================================== *)
(** * The statements at concrete inputs *)

Section Examples.

#[local] Existing Instance RealFloat.instance.
#[local] Existing Instance SimpleStemmer.
#[local] Existing Instance RealFloatFacts.laws.

(** *** Crawls *)

(** The crawl of the two-page site, with room for ten URLs: two
    documents in the index, and [doc_lengths.dat] written empty. *)
Lemma two_page_crawl_saves_no_document_length :
  List.length (documents (indexer (crawler (Fixture.two_page_crawl 10))))
  = 2%nat
  /\ exists c' files,
       outcome (crawl_finish (crawler (Fixture.two_page_crawl 10)))
       = inr (c', files)
       /\ documents (indexer c')
          = documents (indexer (crawler (Fixture.two_page_crawl 10)))
       /\ doc_lengths (indexer c') = []
       /\ doc_lengths_dat files = Some EmptyString.
Proof.
  split.
  - vm_compute. reflexivity.
  - exact (crawl_saves_no_document_length Fixture.same_url 10 5
             Fixture.page1 Fixture.two_pages).
Defined.

(** The same site with room for one URL only. *)
Lemma one_url_crawl_is_bounded :
  0 <= 1
  /\ processed (Fixture.two_page_crawl 1) <= 1
  /\ (processed (Fixture.two_page_crawl 1) < 1
      \/ forall more,
           crawler (crawl_run Fixture.same_url (Fixture.two_page_crawl 1) more)
           = crawler (Fixture.two_page_crawl 1)).
Proof.
  split.
  - discriminate.
  - apply (processed_urls_bounded Fixture.same_url 1 5 Fixture.page1
             Fixture.two_pages).
    discriminate.
Defined.

(** *** Scoring *)

(** A term in two of four documents. *)
Lemma half_corpus_is_scored :
  0 < 4
  /\ outcome (score_postings 4 Fixture.half_corpus)
     = inr (List.map (fun e => (fst e, scored 4 (snd e))) Fixture.half_corpus)
  /\ Forall (fun e =>
               Forall (fun dp =>
                         idf (snd dp)
                         = Some (if Z.of_nat (List.length (snd e)) =? 4
                                 then float_of_int 0
                                 else fln (int_truediv 4
                                             (Z.of_nat (List.length (snd e))))))
                      (scored 4 (snd e)))
            Fixture.half_corpus.
Proof.
  split.
  - reflexivity.
  - apply (tf_idf_formula 4 Fixture.half_corpus). reflexivity.
Defined.

(** One posting and no document: the quotient [0 / 1] is taken and
    [math.log] raises [ValueError]. *)
Lemma scoring_divides_without_documents :
  documents Fixture.orphan_index = []
  /\ score_postings 0 (postings Fixture.orphan_index)
     = ([DivInt 0 1; MathLog], inl ValueError)
  /\ calculate_tf_idf Fixture.orphan_index
     = ([DivInt 0 1; MathLog], inl ValueError).
Proof.
  split; [reflexivity|].
  assert (E : score_postings 0 (postings Fixture.orphan_index)
              = ([DivInt 0 1; MathLog], inl ValueError))
    by apply score_postings_zero_documents_raises.
  split; [exact E|].
  unfold calculate_tf_idf.
  change (Z.of_nat (List.length (documents Fixture.orphan_index))) with 0.
  rewrite E. reflexivity.
Qed.

(** A term without any posting. *)
Lemma bare_term_is_left_alone :
  no_postings Fixture.bare_term
  /\ List.filter is_division (trace (score_postings 0 Fixture.bare_term)) = []
  /\ outcome (score_postings 0 Fixture.bare_term) = inr Fixture.bare_term.
Proof.
  assert (Hb : no_postings Fixture.bare_term)
    by (constructor; [reflexivity | constructor]).
  exact (conj Hb (scoring_without_documents Fixture.bare_term Hb)).
Defined.

(** *** Tokens *)

(** The text [a]: one token, rejected as a stop word and not as a short
    word. *)
Lemma token_a_is_rejected_as_stop_word :
  stats (fst (process_document_from_text new_indexer "a" "doc"))
  = mkStats 1 1 0 0 0.
Proof. vm_compute. reflexivity. Qed.

(** *** Document lengths *)

(** A document without a surviving term, on the path of [Indexer]: it is
    in [documents_inv], the scoring pass has nothing to do, and its
    length is 1.0. *)
Lemma stop_words_only_length_is_one :
  documents_inv Fixture.stop_words_only = [(1, "doc")]
  /\ calculate_tf_idf Fixture.stop_words_only = ret Fixture.stop_words_only
  /\ calculate_document_lengths Fixture.stop_words_only
     = ret (with_doc_lengths Fixture.stop_words_only [(1, float_of_int 1)]).
Proof.
  split; [reflexivity|]. split; [reflexivity|].
  unfold calculate_document_lengths.
  change (Dict.keys (documents_inv Fixture.stop_words_only)) with [1].
  change (postings Fixture.stop_words_only) with (@nil (Z * Dict.t Z posting)).
  cbn [for_each]. unfold document_length.
  rewrite length_squared_without_postings by constructor.
  rewrite bind_ret. unfold length_of.
  rewrite zero_not_positive, !bind_ret. reflexivity.
Qed.

Lemma common_term_squares :
  length_squared_of (postings Fixture.common_term_index) 1
  = ret (float_of_int 0).
Proof.
  unfold length_squared_of, ret. cbn.
  do 2 f_equal. unfold fadd, fmul, float_of_int. cbn. ring.
Qed.

Lemma common_term_mass :
  outcome (length_squared_of (postings Fixture.common_term_index) 1)
  = inr (float_of_int 0).
Proof. now rewrite common_term_squares. Qed.

Lemma common_term_lengths_computed :
  calculate_document_lengths Fixture.common_term_index
  = ([], inr Fixture.common_term_lengths).
Proof.
  unfold calculate_document_lengths.
  change (Dict.keys (documents_inv Fixture.common_term_index)) with [1].
  cbn [for_each]. unfold document_length.
  rewrite common_term_squares, bind_ret.
  unfold length_of. rewrite zero_not_positive, !bind_ret. reflexivity.
Qed.

(** A document whose only term is in every document. *)
Lemma common_term_length_is_one :
  calculate_document_lengths Fixture.common_term_index
  = ([], inr Fixture.common_term_lengths)
  /\ In 1 (Dict.keys (documents_inv Fixture.common_term_index))
  /\ outcome (length_squared_of (postings Fixture.common_term_index) 1)
     = inr (float_of_int 0)
  /\ Dict.get (doc_lengths Fixture.common_term_lengths) 1
     = Some (float_of_int 1)
  /\ float_of_int 1 <> float_of_int 0.
Proof.
  assert (H2 : In 1 (Dict.keys (documents_inv Fixture.common_term_index)))
    by (left; reflexivity).
  exact (conj common_term_lengths_computed
           (conj H2
              (conj common_term_mass
                 (zero_mass_length_is_one _ _ _ 1
                    common_term_lengths_computed H2 common_term_mass)))).
Defined.

(** *** Saving and loading *)

Lemma small_index_storable : storable Fixture.small_index.
Proof.
  constructor; cbn;
    repeat (constructor; try reflexivity);
    cbn; try tauto; intuition (try discriminate; try congruence).
Qed.

(** A scored index of two documents goes through save, load and
    save. *)
Lemma small_index_round_trip :
  storable Fixture.small_index
  /\ exists ix1,
       load_index (save_index Fixture.small_index) new_indexer = (ix1, true)
       /\ save_index ix1 = save_index Fixture.small_index.
Proof.
  exact (conj small_index_storable
           (save_load_save Fixture.small_index new_indexer
              small_index_storable)).
Defined.

(** A comma in a document path makes the load fail, and what is saved
    next has lost the document; a blank in front of a path is lost on
    loading, and the file saved next differs. *)
Lemma save_load_save_breaks :
  snd (load_index (save_index Fixture.comma_index) new_indexer) = false
  /\ save_index (fst (load_index (save_index Fixture.comma_index) new_indexer))
     <> save_index Fixture.comma_index
  /\ snd (load_index (save_index Fixture.blank_index) new_indexer) = true
  /\ save_index (fst (load_index (save_index Fixture.blank_index) new_indexer))
     <> save_index Fixture.blank_index.
Proof. vm_compute. repeat split; discriminate. Qed.

Lemma half_load_fails :
  load_index Fixture.half_files Fixture.old_index
  = (Fixture.half_loaded, false).
Proof. reflexivity. Qed.

(** With [documents.dat] alone in the directory the load fails, and
    the index is not as it was: it holds the documents just read and
    has lost its terms. *)
Lemma failed_load_changes_the_index :
  load_index Fixture.half_files Fixture.old_index
  = (Fixture.half_loaded, false)
  /\ Fixture.half_loaded <> Fixture.old_index
  /\ documents Fixture.half_loaded = [("page", 1)]
  /\ terms Fixture.half_loaded = [].
Proof.
  split; [exact half_load_fails|].
  split; [discriminate | split; reflexivity].
Qed.

Lemma saved_files_load :
  load_index Fixture.saved_files new_indexer = (Fixture.loaded_index, true).
Proof. reflexivity. Qed.

(** Documents 3 and 7 and term 5 are loaded: the next document is 8,
    the next term 6. *)
Lemma loaded_counters_are_restored :
  load_index Fixture.saved_files new_indexer = (Fixture.loaded_index, true)
  /\ restored_counter (Dict.values (documents Fixture.loaded_index))
                      (next_doc_id Fixture.loaded_index)
  /\ restored_counter (Dict.values (terms Fixture.loaded_index))
                      (next_term_id Fixture.loaded_index).
Proof.
  exact (conj saved_files_load
           (load_restores_counters _ _ _ saved_files_load)).
Defined.

End Examples.

(* ================================================================== *)
(** * More statements at concrete inputs *)

Section MoreExamples.

#[local] Existing Instance RealFloat.instance.
#[local] Existing Instance SimpleStemmer.
#[local] Existing Instance RealFloatFacts.laws.

(** A comma between two words. *)
Lemma comma_separates_tokens :
  Chars.is_alnum ","%char = false
  /\ splitchars ("red" ++ String ","%char "green")
     = (splitchars "red" ++ splitchars "green")%list.
Proof.
  exact (conj eq_refl (splitchars_separator "red" ","%char "green" eq_refl)).
Defined.

Lemma colours_are_tokens : Forall token_ok Sample.colours.
Proof. repeat constructor; discriminate. Qed.

(** Three words joined by blanks. *)
Lemma colours_are_found_again :
  (Chars.is_alnum " "%char = false /\ Forall token_ok Sample.colours)
  /\ splitchars (String.concat (String " "%char EmptyString) Sample.colours)
     = Sample.colours.
Proof.
  exact (conj (conj eq_refl colours_are_tokens)
           (splitchars_join " "%char Sample.colours eq_refl
              colours_are_tokens)).
Defined.

Lemma year_reads_as_float : reads_as_float "2024".
Proof. left. split; [discriminate | reflexivity]. Qed.

(** A year is not indexed. *)
Lemma year_is_not_indexed :
  reads_as_float "2024"
  /\ snd (process_token (Fixture.no_stats, []) "2024") = []
  /\ snd (crawler_token ((0, 0), []) "2024") = [].
Proof.
  exact (conj year_reads_as_float
           (numbers_are_never_indexed "2024" Fixture.no_stats (0, 0) []
              year_reads_as_float)).
Defined.

Lemma pdf_is_an_extension : In (Str.lower ".PDF") Url.skip_extensions.
Proof. left. reflexivity. Qed.

(** A report in PDF, the extension in capitals. *)
Lemma pdf_report_is_skipped :
  In (Str.lower ".PDF") Url.skip_extensions
  /\ Url.should_skip_url (Sample.report ++ ".PDF") = true
  /\ forall url,
       Url.should_skip_url (Str.lower url) = Url.should_skip_url url.
Proof.
  exact (conj pdf_is_an_extension
           (skipped_extension_any_case Sample.report ".PDF"
              pdf_is_an_extension)).
Defined.

(** A page that is not skipped is valid. *)
Lemma report_page_is_valid :
  (Str.mem (Sample.http_only Sample.report) ["http"; "https"] = true
   /\ Url.should_skip_url Sample.report = false)
  /\ Url.is_valid_url Sample.http_only Sample.report = true.
Proof.
  exact (conj (conj eq_refl eq_refl)
           (unskipped_http_url_is_valid Sample.http_only Sample.report
              eq_refl eq_refl)).
Defined.

Lemma initial_stop_words_ok :
  forallb stop_word_ok StopWords.initial = true.
Proof. vm_compute. reflexivity. Qed.

(** The stop words of the module, saved and loaded. *)
Lemma initial_stop_words_save_load :
  forallb stop_word_ok StopWords.initial = true
  /\ StopWords.load_custom_stop_words StopWords.initial
       (Some (StopWords.save_stop_words StopWords.initial))
     = (StopWords.initial, true)
  /\ forall (S' : StopWords.t) (word : string),
       StopWords.is_stop_word
         (fst (StopWords.load_custom_stop_words S'
                 (Some (StopWords.save_stop_words StopWords.initial)))) word
       = StopWords.is_stop_word S' word
         || StopWords.is_stop_word StopWords.initial word.
Proof.
  exact (conj initial_stop_words_ok
           (stop_words_save_load StopWords.initial initial_stop_words_ok)).
Defined.

Lemma one_text_posting :
  posting_of (index_texts Sample.one_text new_indexer) 1 1
  = Some (mkPosting 2 None None None).
Proof. reflexivity. Qed.

Lemma one_text_paths : NoDup (List.map snd Sample.one_text).
Proof. repeat constructor. intros []. Qed.

(** The posting of the repeated word of one text. *)
Lemma one_text_posting_is_known :
  posting_of (index_texts Sample.one_text new_indexer) 1 1
  = Some (mkPosting 2 None None None)
  /\ NoDup (List.map snd Sample.one_text)
  /\ (exists term,
        Dict.get (terms_inv (index_texts Sample.one_text new_indexer)) 1
        = Some term
        /\ Dict.get (terms (index_texts Sample.one_text new_indexer)) term
           = Some 1)
  /\ (exists path id,
        Dict.get (documents_inv (index_texts Sample.one_text new_indexer)) 1
        = Some path
        /\ Dict.get (documents (index_texts Sample.one_text new_indexer)) path
           = Some id
        /\ (NoDup (List.map snd Sample.one_text) -> id = 1))
  /\ 1 <= tf (mkPosting 2 None None None)
  /\ (forall term t,
        Dict.get (terms (index_texts Sample.one_text new_indexer)) term
        = Some t ->
        exists doc_postings,
          Dict.get (postings (index_texts Sample.one_text new_indexer)) t
          = Some doc_postings
          /\ doc_postings <> []).
Proof.
  exact (conj one_text_posting
           (conj one_text_paths
              (postings_refer_to_known_ids Sample.one_text 1 1
                 (mkPosting 2 None None None) one_text_posting))).
Defined.

(** A path processed twice: [documents] keeps its second id only,
    [documents_inv] has it under both, and the posting of the first
    text stays under the first id. *)
Lemma path_processed_twice :
  documents (index_texts Sample.same_path_twice new_indexer) = [("a.txt", 2)]
  /\ documents_inv (index_texts Sample.same_path_twice new_indexer)
     = [(1, "a.txt"); (2, "a.txt")]
  /\ posting_of (index_texts Sample.same_path_twice new_indexer) 1 1
     = Some (mkPosting 1 None None None).
Proof. repeat split. Qed.

Lemma fresh_tables_are_the_same :
  same_tables (indexer (new_crawler 5 5)) new_indexer.
Proof. repeat split. Qed.

(** The first page of a crawl, and the same text given to a fresh
    indexer. *)
Lemma first_page_is_indexed_alike :
  same_tables (indexer (new_crawler 5 5)) new_indexer
  /\ same_tables
       (indexer (process_document (new_crawler 5 5) Fixture.page1
                   "Crawling spiders follow links"))
       (fst (process_document_from_text new_indexer
               "Crawling spiders follow links" Fixture.page1))
  /\ CStats.total_tokens
       (cstats (process_document (new_crawler 5 5) Fixture.page1
                  "Crawling spiders follow links"))
     - CStats.total_tokens (cstats (new_crawler 5 5))
     = tokens_processed
         (stats (fst (process_document_from_text new_indexer
                        "Crawling spiders follow links" Fixture.page1)))
       - tokens_processed (stats new_indexer)
  /\ CStats.stop_words_matched
       (cstats (process_document (new_crawler 5 5) Fixture.page1
                  "Crawling spiders follow links"))
     - CStats.stop_words_matched (cstats (new_crawler 5 5))
     = stop_words_matched
         (stats (fst (process_document_from_text new_indexer
                        "Crawling spiders follow links" Fixture.page1)))
       - stop_words_matched (stats new_indexer).
Proof.
  exact (conj fresh_tables_are_the_same
           (crawler_indexes_as_indexer (new_crawler 5 5) new_indexer
              Fixture.page1 "Crawling spiders follow links"
              fresh_tables_are_the_same)).
Defined.

(** A corpus of three files, one of them unreadable, is built. *)
Lemma small_corpus_is_built :
  build_index None new_indexer = ret (new_indexer, false)
  /\ exists tr ix,
       build_index (Some Sample.small_corpus) new_indexer
       = (tr, inr (ix, true))
       /\ Dict.keys (doc_lengths ix) = Dict.keys (documents_inv ix)
       /\ Dict.keys (documents_inv ix)
          = ids_to (List.length (readable Sample.small_corpus))
       /\ (forall doc_id, In doc_id (Dict.keys (documents_inv ix)) ->
             exists length_squared len,
               outcome (length_squared_of (postings ix) doc_id)
               = inr length_squared
               /\ outcome (length_of length_squared) = inr len
               /\ Dict.get (doc_lengths ix) doc_id = Some len)
       /\ all_scored (postings ix)
       /\ total_docs ix = Z.of_nat (List.length (documents ix))
       /\ total_terms ix = Z.of_nat (List.length (terms ix)).
Proof. exact (build_index_returns Sample.small_corpus). Defined.

Lemma small_index_has_documents : documents Fixture.small_index <> [].
Proof. discriminate. Qed.

(** A scored index of two documents, scored again. *)
Lemma small_index_scored_twice :
  documents Fixture.small_index <> []
  /\ exists ix1,
       outcome (calculate_tf_idf Fixture.small_index) = inr ix1
       /\ outcome (calculate_tf_idf ix1) = inr ix1.
Proof.
  exact (conj small_index_has_documents
           (scoring_twice_is_scoring_once Fixture.small_index
              small_index_has_documents)).
Defined.

(** The same index, saved and loaded into an index of an earlier
    session. *)
Lemma small_index_is_restored :
  storable Fixture.small_index
  /\ exists ix1,
       load_index (save_index Fixture.small_index) Fixture.old_index
       = (ix1, true)
       /\ documents ix1 = documents Fixture.small_index
       /\ terms ix1 = terms Fixture.small_index
       /\ postings ix1 = reloaded (postings Fixture.small_index)
       /\ (forall term_id doc_id,
             posting_in (postings ix1) term_id doc_id
             = option_map reload
                 (posting_in (postings Fixture.small_index) term_id doc_id))
       /\ doc_lengths ix1 = List.map reread (doc_lengths Fixture.small_index)
       /\ (NoDup (Dict.values (documents Fixture.small_index)) ->
           documents_inv ix1 = List.map swap (documents Fixture.small_index))
       /\ (NoDup (Dict.values (terms Fixture.small_index)) ->
           terms_inv ix1 = List.map swap (terms Fixture.small_index))
       /\ next_doc_id ix1 = next_id (documents Fixture.small_index)
       /\ next_term_id ix1 = next_id (terms Fixture.small_index)
       /\ total_docs ix1
          = Z.of_nat (List.length (documents Fixture.small_index))
       /\ total_terms ix1
          = Z.of_nat (List.length (terms Fixture.small_index))
       /\ stats ix1 = stats Fixture.old_index.
Proof.
  exact (conj small_index_storable
           (load_restores_saved_index Fixture.small_index Fixture.old_index
              small_index_storable)).
Defined.

(** The directory of two documents and one term, loaded into a fresh
    indexer and into the index of an earlier session. *)
Lemma saved_files_load_alike :
  load_index Fixture.saved_files new_indexer = (Fixture.loaded_index, true)
  /\ stats Fixture.loaded_index = stats new_indexer
  /\ exists jx1,
       load_index Fixture.saved_files Fixture.old_index = (jx1, true)
       /\ tables jx1 = tables Fixture.loaded_index
       /\ id_counters jx1 = id_counters Fixture.loaded_index
       /\ stats jx1 = stats Fixture.old_index.
Proof.
  exact (conj saved_files_load
           (load_forgets_the_index Fixture.saved_files new_indexer
              Fixture.old_index Fixture.loaded_index saved_files_load)).
Defined.

Lemma small_corpus_paths :
  Forall (fun f => key_ok (fst f) = true) Sample.small_corpus.
Proof. repeat constructor. Qed.

(** A corpus of three files, one of them unreadable, with the
    fallback stemmer. *)
Lemma small_corpus_survives_save_and_load :
  (clean_stems
   /\ Forall (fun f => key_ok (fst f) = true) Sample.small_corpus)
  /\ exists tr ix ix1,
       build_index (Some Sample.small_corpus) new_indexer
       = (tr, inr (ix, true))
       /\ load_index (save_index ix) new_indexer = (ix1, true)
       /\ documents ix1 = documents ix
       /\ terms ix1 = terms ix
       /\ terms_inv ix1 = terms_inv ix
       /\ next_doc_id ix1 = next_doc_id ix
       /\ next_term_id ix1 = next_term_id ix
       /\ total_docs ix1 = total_docs ix
       /\ total_terms ix1 = total_terms ix
       /\ Dict.keys (doc_lengths ix1) = Dict.keys (doc_lengths ix)
       /\ (forall term_id doc_id p,
             posting_of ix term_id doc_id = Some p ->
             exists p1, posting_of ix1 term_id doc_id = Some p1
                        /\ tf p1 = tf p /\ df p1 = df p)
       /\ stats ix1 = mkStats 0 0 0 0 0.
Proof.
  exact (conj (conj simple_stemmer_clean small_corpus_paths)
           (built_index_survives_save_and_load Sample.small_corpus
              simple_stemmer_clean small_corpus_paths)).
Defined.

Lemma three_fields_unreadable :
  unreadable 2 (documents_dat Sample.three_fields)
  \/ unreadable 2 (terms_dat Sample.three_fields)
  \/ unreadable 6 (postings_dat Sample.three_fields)
  \/ unreadable 2 (doc_lengths_dat Sample.three_fields).
Proof.
  left. exists "a,b,1". split; [now left | discriminate].
Qed.

(** A line of three fields in [documents.dat]. *)
Lemma three_fields_do_not_load :
  (unreadable 2 (documents_dat Sample.three_fields)
   \/ unreadable 2 (terms_dat Sample.three_fields)
   \/ unreadable 6 (postings_dat Sample.three_fields)
   \/ unreadable 2 (doc_lengths_dat Sample.three_fields))
  /\ snd (load_index Sample.three_fields new_indexer) = false.
Proof.
  exact (conj three_fields_unreadable
           (malformed_file_fails_the_load Sample.three_fields new_indexer
              three_fields_unreadable)).
Defined.

(** The lengths of the index whose only term is in every document,
    computed again. *)
Lemma common_term_lengths_twice :
  calculate_document_lengths Fixture.common_term_index
  = ([], inr Fixture.common_term_lengths)
  /\ calculate_document_lengths Fixture.common_term_lengths
     = ([], inr Fixture.common_term_lengths).
Proof.
  exact (conj common_term_lengths_computed
           (document_lengths_twice _ _ _ common_term_lengths_computed)).
Defined.

(** *** A load that fails *)

(** With [documents.dat] alone in the directory: the counters, the
    postings and the document lengths are as before; the documents
    are those of the file and there is no term. *)
Lemma half_load_leaves_what_was_read :
  load_index Fixture.half_files Fixture.old_index
  = (Fixture.half_loaded, false)
  /\ counters Fixture.half_loaded = counters Fixture.old_index
  /\ exists st,
       failing_stage Fixture.half_files Fixture.old_index = Some st
       /\ later_tables_kept st Fixture.old_index Fixture.half_loaded
       /\ earlier_tables_read st Fixture.half_files Fixture.half_loaded.
Proof.
  exact (conj half_load_fails
           (failed_load_leaves_what_was_read _ _ _ half_load_fails)).
Defined.

(** A second line of [terms.dat] that cannot be read: the load fails
    there, with both documents and the first term in the index. *)
Lemma torn_load_keeps_the_first_term :
  snd (load_index Sample.torn_files Fixture.old_index) = false
  /\ failing_stage Sample.torn_files Fixture.old_index = Some AtTerms
  /\ entries_read key_entry (lines_of (terms_dat Sample.torn_files))
     = [("spider", 1)]
  /\ documents (fst (load_index Sample.torn_files Fixture.old_index))
     = [("page1", 1); ("page2", 2)]
  /\ terms (fst (load_index Sample.torn_files Fixture.old_index))
     = [("spider", 1)]
  /\ terms_inv (fst (load_index Sample.torn_files Fixture.old_index))
     = [(1, "spider")]
  /\ postings (fst (load_index Sample.torn_files Fixture.old_index)) = []
  /\ next_term_id (fst (load_index Sample.torn_files Fixture.old_index)) = 10.
Proof. repeat split. Qed.

(** *** The length of a crawled document *)

Lemma stop_word_crawl_finishes :
  exists c0 files0,
    outcome (crawl_finish (crawler Sample.stop_word_crawl))
    = inr (c0, files0)
    /\ Dict.get (documents (indexer c0)) Fixture.page1 = Some 1
    /\ outcome (length_squared_of (postings (indexer c0)) 1)
       = inr (float_of_int 0).
Proof. eexists _, _. split; [reflexivity|]. split; reflexivity. Qed.

(** The crawl of a page of stop words only: the page is document 1,
    it has no posting, and the index saved has no length for it. *)
Lemma stop_word_page_has_no_length :
  documents (indexer (crawler Sample.stop_word_crawl))
  = [(Fixture.page1, 1)]
  /\ exists c' files,
       outcome (crawl_finish (crawler Sample.stop_word_crawl))
       = inr (c', files)
       /\ Dict.get (documents (indexer c')) Fixture.page1 = Some 1
       /\ outcome (length_squared_of (postings (indexer c')) 1)
          = inr (float_of_int 0)
       /\ Dict.get (doc_lengths (indexer c')) 1 = None
       /\ Dict.get (doc_lengths (indexer c')) 1 <> Some (float_of_int 1)
       /\ doc_lengths_dat files = Some EmptyString.
Proof.
  split; [reflexivity|].
  destruct (crawled_zero_mass_document_has_no_length Fixture.same_url 10 5
              Fixture.page1 Sample.stop_word_page)
    as (c' & files & E & Hno).
  destruct stop_word_crawl_finishes as (c0 & files0 & E0 & Hdoc & Hmass).
  fold Sample.stop_word_crawl in E. rewrite E in E0.
  injection E0 as <- <-.
  exists c', files. split; [exact E|]. split; [exact Hdoc|].
  split; [exact Hmass|]. exact (Hno _ _ Hdoc Hmass).
Defined.

End MoreExamples.
